(** * github-team-metrics: the reconciliation and scoring pipeline

    A shallow embedding of the parts of [src/src/data_processor.py],
    [src/src/performance_ranker.py] and [src/src/github_fetcher.py] that
    match identities, merge records, derive metrics and rank engineers.

    Modelling conventions.
    - A Python dict record is a [gmap string pyval]; nested dicts (such as
      [ai_analysis]) are association lists, read with [dict_get] (first
      binding, as a dict holds one binding per key).
    - Python numbers (int and float) are exact rationals [Q]: the model has
      no overflow, NaN or float rounding in [+ - * /].  [round(x, n)] is
      [py_round]: round half to even of the exact value at [n] decimals,
      returned in lowest terms.
    - An exception is [None] in the [option] monad: [ZeroDivisionError],
      [KeyError] on a missing mandatory key, and [TypeError] or
      [AttributeError] when a value used as a number or as a dict is not
      one.
    - A Python set is the list of its elements in iteration order (no
      duplicates); string hashing is randomised per process, so the
      theorems quantify over every order. *)

From Stdlib Require Import QArith Qround Lqa Ascii String Sorted.
From stdpp Require Import base list gmap strings.

Local Set Warnings "-register-all".

(* ================================================================= *)
(** ** Python values and dict access *)

Inductive pyval :=
| PNone
| PNum (q : Q)
| PStr (s : string)
| PList (xs : list pyval)
| PDict (kvs : list (string * pyval)).

Abbreviation record := (gmap string pyval).

(** [d.get(k)] on a nested dict. *)
Fixpoint dict_get (kvs : list (string * pyval)) (k : string) : option pyval :=
  match kvs with
  | [] => None
  | (k', v) :: r => if String.eqb k k' then Some v else dict_get r k
  end.

Definition py_num (v : pyval) : option Q :=
  match v with PNum q => Some q | _ => None end.

(** [eng.get(k, 0)] used as a number. *)
Definition get_num (e : record) (k : string) : option Q :=
  match e !! k with None => Some 0%Q | Some v => py_num v end.

(** [eng.get(k, {})] used as a dict. *)
Definition get_dict (e : record) (k : string) : option (list (string * pyval)) :=
  match e !! k with None => Some [] | Some (PDict d) => Some d | Some _ => None end.

Definition dget_dict (d : list (string * pyval)) (k : string)
  : option (list (string * pyval)) :=
  match dict_get d k with None => Some [] | Some (PDict d') => Some d' | Some _ => None end.

Definition dget_num (d : list (string * pyval)) (k : string) : option Q :=
  match dict_get d k with None => Some 0%Q | Some v => py_num v end.

(** [eng['github_username']]: a missing key raises [KeyError]; usernames
    are strings throughout the pipeline. *)
Definition username (e : record) : option string :=
  match e !! "github_username" with Some (PStr u) => Some u | _ => None end.

(* ================================================================= *)
(** ** Python arithmetic helpers *)

Local Open Scope Q_scope.

(** Python's [x < y] on numbers. *)
Definition Qltb (x y : Q) : bool := negb (Qle_bool y x).

(** [a / b] raises [ZeroDivisionError] when [b == 0]. *)
Definition py_div (a b : Q) : option Q :=
  if Qeq_bool b 0 then None else Some (a / b).

Definition round_half_even (y : Q) : Z :=
  let f := Qfloor y in
  match Qcompare (y - inject_Z f) (1 # 2) with
  | Lt => f
  | Gt => (f + 1)%Z
  | Eq => if Z.even f then f else (f + 1)%Z
  end.

(** [round(x, n)]. *)
Definition py_round (x : Q) (n : nat) : Q :=
  let p := inject_Z (10 ^ Z.of_nat n) in
  Qred (inject_Z (round_half_even (x * p)) / p).

(** [min(xs) if xs else 0] and [max(xs) if xs else 0]: the first least
    (greatest) element, replaced only by a strictly smaller (larger) one. *)
Definition py_min (xs : list Q) : Q :=
  match xs with
  | [] => 0
  | x :: r => fold_left (fun m y => if Qltb y m then y else m) r x
  end.

Definition py_max (xs : list Q) : Q :=
  match xs with
  | [] => 0
  | x :: r => fold_left (fun m y => if Qltb m y then y else m) r x
  end.

Definition qsum (xs : list Q) : Q := fold_left Qplus xs 0.

Local Close Scope Q_scope.

(* ================================================================= *)
(** ** PerformanceRanker ([src/src/performance_ranker.py]) *)

Module Ranker.

Local Open Scope Q_scope.

(** [normalize_to_100]: [50.0] when [max_val == min_val], otherwise the
    min-max scaled value rounded to 2 decimals. *)
Definition normalize_to_100 (value min_val max_val : Q) : option Q :=
  if Qeq_bool max_val min_val then Some 50
  else
    q ← py_div (value - min_val) (max_val - min_val);
    Some (py_round (q * 100) 2).

(** A loop [for eng in engineer_data: d[key(eng)] = val(eng)] (or the
    equivalent dict comprehension) over an initially empty dict: a later
    engineer with the same key overwrites an earlier one. *)
Fixpoint collect {A} (f : record -> option (string * A)) (l : list record)
    (acc : gmap string A) : option (gmap string A) :=
  match l with
  | [] => Some acc
  | e :: r => kv ← f e; collect f r (<[kv.1 := kv.2]> acc)
  end.

(** [{k: f(v) for k, v in d.items()}] where [f] may raise. *)
Definition map_mapM {A B} (f : A -> option B) (m : gmap string A)
  : option (gmap string B) :=
  list_to_map <$> mapM (fun kv => pair kv.1 <$> f kv.2) (map_to_list m).

Definition complexity_entry (e : record) : option (string * Q) :=
  u ← username e;
  v ← get_num e "total_complexity_score";
  Some (u, v).

Definition calculate_complexity_component (engineer_data : list record)
  : option (gmap string Q) :=
  complexity_scores ← collect complexity_entry engineer_data ∅;
  let values := (map_to_list complexity_scores).*2 in
  let min_complexity := py_min values in
  let max_complexity := py_max values in
  map_mapM (fun score => normalize_to_100 score min_complexity max_complexity)
    complexity_scores.

(** The five candidate components of one engineer, in the order of the
    source list [components]. *)
Definition other_components (min_freq max_freq min_review max_review : Q)
    (eng : record) : option (list Q) :=
  ai_analysis ← get_dict eng "ai_analysis";
  code_quality ← dget_dict ai_analysis "code_quality";
  review_quality ← dget_dict ai_analysis "review_quality";
  qs ← dget_num code_quality "quality_score";
  th ← dget_num review_quality "thoroughness_score";
  hp ← dget_num review_quality "helpfulness_score";
  let code_score := qs * 10 in
  let review_score := ((th + hp) / 2) * 10 in
  cf ← get_num eng "commit_frequency";
  commit_freq_norm ← normalize_to_100 cf min_freq max_freq;
  pr_merge_rate ← get_num eng "pr_merge_rate";
  rp ← get_num eng "review_participation";
  review_participation_norm ← normalize_to_100 rp min_review max_review;
  Some [code_score; review_score; commit_freq_norm; pr_merge_rate;
        review_participation_norm].

(** The loop body: mean of the strictly positive components, 0 if none. *)
Definition other_score_of (components : list Q) : Q :=
  let non_zero_components := List.filter (fun c => Qltb 0 c) components in
  let other_score :=
    match non_zero_components with
    | [] => 0
    | _ => qsum non_zero_components / inject_Z (Z.of_nat (length non_zero_components))
    end in
  py_round other_score 2.

Definition other_entry (min_freq max_freq min_review max_review : Q)
    (eng : record) : option (string * Q) :=
  u ← username eng;
  cs ← other_components min_freq max_freq min_review max_review eng;
  Some (u, other_score_of cs).

Definition calculate_other_component (engineer_data : list record)
  : option (gmap string Q) :=
  commit_frequencies ← mapM (fun eng => get_num eng "commit_frequency") engineer_data;
  review_participations ← mapM (fun eng => get_num eng "review_participation") engineer_data;
  collect (other_entry (py_min commit_frequencies) (py_max commit_frequencies)
             (py_min review_participations) (py_max review_participations))
    engineer_data ∅.

Record scores := mk_scores {
  complexity_component : Q;
  other_component : Q;
  composite_score : Q
}.

Definition complexity_weight : Q := 1 # 2.
Definition other_weight : Q := 1 # 2.

Definition composite_of (complexity_comp other_comp : Q) : scores :=
  mk_scores complexity_comp other_comp
    (py_round (complexity_comp * complexity_weight + other_comp * other_weight) 2).

(** [for username in complexity_scores.keys(): ...]. *)
Definition composite_map (complexity_scores other_scores : gmap string Q)
  : gmap string scores :=
  map_imap (fun u c => Some (composite_of c (default 0 (other_scores !! u))))
    complexity_scores.

Definition calculate_composite_scores (engineer_data : list record)
  : option (gmap string scores) :=
  complexity_scores ← calculate_complexity_component engineer_data;
  other_scores ← calculate_other_component engineer_data;
  Some (composite_map complexity_scores other_scores).

(** [composite_scores.get(username, {... 0 ...})]. *)
Definition zero_scores : scores := mk_scores 0 0 0.

Definition set_scores (s : scores) (eng : record) : record :=
  <["composite_score" := PNum (composite_score s)]>
  (<["other_component" := PNum (other_component s)]>
   (<["complexity_component" := PNum (complexity_component s)]> eng)).

(** The sort key [x['composite_score']]; the field was set to a number by
    [set_scores] just before the sort. *)
Definition sort_key (eng : record) : Q :=
  match eng !! "composite_score" with Some (PNum q) => q | _ => 0 end.

(** [sorted(..., key=key, reverse=True)]: Python's sort is stable, also
    with [reverse=True].  [insert_desc_by key x l] puts [x], which precedes
    every element of [l] in the input, before the first element whose key
    is not greater than its own. *)
Fixpoint insert_desc_by {A} (key : A -> Q) (x : A) (l : list A) : list A :=
  match l with
  | [] => [x]
  | y :: r => if Qle_bool (key y) (key x) then x :: y :: r
              else y :: insert_desc_by key x r
  end.

Definition sorted_desc_by {A} (key : A -> Q) (l : list A) : list A :=
  fold_right (insert_desc_by key) [] l.

Definition sorted_desc (l : list record) : list record := sorted_desc_by sort_key l.

Definition top_label : string := "🥇 Top Performer".
Definition high_label : string := "⭐ High Performer".
Definition above_label : string := "✓ Above Average".
Definition developing_label : string := "→ Developing".

Definition get_rank_label (rank total : nat) : string :=
  if Nat.eqb rank 1 then top_label
  else if Qle_bool (inject_Z (Z.of_nat rank) / inject_Z (Z.of_nat total)) (10 # 100)
  then high_label
  else if Qle_bool (inject_Z (Z.of_nat rank) / inject_Z (Z.of_nat total)) (50 # 100)
  then above_label
  else developing_label.

Definition percentile_of (i total : nat) : Q :=
  py_round ((1 - inject_Z (Z.of_nat i - 1) / inject_Z (Z.of_nat total)) * 100) 1.

Definition set_rank (i total : nat) (eng : record) : record :=
  <["rank_label" := PStr (get_rank_label i total)]>
  (<["percentile" := PNum (percentile_of i total)]>
   (<["rank" := PNum (inject_Z (Z.of_nat i))]> eng)).

Definition add_scores (composite_scores : gmap string scores) (eng : record)
  : option record :=
  u ← username eng;
  Some (set_scores (default zero_scores (composite_scores !! u)) eng).

Definition rank_engineers (engineer_data : list record) : option (list record) :=
  match engineer_data with
  | [] => Some []
  | _ =>
    composite_scores ← calculate_composite_scores engineer_data;
    scored ← mapM (add_scores composite_scores) engineer_data;
    let ranked_engineers := sorted_desc scored in
    let total_engineers := length ranked_engineers in
    Some (imap (fun i eng => set_rank (S i) total_engineers eng) ranked_engineers)
  end.

End Ranker.

(* ================================================================= *)
(** ** Strings: [str.lower] and [str.replace(c, '')] *)

Definition ascii_lower (c : Ascii.ascii) : Ascii.ascii :=
  let n := Ascii.nat_of_ascii c in
  if (65 <=? n) && (n <=? 90) then Ascii.ascii_of_nat (n + 32) else c.

(** [s.lower()] on ASCII text (other characters are left unchanged). *)
Fixpoint py_lower (s : string) : string :=
  match s with
  | EmptyString => EmptyString
  | String c r => String (ascii_lower c) (py_lower r)
  end.

(** [s.replace(c, '')]. *)
Fixpoint remove_char (c : Ascii.ascii) (s : string) : string :=
  match s with
  | EmptyString => EmptyString
  | String d r => if Ascii.eqb c d then remove_char c r else String d (remove_char c r)
  end.

(** Truthiness of a Python string. *)
Definition str_truthy (s : string) : bool := negb (String.eqb s EmptyString).

(* ================================================================= *)
(** ** [difflib.SequenceMatcher(None, a, b).ratio()]

    Library code used by the fuzzy pass.  [find_longest_match] scans [i]
    upwards and, for each [i], [j] upwards, and keeps the first strictly
    longer block ending at [(i, j)]; with no junk function the junk
    extensions are no-ops.  The model is for [b] shorter than 200
    characters, where [autojunk] does not prune popular characters. *)

Module Difflib.

Fixpoint run_len (a b : list Ascii.ascii) (alo blo i j fuel : nat) : nat :=
  match fuel with
  | O => O
  | S fuel' =>
    if (alo <=? i) && (blo <=? j) then
      match nth_error a i, nth_error b j with
      | Some x, Some y =>
        if Ascii.eqb x y then
          match i, j with
          | S i', S j' => S (run_len a b alo blo i' j' fuel')
          | _, _ => 1
          end
        else O
      | _, _ => O
      end
    else O
  end.

Definition find_longest_match (a b : list Ascii.ascii) (alo ahi blo bhi : nat)
  : nat * nat * nat :=
  fold_left
    (fun best i =>
       fold_left
         (fun best' j =>
            let '(bi, bj, bk) := best' in
            let k := run_len a b alo blo i j (S (length a)) in
            if bk <? k then (i + 1 - k, j + 1 - k, k) else best')
         (seq blo (bhi - blo)) best)
    (seq alo (ahi - alo)) (alo, blo, 0).

(** Sum of the sizes of [get_matching_blocks()]. *)
Fixpoint matched_chars (a b : list Ascii.ascii) (alo ahi blo bhi fuel : nat) : nat :=
  match fuel with
  | O => O
  | S fuel' =>
    let '(i, j, k) := find_longest_match a b alo ahi blo bhi in
    if k =? 0 then O
    else k + matched_chars a b alo i blo j fuel'
           + matched_chars a b (i + k) ahi (j + k) bhi fuel'
  end.

Definition ratio (sa sb : string) : Q :=
  let a := String.list_ascii_of_string sa in
  let b := String.list_ascii_of_string sb in
  let m := matched_chars a b 0 (length a) 0 (length b) (S (length a)) in
  let t := (length a + length b)%nat in
  if t =? 0 then 1%Q else (2 * inject_Z (Z.of_nat m) / inject_Z (Z.of_nat t))%Q.

End Difflib.

(* ================================================================= *)
(** ** DataCombiner ([src/src/data_processor.py]) *)

Module Combiner.

Record match_state := mk_state {
  matched : list (string * string);   (** (github_user, ticket_user) *)
  github_only : list string;
  ticket_only : list string
}.

(** [s.discard(x)]. *)
Definition discard (x : string) (s : list string) : list string :=
  List.filter (fun y => negb (String.eqb y x)) s.

Definition pair_up (st : match_state) (github_user ticket_user : string) : match_state :=
  mk_state (matched st ++ [(github_user, ticket_user)])
    (discard github_user (github_only st)) (discard ticket_user (ticket_only st)).

Definition norm_ticket (t : string) : string := remove_char " "%char (py_lower t).
Definition norm_github (g : string) : string :=
  remove_char "_"%char (remove_char "-"%char (py_lower g)).

Section MatchUsers.

(** [SequenceMatcher(None, a, b).ratio()]: any function. *)
Variable ratio : string -> string -> Q.
(** [self.team_member_map]: ticket name to GitHub username. *)
Variable team_member_map : gmap string string.

(** Exact pass, one ticket user: the first remaining GitHub user equal up
    to case, then [break]. *)
Definition exact_step (st : match_state) (ticket_user : string) : match_state :=
  match List.find (fun g => String.eqb (py_lower ticket_user) (py_lower g)) (github_only st) with
  | Some github_user => pair_up st github_user ticket_user
  | None => st
  end.

Definition manual_step (st : match_state) (ticket_user : string) : match_state :=
  match team_member_map !! ticket_user with
  | Some github_user =>
    if existsb (String.eqb github_user) (github_only st)
    then pair_up st github_user ticket_user else st
  | None => st
  end.

(** The scan for the best candidate: [best_ratio] starts at the threshold
    [0.7] and is replaced only by a strictly greater ratio. *)
Definition best_candidate (ticket_user : string) (candidates : list string)
  : option string * Q :=
  fold_left
    (fun '(best_match, best_ratio) github_user =>
       let r := ratio (norm_ticket ticket_user) (norm_github github_user) in
       if Qltb best_ratio r then (Some github_user, r) else (best_match, best_ratio))
    candidates (None, 7 # 10)%Q.

(** [if best_match:] tests the truthiness of the candidate string. *)
Definition fuzzy_step (st : match_state) (ticket_user : string) : match_state :=
  match (best_candidate ticket_user (github_only st)).1 with
  | Some best_match =>
    if str_truthy best_match then pair_up st best_match ticket_user else st
  | None => st
  end.

(** Each pass iterates over [list(ticket_only)] taken when the pass starts. *)
Definition run_pass (step : match_state -> string -> match_state)
    (st : match_state) : match_state :=
  fold_left step (ticket_only st) st.

Definition match_users (github_users ticket_users : list string) : match_state :=
  run_pass fuzzy_step (run_pass manual_step
    (run_pass exact_step (mk_state [] github_users ticket_users))).

End MatchUsers.

(** [d.get(k, default)]. *)
Definition gget (m : record) (k : string) (d : pyval) : pyval := default d (m !! k).

Definition py_str_item (v : pyval) : option string :=
  match v with PStr s => Some s | _ => None end.

(** [sep.join(x)]: the items of a list or set, the characters of a
    string or the keys of a dict; a non-string item raises [TypeError]. *)
Definition py_join (sep : string) (v : pyval) : option string :=
  match v with
  | PList xs => String.concat sep <$> mapM py_str_item xs
  | PStr s => Some (String.concat sep
                      (map (fun c => String c EmptyString) (String.list_ascii_of_string s)))
  | PDict kvs => Some (String.concat sep kvs.*1)
  | _ => None
  end.

Section Merge.

(** Python's [str()] builtin. *)
Variable py_str : pyval -> string.

(** The dict literal [combined = {...}], with the joined [active_repos]. *)
Definition combined_fields (username : string) (github_metrics ticket_metrics : record)
    (active_repos data_source : string) : list (string * pyval) := [
    ("github_username", PStr username);
    ("display_name", gget github_metrics "display_name" (PStr username));
    ("email", gget github_metrics "email" (PStr EmptyString));
    ("total_commits", gget github_metrics "total_commits" (PNum 0));
    ("commit_frequency", gget github_metrics "commit_frequency" (PNum 0));
    ("lines_added", gget github_metrics "lines_added" (PNum 0));
    ("lines_deleted", gget github_metrics "lines_deleted" (PNum 0));
    ("lines_changed", gget github_metrics "lines_changed" (PNum 0));
    ("prs_created", gget github_metrics "prs_created" (PNum 0));
    ("prs_merged", gget github_metrics "prs_merged" (PNum 0));
    ("pr_merge_rate", gget github_metrics "pr_merge_rate" (PNum 0));
    ("avg_pr_size", gget github_metrics "avg_pr_size" (PNum 0));
    ("issues_closed", gget github_metrics "issues_closed" (PNum 0));
    ("reviews_given", gget github_metrics "reviews_given" (PNum 0));
    ("reviews_received", gget github_metrics "reviews_received" (PNum 0));
    ("review_participation", gget github_metrics "review_participation" (PNum 0));
    ("avg_review_time_hours", gget github_metrics "avg_review_time_hours" (PNum 0));
    ("active_repos", PStr active_repos);
    ("total_tickets", gget ticket_metrics "total_tickets" (PNum 0));
    ("tickets_open", gget ticket_metrics "tickets_open" (PNum 0));
    ("tickets_closed", gget ticket_metrics "tickets_closed" (PNum 0));
    ("tickets_high_priority", gget ticket_metrics "tickets_high_priority" (PNum 0));
    ("tickets_medium_priority", gget ticket_metrics "tickets_medium_priority" (PNum 0));
    ("tickets_low_priority", gget ticket_metrics "tickets_low_priority" (PNum 0));
    ("avg_resolution_time_hours", gget ticket_metrics "avg_resolution_time_hours" (PNum 0));
    ("avg_first_response_time_hours",
       gget ticket_metrics "avg_first_response_time_hours" (PNum 0));
    ("tickets_with_github_issue", gget ticket_metrics "tickets_with_github_issue" (PNum 0));
    ("ticket_types", PStr (py_str (gget ticket_metrics "ticket_types" (PDict []))));
    ("data_sources", PStr data_source);
    ("last_active", gget github_metrics "last_active" (PStr EmptyString))
  ].

Definition merge_user_metrics (username : string) (github_metrics ticket_metrics : record)
    (data_source : string) : option record :=
  active_repos ← py_join ", " (gget github_metrics "active_repos" (PList []));
  Some (list_to_map (combined_fields username github_metrics ticket_metrics
                       active_repos data_source)).

Variable ratio : string -> string -> Q.
Variable team_member_map : gmap string string.

(** [merge_datasets]; [github_keys] and [ticket_keys] are the iteration
    orders of [set(github_data.keys())] and [set(ticket_data.keys())]. *)
Definition merge_datasets (github_data ticket_data : gmap string record)
    (github_keys ticket_keys : list string) : option (list record) :=
  let matches := match_users ratio team_member_map github_keys ticket_keys in
  both ← mapM (fun '(github_user, ticket_user) =>
                 merge_user_metrics github_user (default ∅ (github_data !! github_user))
                   (default ∅ (ticket_data !! ticket_user)) "GitHub+Sheets")
               (matched matches);
  github_side ← mapM (fun github_user =>
                 merge_user_metrics github_user (default ∅ (github_data !! github_user))
                   ∅ "GitHub Only")
               (github_only matches);
  ticket_side ← mapM (fun ticket_user =>
                 merge_user_metrics ticket_user ∅
                   (default ∅ (ticket_data !! ticket_user)) "Sheets Only")
               (ticket_only matches);
  Some (both ++ github_side ++ ticket_side).

End Merge.

(** The fields [_merge_user_metrics] reads from each side with a
    numeric default 0 or a string default [''], as in the literal. *)
Definition github_num_fields : list string :=
  ["total_commits"; "commit_frequency"; "lines_added"; "lines_deleted"; "lines_changed";
   "prs_created"; "prs_merged"; "pr_merge_rate"; "avg_pr_size"; "issues_closed";
   "reviews_given"; "reviews_received"; "review_participation"; "avg_review_time_hours"].
Definition github_str_fields : list string := ["email"; "active_repos"; "last_active"].
Definition ticket_num_fields : list string :=
  ["total_tickets"; "tickets_open"; "tickets_closed"; "tickets_high_priority";
   "tickets_medium_priority"; "tickets_low_priority"; "avg_resolution_time_hours";
   "avg_first_response_time_hours"; "tickets_with_github_issue"].

End Combiner.

(* ================================================================= *)
(** ** MetricsCalculator.calculate_derived_metrics *)

Module Derived.

Local Open Scope Q_scope.

(** The loop body, updating [user_data] in the order of the source. *)
Definition derive_user (user_data : record) : option record :=
  total_commits ← get_num user_data "total_commits";
  total_tickets ← get_num user_data "total_tickets";
  let d1 := <["commits_per_ticket" :=
               if Qltb 0 total_tickets
               then PNum (py_round (total_commits / total_tickets) 1) else PNum 0]> user_data in
  prs_created ← get_num d1 "prs_created";
  reviews_given ← get_num d1 "reviews_given";
  let activity_score := total_commits * 1 + prs_created * 2 + reviews_given * (3 # 2)
                        + total_tickets * 1 in
  let d2 := <["activity_score" := PNum (py_round activity_score 1)]> d1 in
  tickets_closed ← get_num d2 "tickets_closed";
  Some (<["ticket_closure_rate" :=
            if Qltb 0 total_tickets
            then PNum (py_round ((tickets_closed / total_tickets) * 100) 1) else PNum 0]> d2).

End Derived.

(* ================================================================= *)
(** ** The records as shared, mutable objects

    A heap maps object identities to dicts; a Python list of dicts is a
    list of identities.  [calculate_derived_metrics] and [rank_engineers]
    assign fields of the dicts they are given and return (a permutation
    of) the same list; [merge_datasets] builds fresh dicts. *)

Module InPlace.

Abbreviation loc := positive.
Abbreviation heap := (gmap positive record).

(** [for i, d in enumerate(ds, start): <update d in place>]. *)
Fixpoint update_each_from (f : nat -> record -> option record) (i : nat)
    (h : heap) (ls : list loc) : option heap :=
  match ls with
  | [] => Some h
  | l :: r => d ← h !! l; d' ← f i d; update_each_from f (S i) (<[l := d']> h) r
  end.

Definition calculate_derived_metrics (h : heap) (combined_data : list loc)
  : option (heap * list loc) :=
  h' ← update_each_from (fun _ => Derived.derive_user) 0 h combined_data;
  Some (h', combined_data).

Definition rank_engineers (h : heap) (engineer_data : list loc) : option (heap * list loc) :=
  match engineer_data with
  | [] => Some (h, [])
  | _ =>
    data ← mapM (fun l => h !! l) engineer_data;
    composite_scores ← Ranker.calculate_composite_scores data;
    h1 ← update_each_from (fun _ => Ranker.add_scores composite_scores) 0 h engineer_data;
    let ranked_engineers :=
      Ranker.sorted_desc_by (fun l => default 0%Q (Ranker.sort_key <$> h1 !! l)) engineer_data in
    let total_engineers := length ranked_engineers in
    h2 ← update_each_from (fun i d => Some (Ranker.set_rank (S i) total_engineers d))
           0 h1 ranked_engineers;
    Some (h2, ranked_engineers)
  end.

(** Allocation of the new dicts built by [merge_datasets]. *)
Fixpoint alloc_all (h : heap) (rs : list record) : heap * list loc :=
  match rs with
  | [] => (h, [])
  | r :: rs' =>
    let l := fresh (dom h) in
    let '(h', ls) := alloc_all (<[l := r]> h) rs' in (h', l :: ls)
  end.

Definition merge_datasets (py_str : pyval -> string) (ratio : string -> string -> Q)
    (team_member_map : gmap string string) (h : heap)
    (github_data ticket_data : gmap string record) (github_keys ticket_keys : list string)
  : option (heap * list loc) :=
  recs ← Combiner.merge_datasets py_str ratio team_member_map github_data ticket_data
           github_keys ticket_keys;
  Some (alloc_all h recs).

End InPlace.

(* ================================================================= *)
(** ** Closed issues in [GitHubMetricsCollector.aggregate_by_team_member]
    ([src/src/github_fetcher.py]) and [GitHubClient._is_valid_issue]

    Only the issue loop is modelled: the commit and pull-request loops
    never touch [issues_closed], [issue_numbers] or the issues' part of
    [active_repos]. *)

Module Issues.

(** A timeline item: [source] and [subject] are absent (outer [None]),
    [null] ([Some None]) or a dict with the given keys. *)
Record timeline_item := mk_item {
  item_source : option (option (list string));
  item_subject : option (option (list string))
}.

Record issue := mk_issue {
  label_names : list (option string);   (** [label.get('name')] per label *)
  timeline_items : list timeline_item;
  closed_by_logins : list (option string);  (** [actor.login] per closedBy node *)
  number : Z;
  repo : string
}.

Definition links_pr (d : option (option (list string))) : bool :=
  match d with
  | Some (Some keys) => existsb (String.eqb "number") keys
  | _ => false
  end.

Definition is_valid_issue (i : issue) : bool :=
  let names := map (fun o => py_lower (default EmptyString o)) (label_names i) in
  if existsb (String.eqb "invalid") names || existsb (String.eqb "duplicate") names
  then false
  else existsb (fun item => links_pr (item_source item) || links_pr (item_subject item))
         (timeline_items i).

(** [closed_by_nodes[0]['actor']['login']] when truthy. *)
Definition closer (i : issue) : option string :=
  match closed_by_logins i with
  | Some login :: _ => if str_truthy login then Some login else None
  | _ => None
  end.

Record issue_metrics := mk_metrics {
  issues_closed : nat;
  issue_numbers : list Z;
  active_repos : list string
}.

(** The [defaultdict] factory's issue fields. *)
Definition fresh_metrics : issue_metrics := mk_metrics 0 [] [].

Definition set_add {A} `{EqDecision A} (x : A) (s : list A) : list A :=
  if bool_decide (x ∈ s) then s else s ++ [x].

Definition process_issue (user_metrics : gmap string issue_metrics) (i : issue)
  : gmap string issue_metrics :=
  if negb (is_valid_issue i) then user_metrics
  else
    match closer i with
    | Some username =>
      let m := default fresh_metrics (user_metrics !! username) in
      if bool_decide (number i ∈ issue_numbers m) then user_metrics
      else <[username := mk_metrics (S (issues_closed m)) (number i :: issue_numbers m)
                           (set_add (repo i) (active_repos m))]> user_metrics
    | None => user_metrics
    end.

Definition process_issues (issues : list issue) : gmap string issue_metrics :=
  fold_left process_issue issues ∅.

(** [result[username]['issues_closed']] (0 for a user with no entry). *)
Definition issues_closed_of (issues : list issue) (username : string) : nat :=
  issues_closed (default fresh_metrics (process_issues issues !! username)).

End Issues.

(* ================================================================= *)
(** ** [PerformanceRanker.get_rank_summary] *)

Module Summary.

Local Open Scope Q_scope.

Record rank_summary := mk_summary {
  total_engineers : nat;
  avg_composite_score : Q;
  min_composite_score : Q;
  max_composite_score : Q;
  top_performer : pyval;
  top_performer_score : Q;
  top_10_percent : nat;
  top_50_percent : nat;
  bottom_50_percent : nat
}.

(** [eng[k]] used as a number: [KeyError] or [TypeError] otherwise. *)
Definition field_num (e : record) (k : string) : option Q := e !! k ≫= py_num.

(** [Some None] is the empty dict returned for an empty ranking. *)
Definition get_rank_summary (ranked_engineers : list record) : option (option rank_summary) :=
  match ranked_engineers with
  | [] => Some None
  | top :: _ =>
    composite_scores ← mapM (fun eng => field_num eng "composite_score") ranked_engineers;
    top_performer ← top !! "github_username";
    top_performer_score ← field_num top "composite_score";
    percentiles ← mapM (fun e => field_num e "percentile") ranked_engineers;
    Some (Some (mk_summary
      (length ranked_engineers)
      (py_round (qsum composite_scores / inject_Z (Z.of_nat (length composite_scores))) 2)
      (py_min composite_scores)
      (py_max composite_scores)
      top_performer
      top_performer_score
      (length (List.filter (fun p => Qle_bool 90 p) percentiles))
      (length (List.filter (fun p => Qle_bool 50 p) percentiles))
      (length (List.filter (fun p => Qltb p 50) percentiles))))
  end.

End Summary.

(* ================================================================= *)
(** ** The ratio helpers of [MetricsCalculator] *)

Module Calc.

Local Open Scope Q_scope.

Definition calculate_commit_frequency {A} (commits : list A) (days : Z) : Q :=
  if (days <=? 0)%Z then 0
  else py_round (inject_Z (Z.of_nat (length commits)) / inject_Z days) 2.

Definition calculate_pr_merge_rate (prs_created prs_merged : Z) : Q :=
  if (prs_created =? 0)%Z then 0
  else py_round ((inject_Z prs_merged / inject_Z prs_created) * 100) 1.

Definition calculate_review_participation (reviews_given reviews_received : Z) : Q :=
  if (reviews_received =? 0)%Z then 0
  else py_round (inject_Z reviews_given / inject_Z reviews_received) 2.

End Calc.

(* ================================================================= *)
(** ** [GitHubClient._extract_complexity_score] *)

Module Complexity.

(** [v.get(k, d)]: dicts only, [AttributeError] otherwise. *)
Definition py_get (v : pyval) (k : string) (d : pyval) : option pyval :=
  match v with PDict kvs => Some (default d (dict_get kvs k)) | _ => None end.

(** [for x in v]: a list's items, a dict's keys, a string's characters;
    other values raise [TypeError]. *)
Definition py_iter (v : pyval) : option (list pyval) :=
  match v with
  | PList xs => Some xs
  | PDict kvs => Some (map PStr kvs.*1)
  | PStr s => Some (map (fun c => PStr (String c EmptyString)) (String.list_ascii_of_string s))
  | _ => None
  end.

(** [v.lower()]: strings only. *)
Definition py_lower_val (v : pyval) : option string :=
  match v with PStr s => Some (py_lower s) | _ => None end.

Fixpoint str_prefix (p s : string) : bool :=
  match p, s with
  | EmptyString, _ => true
  | String c p', String d s' => Ascii.eqb c d && str_prefix p' s'
  | String _ _, EmptyString => false
  end.

(** [sub in s] on strings. *)
Fixpoint str_contains (sub s : string) : bool :=
  str_prefix sub s || match s with EmptyString => false | String _ r => str_contains sub r end.

Section Extract.

(** Python's [float(x)]; [None] when it raises. *)
Variable py_float : pyval -> option Q.

(** The loop over [field_values]: [Some (Some q)] is [return q],
    [Some None] the end of the loop, [None] an exception. *)
Fixpoint scan_field_values (field_values : list pyval) : option (option Q) :=
  match field_values with
  | [] => Some None
  | field_value :: rest =>
    field ← py_get field_value "field" (PDict []);
    name ← py_get field "name" (PStr EmptyString);
    field_name ← py_lower_val name;
    if str_contains "complexity" field_name then
      match field_value with
      | PDict kvs =>
        match dict_get kvs "number" with
        | Some n => q ← py_float n; Some (Some q)
        | None =>
          match dict_get kvs "text" with
          | Some t =>
            (** [except (ValueError, TypeError): pass] *)
            match py_float t with
            | Some q => Some (Some q)
            | None => scan_field_values rest
            end
          | None => scan_field_values rest
          end
        end
      | _ => None
      end
    else scan_field_values rest
  end.

Fixpoint scan_project_items (project_items : list pyval) : option (option Q) :=
  match project_items with
  | [] => Some None
  | project_item :: rest =>
    fvs ← py_get project_item "fieldValues" (PDict []);
    nodes ← py_get fvs "nodes" (PList []);
    field_values ← py_iter nodes;
    r ← scan_field_values field_values;
    match r with
    | Some q => Some (Some q)
    | None => scan_project_items rest
    end
  end.

(** The body is wrapped in [try ... except Exception: return None]. *)
Definition extract_complexity_score (issue : pyval) : option Q :=
  match (pis ← py_get issue "projectItems" (PDict []);
         nodes ← py_get pis "nodes" (PList []);
         project_items ← py_iter nodes;
         scan_project_items project_items) with
  | Some (Some q) => Some q
  | _ => None
  end.

End Extract.

End Complexity.

(* ================================================================= *)
(** ** Pull requests in [GitHubMetricsCollector.aggregate_by_team_member]
    ([src/src/github_fetcher.py])

    The pull-request loop and the fields of [result[username]] computed
    from what it writes.  The loop reads and writes only the fields below
    and [active_repos], which is left out here (the commit and issue loops
    add to it too); the commit and issue loops never write the fields below,
    so every entry they create holds them at the [defaultdict] factory's
    values when the loop starts or ends. *)

Module PullRequests.

Local Open Scope Q_scope.

(** A review node.  [review_author_login] is [review['author']['login']]:
    [None] when [author] is absent, [null] or empty, or has no (or a
    [null]) [login]; all of these lead to the same [continue]. *)
Record review := mk_review {
  review_author_login : option string;
  review_createdAt : string
}.

(** A pull-request node as [get_pull_requests] returns it. *)
Record pull_request := mk_pr {
  number : Z;
  repo : string;
  createdAt : string;
  mergedAt : option string;        (** [pr.get('mergedAt')]: [None] if absent or [null] *)
  author_login : option string;    (** as [review_author_login] *)
  additions : Z;                   (** [pr.get('additions', 0)] *)
  deletions : Z;                   (** [pr.get('deletions', 0)] *)
  (** [pr.get('reviews', {}).get('nodes', [])]: [None] when [reviews]
      is [null] ([AttributeError]) or [nodes] is [null] ([TypeError] in the
      [for]); an item [None] is a [null] node ([AttributeError] on
      [review.get]). *)
  review_nodes : option (list (option review))
}.

(** [{'pr': ..., 'repo': ..., 'reviewed_at': ...}] *)
Record review_given := mk_given {
  given_pr : Z;
  given_repo : string;
  given_reviewed_at : string
}.

(** [{'pr': ..., 'repo': ..., 'reviewer': ..., 'reviewed_at': ...}] *)
Record review_received := mk_received {
  received_pr : Z;
  received_repo : string;
  received_reviewer : string;
  received_reviewed_at : string
}.

(** The fields of [user_metrics[username]] the pull-request loop writes. *)
Record pr_metrics := mk_pm {
  prs_created : nat;
  prs_merged : nat;
  pr_additions : Z;
  pr_deletions : Z;
  reviews_given : list review_given;
  reviews_received : list review_received;
  review_times : list Q
}.

(** The [defaultdict] factory's values for these fields. *)
Definition fresh_metrics : pr_metrics := mk_pm 0 0 0 0 [] [] [].

(** [user_metrics[u]]: the entry, created by the factory on first access. *)
Definition metrics_of (user_metrics : gmap string pr_metrics) (u : string) : pr_metrics :=
  default fresh_metrics (user_metrics !! u).

Definition update (u : string) (f : pr_metrics -> pr_metrics)
    (user_metrics : gmap string pr_metrics) : gmap string pr_metrics :=
  <[u := f (metrics_of user_metrics u)]> user_metrics.

(** [if x:] on an optional string. *)
Definition truthy (o : option string) : bool :=
  match o with Some s => str_truthy s | None => false end.

(** The updates for one pull request by its author: [prs_created],
    [prs_merged], [pr_additions], [pr_deletions]. *)
Definition count_pr (pr : pull_request) (m : pr_metrics) : pr_metrics :=
  mk_pm (S (prs_created m))
        (if truthy (mergedAt pr) then S (prs_merged m) else prs_merged m)
        (pr_additions m + additions pr)%Z
        (pr_deletions m + deletions pr)%Z
        (reviews_given m) (reviews_received m) (review_times m).

Definition add_given (g : review_given) (m : pr_metrics) : pr_metrics :=
  mk_pm (prs_created m) (prs_merged m) (pr_additions m) (pr_deletions m)
        (reviews_given m ++ [g]) (reviews_received m) (review_times m).

Definition add_received (r : review_received) (m : pr_metrics) : pr_metrics :=
  mk_pm (prs_created m) (prs_merged m) (pr_additions m) (pr_deletions m)
        (reviews_given m) (reviews_received m ++ [r]) (review_times m).

Definition add_review_time (t : Q) (m : pr_metrics) : pr_metrics :=
  mk_pm (prs_created m) (prs_merged m) (pr_additions m) (pr_deletions m)
        (reviews_given m) (reviews_received m) (review_times m ++ [t]).

Section Loop.

(** [utils.calculate_hours_between]: it catches its own errors (returning
    [0.0]), so it is total. *)
Variable calculate_hours_between : string -> string -> Q.

(** One iteration of [for review in reviews], for the pull request [pr]
    by [username].  The three updates are made in the source's order, each
    on the map the previous one left (the reviewer may be the author). *)
Definition process_review (pr : pull_request) (username : string)
    (user_metrics : gmap string pr_metrics) (node : option review)
    : option (gmap string pr_metrics) :=
  match node with
  | None => None
  | Some review =>
    match review_author_login review with
    | Some reviewer_login =>
      if str_truthy reviewer_login then
        let um1 := update reviewer_login
                     (add_given (mk_given (number pr) (repo pr) (review_createdAt review)))
                     user_metrics in
        let um2 := update username
                     (add_received (mk_received (number pr) (repo pr) reviewer_login
                                      (review_createdAt review)))
                     um1 in
        let review_time := calculate_hours_between (createdAt pr) (review_createdAt review) in
        Some (update reviewer_login (add_review_time review_time) um2)
      else Some user_metrics
    | None => Some user_metrics
    end
  end.

Fixpoint process_reviews (pr : pull_request) (username : string)
    (user_metrics : gmap string pr_metrics) (nodes : list (option review))
    : option (gmap string pr_metrics) :=
  match nodes with
  | [] => Some user_metrics
  | node :: rest =>
    um ← process_review pr username user_metrics node;
    process_reviews pr username um rest
  end.

(** One iteration of [for pr in prs]. *)
Definition process_pr (user_metrics : gmap string pr_metrics) (pr : pull_request)
    : option (gmap string pr_metrics) :=
  match author_login pr with
  | Some username =>
    if str_truthy username then
      let um := update username (count_pr pr) user_metrics in
      nodes ← review_nodes pr;
      process_reviews pr username um nodes
    else Some user_metrics
  | None => Some user_metrics
  end.

Fixpoint process_prs_from (user_metrics : gmap string pr_metrics) (prs : list pull_request)
    : option (gmap string pr_metrics) :=
  match prs with
  | [] => Some user_metrics
  | pr :: rest =>
    um ← process_pr user_metrics pr;
    process_prs_from um rest
  end.

Definition process_prs (prs : list pull_request) : option (gmap string pr_metrics) :=
  process_prs_from ∅ prs.

End Loop.

(** The fields of [result[username]] computed from these metrics. *)

Definition pr_merge_rate (m : pr_metrics) : Q :=
  if (0 <? prs_created m)%nat
  then py_round (inject_Z (Z.of_nat (prs_merged m)) / inject_Z (Z.of_nat (prs_created m)) * 100) 1
  else 0.

(** [round(x)] without digits: round half to even, to an [int]. *)
Definition avg_pr_size (m : pr_metrics) : Q :=
  if (0 <? prs_created m)%nat
  then inject_Z (round_half_even
         (inject_Z (pr_additions m + pr_deletions m) / inject_Z (Z.of_nat (prs_created m))))
  else 0.

Definition review_participation (m : pr_metrics) : Q :=
  let given := length (reviews_given m) in
  let received := length (reviews_received m) in
  if (0 <? received)%nat
  then py_round (inject_Z (Z.of_nat given) / inject_Z (Z.of_nat received)) 2
  else 0.

Definition avg_review_time_hours (m : pr_metrics) : Q :=
  match review_times m with
  | [] => 0
  | times => py_round (qsum times / inject_Z (Z.of_nat (length times))) 1
  end.

End PullRequests.

(* ================================================================= *)
(** ** Commits in [GitHubMetricsCollector.aggregate_by_team_member]
    ([src/src/github_fetcher.py])

    The commit loop and the [commit_frequency] of [result[username]].  The
    loop writes only the fields below and [active_repos], which is left out
    here (the other two loops add to it too); the pull-request and issue
    loops never write the fields below. *)

Module Commits.

Local Open Scope Q_scope.

(** [commit['author']['user']] when it is a dict: [user_login] is
    [user.get('login')] ([None] when absent or [null]); [user_name] and
    [user_email] are [None] when the key is absent and [Some None] when it
    is [null]. *)
Record commit_user := mk_user {
  user_login : option string;
  user_name : option (option string);
  user_email : option (option string)
}.

(** A commit node.  [author]: [None] when [author] is [null]
    ([AttributeError] on [author.get]); [Some None] when [author] is
    absent or has no (or a [null] or empty) [user].  [collect_all_metrics]
    sets [commit['repo']] on every commit, and [repo] only feeds
    [active_repos], so it is left out. *)
Record commit := mk_commit {
  author : option (option commit_user);
  committedDate : string;
  additions : Z;   (** [commit.get('additions', 0)] *)
  deletions : Z    (** [commit.get('deletions', 0)] *)
}.

(** The fields of [user_metrics[username]] the commit loop writes (but
    [active_repos]); [display_name] and [email] may be [None]. *)
Record commit_metrics := mk_cm {
  display_name : option string;
  email : option string;
  total_commits : nat;
  commit_dates : list string;
  commit_additions : Z;
  commit_deletions : Z
}.

(** The [defaultdict] factory's values for these fields. *)
Definition fresh_metrics : commit_metrics := mk_cm (Some EmptyString) (Some EmptyString) 0 [] 0 0.

Definition metrics_of (user_metrics : gmap string commit_metrics) (u : string) : commit_metrics :=
  default fresh_metrics (user_metrics !! u).

(** One iteration of [for commit in commits]. *)
Definition process_commit (user_metrics : gmap string commit_metrics) (c : commit)
    : option (gmap string commit_metrics) :=
  match author c with
  | None => None
  | Some None => Some user_metrics
  | Some (Some user) =>
    match user_login user with
    | Some username =>
      if str_truthy username then
        let m := metrics_of user_metrics username in
        Some (<[username := mk_cm
                 (default (Some username) (user_name user))
                 (default (Some EmptyString) (user_email user))
                 (S (total_commits m))
                 (commit_dates m ++ [committedDate c])
                 (commit_additions m + additions c)%Z
                 (commit_deletions m + deletions c)%Z]> user_metrics)
      else Some user_metrics
    | None => Some user_metrics
    end
  end.

Fixpoint process_commits_from (user_metrics : gmap string commit_metrics) (commits : list commit)
    : option (gmap string commit_metrics) :=
  match commits with
  | [] => Some user_metrics
  | c :: rest =>
    um ← process_commit user_metrics c;
    process_commits_from um rest
  end.

Definition process_commits (commits : list commit) : option (gmap string commit_metrics) :=
  process_commits_from ∅ commits.

(** [(end - start).days or 1], from the [days] of the difference. *)
Definition num_days (days : Z) : Z := if (days =? 0)%Z then 1%Z else days.

(** [round(total_commits / num_days, 2)] *)
Definition commit_frequency (days : Z) (m : commit_metrics) : Q :=
  py_round (inject_Z (Z.of_nat (total_commits m)) / inject_Z (num_days days)) 2.

End Commits.

(* ================================================================= *)
(** * Proofs *)

(** ** Rounding and Python's [min]/[max] *)

Module NumFacts.

Local Open Scope Q_scope.

Lemma round_half_even_near (y : Q) :
  y - (1 # 2) <= inject_Z (round_half_even y) <= y + (1 # 2).
Proof.
  unfold round_half_even.
  pose proof (Qfloor_le y) as H1. pose proof (Qlt_floor y) as H2.
  rewrite inject_Z_plus in H2.
  destruct (Qcompare_spec (y - inject_Z (Qfloor y)) (1 # 2)) as [E|E|E].
  - destruct (Z.even (Qfloor y)); [|rewrite inject_Z_plus];
      change (inject_Z 1) with 1 in *; split; lra.
  - split; lra.
  - rewrite inject_Z_plus. change (inject_Z 1) with 1 in *. split; lra.
Qed.

Lemma round_half_even_int_bounds (y : Q) (a b : Z) :
  inject_Z a <= y <= inject_Z b -> (a <= round_half_even y <= b)%Z.
Proof.
  intros [Ha Hb]. pose proof (round_half_even_near y) as [H1 H2].
  split.
  - destruct (Z_le_gt_dec a (round_half_even y)) as [|G]; [done|].
    assert (round_half_even y + 1 <= a)%Z as G' by lia.
    rewrite Zle_Qle, inject_Z_plus in G'. change (inject_Z 1) with 1 in G'. lra.
  - destruct (Z_le_gt_dec (round_half_even y) b) as [|G]; [done|].
    assert (b + 1 <= round_half_even y)%Z as G' by lia.
    rewrite Zle_Qle, inject_Z_plus in G'. change (inject_Z 1) with 1 in G'. lra.
Qed.

Lemma pow10_pos (n : nat) : (0 < 10 ^ Z.of_nat n)%Z.
Proof. apply Z.pow_pos_nonneg; lia. Qed.

(** Rounding keeps a value between two integers. *)
Lemma py_round_int_bounds (x : Q) (n : nat) (a b : Z) :
  inject_Z a <= x <= inject_Z b -> inject_Z a <= py_round x n <= inject_Z b.
Proof.
  intros [Ha Hb]. unfold py_round.
  set (P := (10 ^ Z.of_nat n)%Z). pose proof (pow10_pos n) as HP. fold P in HP.
  assert (HPq : 0 < inject_Z P) by (rewrite Zlt_Qlt in HP; exact HP).
  destruct (round_half_even_int_bounds (x * inject_Z P) (a * P) (b * P)) as [K1 K2].
  { rewrite !inject_Z_mult. split; apply Qmult_le_compat_r; lra. }
  rewrite !Qred_correct.
  rewrite Zle_Qle, inject_Z_mult in K1, K2.
  split.
  - apply Qle_shift_div_l; [exact HPq|exact K1].
  - apply Qle_shift_div_r; [exact HPq|exact K2].
Qed.

Lemma round_half_even_proper (x y : Q) : x == y -> round_half_even x = round_half_even y.
Proof.
  intros E. unfold round_half_even.
  assert (F : Qfloor x = Qfloor y).
  { apply Z.le_antisymm; apply Qfloor_resp_le; rewrite E; apply Qle_refl. }
  rewrite F. rewrite E. reflexivity.
Qed.

Lemma py_round_proper (x y : Q) (n : nat) : x == y -> py_round x n = py_round y n.
Proof.
  intros E. unfold py_round.
  rewrite (round_half_even_proper (x * inject_Z (10 ^ Z.of_nat n))
                                  (y * inject_Z (10 ^ Z.of_nat n))); [done|].
  rewrite E. reflexivity.
Qed.

(** [min]/[max] keep one of the elements. *)
Lemma fold_left_choose (s : Q -> Q -> Q) (P : Q -> Prop) (r : list Q) (m : Q) :
  (forall a b, s a b = a \/ s a b = b) -> P m -> Forall P r -> P (fold_left s r m).
Proof.
  intros Hs. revert m. induction r as [|y r IH]; intros m Hm Hr; simpl; [done|].
  inversion Hr; subst. apply IH; [|done].
  destruct (Hs m y) as [->| ->]; done.
Qed.

Lemma py_min_prop (P : Q -> Prop) (xs : list Q) :
  xs <> [] -> Forall P xs -> P (py_min xs).
Proof.
  intros Hne HF. destruct xs as [|x r]; [done|]. inversion HF; subst.
  unfold py_min. apply fold_left_choose; [|done|done].
  intros a b. destruct (Qltb b a); auto.
Qed.

Lemma py_max_prop (P : Q -> Prop) (xs : list Q) :
  xs <> [] -> Forall P xs -> P (py_max xs).
Proof.
  intros Hne HF. destruct xs as [|x r]; [done|]. inversion HF; subst.
  unfold py_max. apply fold_left_choose; [|done|done].
  intros a b. destruct (Qltb a b); auto.
Qed.

End NumFacts.

(** ** Dict-building loops *)

Module MapFacts.

Import Ranker.

Section Collect.

Context {A : Type} (f : record -> option (string * A)).

Lemma collect_app (l1 l2 : list record) (acc : gmap string A) :
  collect f (l1 ++ l2) acc = collect f l1 acc ≫= collect f l2.
Proof.
  revert acc. induction l1 as [|e l1 IH]; intros acc; simpl; [done|].
  destruct (f e) as [[k w]|]; simpl; [apply IH|done].
Qed.

Lemma collect_is_Some (l : list record) (acc : gmap string A) :
  (forall e, e ∈ l -> is_Some (f e)) -> is_Some (collect f l acc).
Proof.
  revert acc. induction l as [|e l IH]; intros acc Hl; simpl; [by eexists|].
  destruct (Hl e) as [[k w] Hf]; [left|]. rewrite Hf. simpl.
  apply IH. intros e' He'. apply Hl. by right.
Qed.

Lemma collect_Some_inv (l : list record) (acc m : gmap string A) (e : record) :
  collect f l acc = Some m -> e ∈ l -> is_Some (f e).
Proof.
  revert acc. induction l as [|e0 l IH]; intros acc H He; [by inversion He|].
  simpl in H. destruct (f e0) as [[k w]|] eqn:Hf; simpl in H; [|discriminate].
  apply elem_of_cons in He as [->|He]; [by rewrite Hf|]. eauto.
Qed.

(** A key no element produces keeps its value from [acc]. *)
Lemma collect_lookup_none (l : list record) (acc m : gmap string A) (u : string) :
  collect f l acc = Some m ->
  (forall e kv, e ∈ l -> f e = Some kv -> kv.1 <> u) -> m !! u = acc !! u.
Proof.
  revert acc. induction l as [|e l IH]; intros acc H Hn; simpl in H.
  - by injection H as <-.
  - destruct (f e) as [[k w]|] eqn:Hf; simpl in H; [|discriminate].
    rewrite (IH _ H).
    + apply lookup_insert_ne. apply (Hn e (k, w)); [left|done].
    + intros e' kv He' Hf'. apply (Hn e' kv); [by right|done].
Qed.

(** Otherwise the last element producing the key decides its value. *)
Lemma collect_lookup_last (l1 l2 : list record) (e : record) (acc m : gmap string A)
    (u : string) (v : A) :
  collect f (l1 ++ e :: l2) acc = Some m -> f e = Some (u, v) ->
  (forall e' kv, e' ∈ l2 -> f e' = Some kv -> kv.1 <> u) -> m !! u = Some v.
Proof.
  intros H Hf Hn. rewrite collect_app in H.
  destruct (collect f l1 acc) as [m1|] eqn:H1; simpl in H; [|discriminate].
  rewrite Hf in H. simpl in H.
  rewrite (collect_lookup_none l2 _ m u H Hn). apply lookup_insert_eq.
Qed.

Lemma collect_lookup (l : list record) (acc m : gmap string A) (u : string) (v : A) :
  collect f l acc = Some m -> m !! u = Some v ->
  acc !! u = Some v \/ exists e, e ∈ l /\ f e = Some (u, v).
Proof.
  revert acc. induction l as [|e l IH]; intros acc H Hu; simpl in H.
  - injection H as <-. auto.
  - destruct (f e) as [[k w]|] eqn:Hf; simpl in H; [|discriminate].
    destruct (IH _ H Hu) as [Hacc|(e' & He' & Hf')].
    + destruct (decide (k = u)) as [<-|Hne].
      * rewrite lookup_insert_eq in Hacc. injection Hacc as <-.
        right. exists e. split; [left|done].
      * rewrite lookup_insert_ne in Hacc by done. by left.
    + right. exists e'. split; [by right|done].
Qed.

End Collect.

Section MapM.

Context {A B : Type} (g : A -> option B).

Lemma map_mapM_lookup (m : gmap string A) (m' : gmap string B) (u : string) (v : B) :
  map_mapM g m = Some m' -> m' !! u = Some v -> exists a, m !! u = Some a /\ g a = Some v.
Proof.
  unfold map_mapM. intros H Hu.
  destruct (mapM _ (map_to_list m)) as [k|] eqn:Hk; simpl in H; [|discriminate].
  injection H as <-. apply mapM_Some_1 in Hk.
  apply elem_of_list_to_map_2 in Hu.
  apply list_elem_of_lookup in Hu as [i Hi].
  destruct (Forall2_lookup_r _ _ _ _ _ Hk Hi) as ([k0 a] & Hi0 & Hg).
  simpl in Hg. destruct (g a) as [b|] eqn:Hga; simpl in Hg; [|discriminate].
  injection Hg as -> ->. exists a. split; [|done].
  apply elem_of_map_to_list. apply list_elem_of_lookup. eauto.
Qed.

Lemma map_mapM_lookup_Some (m : gmap string A) (m' : gmap string B) (u : string) (a : A) :
  map_mapM g m = Some m' -> m !! u = Some a -> exists v, m' !! u = Some v /\ g a = Some v.
Proof.
  unfold map_mapM. intros H Hu.
  destruct (mapM _ (map_to_list m)) as [k|] eqn:Hk; simpl in H; [|discriminate].
  injection H as <-. apply mapM_Some_1 in Hk.
  apply elem_of_map_to_list, list_elem_of_lookup in Hu as [i Hi].
  destruct (Forall2_lookup_l _ _ _ _ _ Hk Hi) as ([k0 b] & Hi0 & Hg).
  simpl in Hg. destruct (g a) as [b'|] eqn:Hga; simpl in Hg; [|discriminate].
  injection Hg as -> ->. exists b. split; [|done].
  apply elem_of_list_to_map_1.
  - assert (Hfst : k.*1 = (map_to_list m).*1).
    { clear Hi Hi0. induction Hk as [|[x1 y1] [x2 y2] l1 l2 Hxy _ IH]; [done|].
      simpl in *. destruct (g y1); simpl in Hxy; [|discriminate].
      injection Hxy as E _. simpl. f_equal; done. }
    rewrite Hfst. apply NoDup_fst_map_to_list.
  - apply list_elem_of_lookup. eauto.
Qed.

Lemma map_mapM_is_Some (m : gmap string A) :
  (forall u a, m !! u = Some a -> is_Some (g a)) -> is_Some (map_mapM g m).
Proof.
  intros Hg. unfold map_mapM.
  destruct (mapM_is_Some_2 (fun kv : string * A => pair kv.1 <$> g kv.2) (map_to_list m))
    as [k Hk].
  - apply Forall_forall. intros [u a] Hin. simpl.
    apply elem_of_map_to_list in Hin. rename Hin into Hin0.
    destruct (Hg u a Hin0) as [b ->]. by eexists.
  - rewrite Hk. by eexists.
Qed.

End MapM.

End MapFacts.

(** ** Min-max normalization *)

Module NormalizeFacts.

Import Ranker.
Local Open Scope Q_scope.

Lemma normalize_equal (v mn mx : Q) : mx == mn -> normalize_to_100 v mn mx = Some 50.
Proof. intros E. unfold normalize_to_100. by rewrite (proj2 (Qeq_bool_iff _ _) E). Qed.

(** [normalize_to_100] never raises: it divides only when [max_val] and
    [min_val] differ. *)
Lemma normalize_is_Some (v mn mx : Q) : is_Some (normalize_to_100 v mn mx).
Proof.
  unfold normalize_to_100.
  destruct (Qeq_bool mx mn) eqn:E1; [by eexists|].
  unfold py_div. destruct (Qeq_bool (mx - mn) 0) eqn:E2; [|simpl; by eexists].
  apply Qeq_bool_iff in E2. apply Qeq_bool_neq in E1. exfalso. apply E1. lra.
Qed.

Lemma normalize_bounds (v mn mx : Q) :
  mn < mx -> mn <= v <= mx ->
  exists r, normalize_to_100 v mn mx = Some r /\ 0 <= r <= 100.
Proof.
  intros Hlt [H1 H2]. unfold normalize_to_100.
  assert (E1 : Qeq_bool mx mn = false).
  { destruct (Qeq_bool mx mn) eqn:E; [|done]. apply Qeq_bool_iff in E. lra. }
  rewrite E1. unfold py_div.
  assert (E2 : Qeq_bool (mx - mn) 0 = false).
  { destruct (Qeq_bool (mx - mn) 0) eqn:E; [|done]. apply Qeq_bool_iff in E. lra. }
  rewrite E2. simpl. eexists. split; [reflexivity|].
  apply (NumFacts.py_round_int_bounds _ 2 0 100).
  assert (0 <= (v - mn) / (mx - mn) <= 1).
  { split.
    - apply Qle_shift_div_l; lra.
    - apply Qle_shift_div_r; lra. }
  change (inject_Z 0) with 0. change (inject_Z 100) with 100.
  split; nra.
Qed.

End NormalizeFacts.

(** ** Identity matching: the partition invariant *)

Module MatchFacts.

Import Combiner.

Lemma elem_of_discard (x y : string) (l : list string) :
  y ∈ discard x l <-> y ∈ l /\ y <> x.
Proof.
  unfold discard. rewrite list_elem_of_In, filter_In, <- list_elem_of_In.
  rewrite negb_true_iff. split.
  - intros [H1 H2]. split; [done|]. intros ->. by rewrite String.eqb_refl in H2.
  - intros [H1 H2]. split; [done|]. by apply String.eqb_neq.
Qed.

Lemma discard_perm (x : string) (l : list string) :
  NoDup l -> x ∈ l -> l ≡ₚ x :: discard x l.
Proof.
  induction l as [|a l IH]; intros Hnd Hx; [by apply not_elem_of_nil in Hx|].
  apply NoDup_cons in Hnd as [Ha Hnd]. unfold discard. simpl.
  destruct (String.eqb a x) eqn:E; simpl.
  - apply String.eqb_eq in E as ->. f_equiv.
    clear IH Hx. induction l as [|b l IHl]; [done|]. simpl.
    apply not_elem_of_cons in Ha as [Hb Ha]. apply NoDup_cons in Hnd as [_ Hnd].
    destruct (String.eqb b x) eqn:E'.
    + apply String.eqb_eq in E'. congruence.
    + simpl. constructor. by apply IHl.
  - apply String.eqb_neq in E. apply elem_of_cons in Hx as [->|Hx]; [done|].
    rewrite (IH Hnd Hx) at 1. apply Permutation_swap.
Qed.

Section Partition.

Variables (github_users ticket_users : list string).
Hypothesis nodup_github : NoDup github_users.
Hypothesis nodup_ticket : NoDup ticket_users.

(** Every identity is in exactly one place: a pair or the "only" list. *)
Definition partition_inv (st : match_state) : Prop :=
  (matched st).*1 ++ github_only st ≡ₚ github_users /\
  (matched st).*2 ++ ticket_only st ≡ₚ ticket_users.

Lemma inv_nodup_github (st : match_state) :
  partition_inv st -> NoDup (github_only st).
Proof.
  intros [H _].
  assert (Hnd : NoDup (_ ++ github_only st)) by (rewrite H; exact nodup_github).
  apply NoDup_app in Hnd. tauto.
Qed.

Lemma inv_nodup_ticket (st : match_state) :
  partition_inv st -> NoDup (ticket_only st).
Proof.
  intros [_ H].
  assert (Hnd : NoDup (_ ++ ticket_only st)) by (rewrite H; exact nodup_ticket).
  apply NoDup_app in Hnd. tauto.
Qed.

Lemma pair_up_inv (st : match_state) (g t : string) :
  partition_inv st -> g ∈ github_only st -> t ∈ ticket_only st ->
  partition_inv (pair_up st g t).
Proof.
  intros Hinv Hg Ht.
  pose proof (inv_nodup_github st Hinv) as Hng.
  pose proof (inv_nodup_ticket st Hinv) as Hnt.
  destruct Hinv as [H1 H2]. unfold pair_up, partition_inv. simpl.
  rewrite !fmap_app. simpl. split.
  - rewrite <- app_assoc. simpl. rewrite <- (discard_perm g _ Hng Hg). exact H1.
  - rewrite <- app_assoc. simpl. rewrite <- (discard_perm t _ Hnt Ht). exact H2.
Qed.

(** A matching step either leaves the state alone or pairs the ticket
    user with a GitHub user still unmatched. *)
Definition step_ok (step : match_state -> string -> match_state) : Prop :=
  forall st t, step st t = st \/
               exists g, g ∈ github_only st /\ step st t = pair_up st g t.

Lemma fold_step_inv (step : match_state -> string -> match_state) :
  step_ok step ->
  forall (rest : list string) (st : match_state),
    partition_inv st -> NoDup rest -> (forall t, t ∈ rest -> t ∈ ticket_only st) ->
    partition_inv (fold_left step rest st).
Proof.
  intros Hstep rest. induction rest as [|t rest IH]; intros st Hinv Hnd Hin; simpl; [done|].
  apply NoDup_cons in Hnd as [Ht Hnd].
  destruct (Hstep st t) as [E|(g & Hg & E)]; rewrite E.
  - apply IH; [done|done|]. intros t' Ht'. apply Hin. by right.
  - apply IH; [apply pair_up_inv; [done|done|apply Hin; by left]|done|].
    intros t' Ht'. unfold pair_up. simpl. apply elem_of_discard. split.
    + apply Hin. by right.
    + intros ->. done.
Qed.

Lemma run_pass_inv (step : match_state -> string -> match_state) (st : match_state) :
  step_ok step -> partition_inv st -> partition_inv (run_pass step st).
Proof.
  intros Hstep Hinv. unfold run_pass. apply fold_step_inv; [done|done| |done].
  by apply inv_nodup_ticket.
Qed.

End Partition.

Lemma exact_step_ok : step_ok exact_step.
Proof.
  intros st t. unfold exact_step.
  destruct (List.find _ (github_only st)) as [g|] eqn:E; [|by left].
  right. exists g. split; [|done].
  apply List.find_some in E as [E _]. by apply list_elem_of_In.
Qed.

Lemma manual_step_ok (team_member_map : gmap string string) :
  step_ok (manual_step team_member_map).
Proof.
  intros st t. unfold manual_step.
  destruct (team_member_map !! t) as [g|]; [|by left].
  destruct (existsb (String.eqb g) (github_only st)) eqn:E; [|by left].
  right. exists g. split; [|done].
  apply existsb_exists in E as (g' & Hin & Hg). apply String.eqb_eq in Hg as ->.
  by apply list_elem_of_In.
Qed.

Lemma best_candidate_in (ratio : string -> string -> Q) (t g : string)
    (candidates : list string) :
  (best_candidate ratio t candidates).1 = Some g -> g ∈ candidates.
Proof.
  unfold best_candidate.
  assert (Gen : forall (rest : list string) (acc : option string * Q),
            (forall g', acc.1 = Some g' -> g' ∈ candidates) ->
            (forall g', g' ∈ rest -> g' ∈ candidates) ->
            forall g', (fold_left (fun '(best_match, best_ratio) github_user =>
               let r := ratio (norm_ticket t) (norm_github github_user) in
               if Qltb best_ratio r then (Some github_user, r)
               else (best_match, best_ratio)) rest acc).1 = Some g' -> g' ∈ candidates).
  { induction rest as [|x rest IH]; intros [bm br] Hacc Hrest g' Hg'; simpl in *.
    - by apply Hacc.
    - destruct (Qltb br _) eqn:E.
      + apply (IH (Some x, ratio (norm_ticket t) (norm_github x))); [|intros; apply Hrest; by right|done].
        intros g'' Hx. simpl in Hx. injection Hx as <-. apply Hrest. by left.
      + apply (IH (bm, br)); [done|intros; apply Hrest; by right|done]. }
  intros H. apply (Gen candidates (None, (7 # 10)%Q)); [done|done|exact H].
Qed.

Lemma fuzzy_step_ok (ratio : string -> string -> Q) : step_ok (fuzzy_step ratio).
Proof.
  intros st t. unfold fuzzy_step.
  destruct (best_candidate ratio t (github_only st)).1 as [g|] eqn:E; [|by left].
  destruct (str_truthy g); [|by left].
  right. exists g. split; [|done]. by apply (best_candidate_in ratio t).
Qed.

(** The scan of [best_candidate] from an accumulator whose ratio no
    candidate exceeds leaves the accumulator alone. *)
Lemma best_scan_none (ratio : string -> string -> Q) (t : string) (l : list string)
    (bm : option string) (br : Q) :
  (forall x, x ∈ l -> (ratio (norm_ticket t) (norm_github x) <= br)%Q) ->
  fold_left (fun '(best_match, best_ratio) github_user =>
     if Qltb best_ratio (ratio (norm_ticket t) (norm_github github_user))
     then (Some github_user, ratio (norm_ticket t) (norm_github github_user))
     else (best_match, best_ratio)) l (bm, br)
  = (bm, br).
Proof.
  induction l as [|x l IH]; intros H; simpl; [done|].
  unfold Qltb. assert (E : Qle_bool (ratio (norm_ticket t) (norm_github x)) br = true)
    by (apply Qle_bool_iff, H; by left).
  rewrite E. simpl. apply IH. intros y Hy. apply H. by right.
Qed.

(** Over candidates all below [c], the kept ratio stays below [c]. *)
Lemma best_scan_below (ratio : string -> string -> Q) (t : string) (l : list string)
    (bm : option string) (br c : Q) :
  (br < c)%Q -> (forall x, x ∈ l -> (ratio (norm_ticket t) (norm_github x) < c)%Q) ->
  exists bm' br', (br' < c)%Q /\
  fold_left (fun '(best_match, best_ratio) github_user =>
     if Qltb best_ratio (ratio (norm_ticket t) (norm_github github_user))
     then (Some github_user, ratio (norm_ticket t) (norm_github github_user))
     else (best_match, best_ratio)) l (bm, br)
  = (bm', br').
Proof.
  revert bm br. induction l as [|x l IH]; intros bm br Hb H; simpl; [by exists bm, br|].
  destruct (Qltb br _).
  - apply IH; [apply H; by left|]. intros y Hy. apply H. by right.
  - apply IH; [done|]. intros y Hy. apply H. by right.
Qed.

(** [best_candidate] returns the first candidate of greatest ratio when
    that ratio exceeds [0.7]. *)
Lemma best_candidate_first_max (ratio : string -> string -> Q) (t g : string)
    (pre post : list string) :
  let r x := ratio (norm_ticket t) (norm_github x) in
  (7 # 10 < r g)%Q -> (forall x, x ∈ pre -> (r x < r g)%Q) ->
  (forall x, x ∈ post -> (r x <= r g)%Q) ->
  (best_candidate ratio t (pre ++ g :: post)).1 = Some g.
Proof.
  intros r Hg Hpre Hpost. unfold best_candidate. rewrite fold_left_app.
  destruct (best_scan_below ratio t pre None (7 # 10) (r g) Hg Hpre) as (bm & br & Hbr & ->).
  cbn [fold_left].
  assert (E : Qltb br (r g) = true).
  { unfold Qltb. destruct (Qle_bool (r g) br) eqn:E; [|done]. apply Qle_bool_iff in E. lra. }
  fold (r g). rewrite E. rewrite best_scan_none; [done|]. exact Hpost.
Qed.

Lemma best_candidate_none (ratio : string -> string -> Q) (t : string) (l : list string) :
  (forall x, x ∈ l -> (ratio (norm_ticket t) (norm_github x) <= 7 # 10)%Q) ->
  (best_candidate ratio t l).1 = None.
Proof. intros H. unfold best_candidate. by rewrite best_scan_none. Qed.

(** Matching steps only remove GitHub identities from [github_only]. *)
Lemma fold_step_github_only (step : match_state -> string -> match_state) :
  step_ok step ->
  forall (l : list string) (st : match_state) (g : string),
    g ∈ github_only (fold_left step l st) -> g ∈ github_only st.
Proof.
  intros Hstep l. induction l as [|t l IH]; intros st g Hg; simpl in *; [done|].
  apply IH in Hg. destruct (Hstep st t) as [E|(g' & _ & E)]; rewrite E in Hg; [done|].
  unfold pair_up in Hg. simpl in Hg. by apply elem_of_discard in Hg as [Hg _].
Qed.

(** The fuzzy step on a state whose unmatched GitHub identities are all
    non-empty: no pair when no ratio exceeds [0.7]; otherwise the pair with
    the first candidate of greatest ratio. *)
Lemma fuzzy_step_spec (ratio : string -> string -> Q) (st : match_state) (t : string) :
  (forall g, g ∈ github_only st -> g <> EmptyString) ->
  let r g := ratio (norm_ticket t) (norm_github g) in
  ((forall g, g ∈ github_only st -> (r g <= 7 # 10)%Q) -> fuzzy_step ratio st t = st) /\
  (forall pre g post, github_only st = pre ++ g :: post -> (7 # 10 < r g)%Q ->
     (forall x, x ∈ pre -> (r x < r g)%Q) -> (forall x, x ∈ post -> (r x <= r g)%Q) ->
     fuzzy_step ratio st t = pair_up st g t).
Proof.
  intros Hne r. split.
  - intros H. unfold fuzzy_step. by rewrite best_candidate_none.
  - intros pre g post Hgo Hg Hpre Hpost. unfold fuzzy_step. rewrite Hgo.
    rewrite (best_candidate_first_max ratio t g pre post Hg Hpre Hpost).
    assert (Hin : g ∈ github_only st) by (rewrite Hgo; apply elem_of_app; right; by left).
    unfold str_truthy. apply Hne in Hin. apply String.eqb_neq in Hin. by rewrite Hin.
Qed.

Lemma match_users_partition_inv (ratio : string -> string -> Q)
    (team_member_map : gmap string string) (github_users ticket_users : list string) :
  NoDup github_users -> NoDup ticket_users ->
  let st := Combiner.match_users ratio team_member_map github_users ticket_users in
  (Combiner.matched st).*1 ++ Combiner.github_only st ≡ₚ github_users /\
  (Combiner.matched st).*2 ++ Combiner.ticket_only st ≡ₚ ticket_users /\
  NoDup ((Combiner.matched st).*1 ++ Combiner.github_only st) /\
  NoDup ((Combiner.matched st).*2 ++ Combiner.ticket_only st).
Proof.
  intros Hg Ht st.
  assert (Hinv : partition_inv github_users ticket_users st).
  { unfold st, Combiner.match_users.
    apply (run_pass_inv _ _ Hg Ht); [apply fuzzy_step_ok|].
    apply (run_pass_inv _ _ Hg Ht); [apply manual_step_ok|].
    apply (run_pass_inv _ _ Hg Ht); [apply exact_step_ok|].
    split; simpl; done. }
  destruct Hinv as [H1 H2]. split; [done|]. split; [done|].
  split; [rewrite H1 | rewrite H2]; done.
Qed.

End MatchFacts.

(** ** Closed-issue counting *)

Module IssueFacts.

Import Issues.

Definition closed_by (u : string) (i : issue) : bool :=
  is_valid_issue i && bool_decide (closer i = Some u).

(** After a prefix [seen] of the issues: the count is the size of the
    user's number set, and that set holds the numbers of the valid issues
    of [seen] the user closed. *)
Definition count_inv (M : gmap string issue_metrics) (seen : list issue) : Prop :=
  forall u, let m := default fresh_metrics (M !! u) in
    issues_closed m = length (issue_numbers m) /\ NoDup (issue_numbers m) /\
    forall n, n ∈ issue_numbers m <-> n ∈ map number (List.filter (closed_by u) seen).

Lemma count_inv_nil : count_inv ∅ [].
Proof.
  intros u. rewrite lookup_empty. simpl. split; [done|]. split; [constructor|done].
Qed.

Lemma count_inv_step (M : gmap string issue_metrics) (seen : list issue) (i : issue) :
  count_inv M seen -> count_inv (process_issue M i) (seen ++ [i]).
Proof.
  intros Hinv u. unfold process_issue. cbv zeta.
  rewrite List.filter_app, map_app. simpl. unfold closed_by at 2.
  destruct (is_valid_issue i) eqn:Hv; simpl.
  2: { destruct (Hinv u) as (H1 & H2 & H3). split; [done|]. split; [done|].
       intros n. rewrite app_nil_r. apply H3. }
  destruct (closer i) as [v|] eqn:Hc.
  2: { destruct (Hinv u) as (H1 & H2 & H3). split; [done|]. split; [done|].
       intros n. rewrite bool_decide_false by done. simpl. rewrite app_nil_r. apply H3. }
  destruct (decide (u = v)) as [E|Hne].
  - subst v. rewrite (bool_decide_true (Some u = Some u)) by done. simpl.
    destruct (Hinv u) as (H1 & H2 & H3).
    set (m := default fresh_metrics (M !! u)) in *.
    destruct (bool_decide (number i ∈ issue_numbers m)) eqn:Hin; [apply bool_decide_eq_true in Hin|apply bool_decide_eq_false in Hin].
    + cbv iota. fold m. split; [done|]. split; [done|]. intros n.
      rewrite H3, elem_of_app, list_elem_of_singleton. split; [tauto|].
      intros [Hn| ->]; [done|]. by apply H3.
    + rewrite lookup_insert_eq. cbn [default id issues_closed issue_numbers].
      split; [by rewrite H1|]. split.
      * constructor; [done|done].
      * intros n. rewrite elem_of_cons, H3, elem_of_app, list_elem_of_singleton. tauto.
  - rewrite (bool_decide_false (Some v = Some u)) by congruence. simpl. rewrite app_nil_r.
    destruct (bool_decide (number i ∈ _)); [apply Hinv|].
    rewrite lookup_insert_ne by congruence. apply Hinv.
Qed.

Lemma count_inv_fold (rest seen : list issue) (M : gmap string issue_metrics) :
  count_inv M seen -> count_inv (fold_left process_issue rest M) (seen ++ rest).
Proof.
  revert seen M. induction rest as [|i rest IH]; intros seen M Hinv; simpl.
  - by rewrite app_nil_r.
  - replace (seen ++ i :: rest) with ((seen ++ [i]) ++ rest) by (by rewrite <- app_assoc).
    apply IH. by apply count_inv_step.
Qed.

End IssueFacts.

(** ** Merging the two datasets *)

Module MergeFacts.

Import Combiner.

Lemma combined_fields_nodup (py_str : pyval -> string) (username : string)
    (gm tm : record) (active_repos data_source : string) :
  NoDup (combined_fields py_str username gm tm active_repos data_source).*1.
Proof.
  change (NoDup ["github_username"; "display_name"; "email";
    "total_commits"; "commit_frequency"; "lines_added"; "lines_deleted"; "lines_changed";
    "prs_created"; "prs_merged"; "pr_merge_rate"; "avg_pr_size"; "issues_closed";
    "reviews_given"; "reviews_received"; "review_participation"; "avg_review_time_hours";
    "active_repos"; "total_tickets"; "tickets_open"; "tickets_closed";
    "tickets_high_priority"; "tickets_medium_priority"; "tickets_low_priority";
    "avg_resolution_time_hours"; "avg_first_response_time_hours";
    "tickets_with_github_issue"; "ticket_types"; "data_sources"; "last_active"]%string).
  apply (bool_decide_unpack _). vm_compute. reflexivity.
Qed.

Lemma bind_Some_l {A B} (x : A) (f : A -> option B) : (y ← Some x; f y) = f x.
Proof. reflexivity. Qed.

Lemma join_no_repos : py_join ", " (gget ∅ "active_repos" (PList [])) = Some EmptyString.
Proof. reflexivity. Qed.

Ltac field_lookups :=
  repeat (apply Forall_cons; split; [vm_compute; reflexivity|]); constructor.

Lemma ticket_only_defaults (py_str : pyval -> string) (t : string) (tm r : record) :
  merge_user_metrics py_str t ∅ tm "Sheets Only" = Some r ->
  r !! "github_username" = Some (PStr t) /\ r !! "display_name" = Some (PStr t) /\
  Forall (fun k => r !! k = Some (PNum 0)) github_num_fields /\
  Forall (fun k => r !! k = Some (PStr EmptyString)) github_str_fields.
Proof.
  unfold merge_user_metrics. rewrite join_no_repos, bind_Some_l. intros H.
  apply (inj Some) in H. subst r.
  split; [vm_compute; reflexivity|]. split; [vm_compute; reflexivity|].
  split; unfold github_num_fields, github_str_fields; field_lookups.
Qed.

Lemma github_only_defaults (py_str : pyval -> string) (g : string) (gm r : record) :
  merge_user_metrics py_str g gm ∅ "GitHub Only" = Some r ->
  Forall (fun k => r !! k = Some (PNum 0)) ticket_num_fields /\
  r !! "ticket_types" = Some (PStr (py_str (PDict []))).
Proof.
  unfold merge_user_metrics.
  destruct (py_join ", " (gget gm "active_repos" (PList []))) as [a|]; [|discriminate].
  rewrite bind_Some_l. intros H. apply (inj Some) in H. subst r.
  split; [unfold ticket_num_fields; field_lookups|vm_compute; reflexivity].
Qed.

Lemma merge_user_metrics_is_Some (py_str : pyval -> string) (username : string)
    (gm tm : record) (data_source : string) :
  is_Some (py_join ", " (gget gm "active_repos" (PList []))) ->
  is_Some (merge_user_metrics py_str username gm tm data_source).
Proof.
  intros [a Ha]. unfold merge_user_metrics. rewrite Ha, bind_Some_l. by eexists.
Qed.

Lemma mapM_is_Some {A B} (f : A -> option B) (l : list A) :
  (forall x, x ∈ l -> is_Some (f x)) -> is_Some (mapM f l).
Proof.
  induction l as [|x l IH]; intros Hf; simpl; [by eexists|].
  destruct (Hf x (list_elem_of_here x l)) as [y Hy]. rewrite Hy. simpl.
  destruct IH as [k Hk]; [intros z Hz; apply Hf; by right|]. rewrite Hk. by eexists.
Qed.

End MergeFacts.

(** ** Python's stable descending sort *)

Module SortFacts.

Import Ranker.
Local Open Scope Q_scope.

Section Sort.

Context {A : Type} (key : A -> Q).

Definition desc (x y : A) : Prop := key y <= key x.

Lemma insert_perm (x : A) (l : list A) : insert_desc_by key x l ≡ₚ x :: l.
Proof.
  induction l as [|y l IH]; simpl; [done|].
  destruct (Qle_bool (key y) (key x)); [done|].
  rewrite IH. apply Permutation_swap.
Qed.

Lemma sorted_perm (l : list A) : sorted_desc_by key l ≡ₚ l.
Proof.
  induction l as [|x l IH]; simpl; [done|].
  rewrite insert_perm. by f_equiv.
Qed.

Lemma insert_sorted (x : A) (l : list A) :
  StronglySorted desc l -> StronglySorted desc (insert_desc_by key x l).
Proof.
  induction l as [|y l IH]; intros Hs; simpl.
  - repeat constructor.
  - apply StronglySorted_inv in Hs as [Hs Hy].
    destruct (Qle_bool (key y) (key x)) eqn:E.
    + apply Qle_bool_iff in E. constructor; [by constructor|].
      constructor; [exact E|]. eapply Forall_impl; [exact Hy|].
      intros z Hz. unfold desc in *. lra.
    + assert (E' : key x <= key y).
      { apply Qnot_lt_le. intros Hlt. apply Qlt_le_weak in Hlt.
        apply Qle_bool_iff in Hlt. congruence. }
      constructor; [by apply IH|].
      apply Forall_forall. intros z Hz. rewrite insert_perm in Hz.
      apply elem_of_cons in Hz as [->|Hz]; [exact E'|].
      rewrite Forall_forall in Hy. by apply Hy.
Qed.

Lemma sorted_sorted (l : list A) : StronglySorted desc (sorted_desc_by key l).
Proof.
  induction l as [|x l IH]; simpl; [constructor|]. by apply insert_sorted.
Qed.

(** Stability: inserting [x] only passes elements of greater key. *)
Lemma insert_filter (P : A -> bool) (x : A) (l : list A) :
  (P x = true -> forall y, y ∈ l -> P y = true -> key y == key x) ->
  List.filter P (insert_desc_by key x l) = List.filter P (x :: l).
Proof.
  induction l as [|y l IH]; intros Heq; simpl; [done|].
  destruct (Qle_bool (key y) (key x)) eqn:E; [done|].
  assert (Hgt : key x < key y).
  { apply Qnot_le_lt. intros Hle. apply Qle_bool_iff in Hle. congruence. }
  simpl. rewrite IH by (intros Hx z Hz Hpz; apply Heq; [done|by right|done]).
  simpl. destruct (P x) eqn:Px, (P y) eqn:Py; try done.
  exfalso. pose proof (Heq eq_refl y (list_elem_of_here y l) Py). lra.
Qed.

Lemma sorted_filter (P : A -> bool) (l : list A) :
  (forall x y, x ∈ l -> y ∈ l -> P x = true -> P y = true -> key x == key y) ->
  List.filter P (sorted_desc_by key l) = List.filter P l.
Proof.
  induction l as [|x l IH]; intros Heq; simpl; [done|].
  rewrite insert_filter.
  - simpl. rewrite IH; [done|].
    intros y z Hy Hz. apply Heq; by right.
  - intros Hx y Hy Hpy. rewrite sorted_perm in Hy.
    apply Heq; [by right|left|done|done].
Qed.

End Sort.

End SortFacts.

(** ** What the score computation reads *)

Module ScoreFacts.

Import Ranker.
Local Open Scope Q_scope.

(** The fields [rank_engineers] writes. *)
Definition score_keys : list string :=
  ["complexity_component"; "other_component"; "composite_score";
   "rank"; "percentile"; "rank_label"].

(** Two records agree outside the written fields. *)
Definition agree (e e' : record) : Prop :=
  forall k, k ∉ score_keys -> e !! k = e' !! k.

Ltac key_list := apply (bool_decide_unpack _); vm_compute; reflexivity.

Ltac bind_red := cbn [mbind option_bind].

Lemma agree_refl (e : record) : agree e e.
Proof. by intros k _. Qed.

Lemma agree_sym (e e' : record) : agree e e' -> agree e' e.
Proof. intros H k Hk. symmetry. by apply H. Qed.

Lemma agree_trans (e1 e2 e3 : record) : agree e1 e2 -> agree e2 e3 -> agree e1 e3.
Proof. intros H1 H2 k Hk. rewrite (H1 k Hk). by apply H2. Qed.

Lemma agree_insert (k : string) (v : pyval) (e : record) :
  k ∈ score_keys -> agree (<[k := v]> e) e.
Proof.
  intros Hk k' Hk'. apply lookup_insert_ne. intros ->. done.
Qed.

Lemma agree_set_scores (s : scores) (e : record) : agree (set_scores s e) e.
Proof.
  unfold set_scores.
  eapply agree_trans; [apply agree_insert; key_list|].
  eapply agree_trans; [apply agree_insert; key_list|].
  apply agree_insert; key_list.
Qed.

Lemma agree_set_rank (i n : nat) (e : record) : agree (set_rank i n e) e.
Proof.
  unfold set_rank.
  eapply agree_trans; [apply agree_insert; key_list|].
  eapply agree_trans; [apply agree_insert; key_list|].
  apply agree_insert; key_list.
Qed.

Lemma username_agree (e e' : record) : agree e e' -> username e = username e'.
Proof. intros H. unfold username. rewrite (H "github_username"); [done|key_list]. Qed.

Lemma get_num_agree (e e' : record) (k : string) :
  agree e e' -> k ∉ score_keys -> get_num e k = get_num e' k.
Proof. intros H Hk. unfold get_num. by rewrite (H k Hk). Qed.

Lemma complexity_entry_agree (e e' : record) :
  agree e e' -> complexity_entry e = complexity_entry e'.
Proof.
  intros H. unfold complexity_entry.
  rewrite (username_agree e e' H), (get_num_agree e e' "total_complexity_score" H);
    [done|key_list].
Qed.

Lemma other_entry_agree (mnf mxf mnr mxr : Q) (e e' : record) :
  agree e e' -> other_entry mnf mxf mnr mxr e = other_entry mnf mxf mnr mxr e'.
Proof.
  intros H. unfold other_entry, other_components, get_dict.
  rewrite (username_agree e e' H), (H "ai_analysis"), (get_num_agree e e' "commit_frequency"),
    (get_num_agree e e' "pr_merge_rate"), (get_num_agree e e' "review_participation");
    try done; key_list.
Qed.

(** Pointwise equal reads give equal results. *)
Lemma collect_Forall2 {A} (f : record -> option (string * A)) (l1 l2 : list record)
    (acc : gmap string A) :
  Forall2 (fun a b => f a = f b) l1 l2 -> collect f l1 acc = collect f l2 acc.
Proof.
  intros H. revert acc. induction H as [|a b l1 l2 Hab _ IH]; intros acc; simpl; [done|].
  rewrite Hab. destruct (f b) as [kv|]; simpl; [apply IH|done].
Qed.

Lemma mapM_Forall2 {B} (f : record -> option B) (l1 l2 : list record) :
  Forall2 (fun a b => f a = f b) l1 l2 -> mapM f l1 = mapM f l2.
Proof.
  intros H. induction H as [|a b l1 l2 Hab _ IH]; simpl; [done|].
  by rewrite Hab, IH.
Qed.

Lemma collect_ext {A} (f g : record -> option (string * A)) (l : list record)
    (acc : gmap string A) :
  (forall e, f e = g e) -> collect f l acc = collect g l acc.
Proof.
  intros H. revert acc. induction l as [|e l IH]; intros acc; simpl; [done|].
  rewrite H. destruct (g e) as [kv|]; simpl; [apply IH|done].
Qed.

Lemma composite_scores_agree (l1 l2 : list record) :
  Forall2 agree l1 l2 -> calculate_composite_scores l1 = calculate_composite_scores l2.
Proof.
  intros H. unfold calculate_composite_scores, calculate_complexity_component,
    calculate_other_component.
  rewrite (collect_Forall2 complexity_entry l1 l2);
    [|eapply Forall2_impl; [exact H|]; apply complexity_entry_agree].
  rewrite (mapM_Forall2 (fun eng => get_num eng "commit_frequency") l1 l2);
    [|eapply Forall2_impl; [exact H|]; intros a b Hab; apply get_num_agree; [done|key_list]].
  rewrite (mapM_Forall2 (fun eng => get_num eng "review_participation") l1 l2);
    [|eapply Forall2_impl; [exact H|]; intros a b Hab; apply get_num_agree; [done|key_list]].
  destruct (mapM _ l2) as [cfs|]; bind_red; [|done].
  destruct (mapM _ l2) as [rps|]; bind_red; [|done].
  rewrite (collect_Forall2 (other_entry _ _ _ _) l1 l2); [done|].
  eapply Forall2_impl; [exact H|]. apply other_entry_agree.
Qed.

Lemma agree_imap (g : nat -> record -> record) (l : list record) :
  (forall i e, agree (g i e) e) -> Forall2 agree (imap g l) l.
Proof.
  revert g. induction l as [|e l IH]; intros g Hg; simpl; [constructor|].
  constructor; [apply Hg|]. apply IH. intros i e'. apply Hg.
Qed.

(** Reordering that keeps each user's records in order. *)
Definition user_is (u : string) (e : record) : bool := bool_decide (username e = Some u).

Lemma collect_None {A} (f : record -> option (string * A)) (l : list record)
    (acc : gmap string A) :
  collect f l acc = None <-> exists e, e ∈ l /\ f e = None.
Proof.
  split.
  - revert acc. induction l as [|e l IH]; intros acc H; simpl in H; [discriminate|].
    destruct (f e) as [kv|] eqn:Hf; simpl in H.
    + destruct (IH _ H) as (e' & He' & Hf'). exists e'. split; [by right|done].
    + exists e. split; [left|done].
  - intros (e & He & Hf). destruct (collect f l acc) as [m|] eqn:Hm; [|done].
    destruct (MapFacts.collect_Some_inv f l acc m e Hm He) as [kv Hkv]. congruence.
Qed.

Lemma collect_lookup_filter {A} (f : record -> option (string * A)) (l : list record)
    (acc m : gmap string A) (u : string) :
  (forall e kv, f e = Some kv -> username e = Some kv.1) ->
  collect f l acc = Some m ->
  m !! u = match last (List.filter (user_is u) l) with
           | Some e => snd <$> f e
           | None => acc !! u
           end.
Proof.
  intros Hk. revert acc. induction l as [|e l IH]; intros acc H; simpl in H.
  - by injection H as <-.
  - destruct (f e) as [[k w]|] eqn:Hf; bind_red; [|discriminate].
    rewrite (IH _ H). cbn [List.filter]. pose proof (Hk e _ Hf) as Hu. simpl in Hu.
    assert (Hue : user_is u e = bool_decide (Some k = Some u)) by (unfold user_is; by rewrite Hu).
    rewrite Hue. case_bool_decide as E.
    + injection E as ->. rewrite last_cons.
      destruct (last (List.filter (user_is u) l)); [done|].
      rewrite Hf. simpl. apply lookup_insert_eq.
    + destruct (last (List.filter (user_is u) l)); [done|].
      apply lookup_insert_ne. simpl. congruence.
Qed.

Lemma collect_reorder {A} (f : record -> option (string * A)) (l1 l2 : list record)
    (acc : gmap string A) :
  (forall e kv, f e = Some kv -> username e = Some kv.1) ->
  l1 ≡ₚ l2 ->
  (forall u, List.filter (user_is u) l1 = List.filter (user_is u) l2) ->
  collect f l1 acc = collect f l2 acc.
Proof.
  intros Hk Hp Hf.
  destruct (collect f l2 acc) as [m2|] eqn:H2.
  - destruct (collect f l1 acc) as [m1|] eqn:H1.
    + f_equal. apply map_eq. intros u.
      rewrite (collect_lookup_filter f l1 acc m1 u Hk H1),
        (collect_lookup_filter f l2 acc m2 u Hk H2), Hf. done.
    + apply collect_None in H1 as (e & He & Hfe). rewrite Hp in He.
      assert (collect f l2 acc = None) by (apply collect_None; eauto). congruence.
  - apply collect_None in H2 as (e & He & Hfe). rewrite <- Hp in He.
    apply collect_None. eauto.
Qed.

Lemma mapM_perm {B} (f : record -> option B) (l1 l2 : list record) (k1 : list B) :
  l1 ≡ₚ l2 -> mapM f l1 = Some k1 -> exists k2, mapM f l2 = Some k2 /\ k1 ≡ₚ k2.
Proof.
  intros Hp. revert k1. induction Hp as [|x l1 l2 _ IH|x y l|l1 l2 l3 _ IH1 _ IH2];
    intros k1 H.
  - exists k1. split; [done|]. done.
  - simpl in *. destruct (f x) as [b|]; bind_red; [|discriminate].
    destruct (mapM f l1) as [k|]; bind_red; [|discriminate].
    injection H as <-. destruct (IH k eq_refl) as (k2 & -> & Hk).
    exists (b :: k2). split; [done|]. by f_equiv.
  - simpl in *. destruct (f y) as [b|]; bind_red; [|discriminate].
    destruct (f x) as [a|]; bind_red; [|discriminate].
    destruct (mapM f l) as [k|]; bind_red; [|discriminate].
    injection H as <-. exists (a :: b :: k). split; [done|]. apply Permutation_swap.
  - destruct (IH1 k1 H) as (k2 & H2 & Hk2). destruct (IH2 k2 H2) as (k3 & H3 & Hk3).
    exists k3. split; [done|]. by rewrite Hk2.
Qed.

Lemma mapM_perm_None {B} (f : record -> option B) (l1 l2 : list record) :
  l1 ≡ₚ l2 -> mapM f l1 = None -> mapM f l2 = None.
Proof.
  intros Hp H. destruct (mapM f l2) as [k2|] eqn:H2; [|done].
  destruct (mapM_perm f l2 l1 k2) as (k1 & H1 & _); [by symmetry|done|]. congruence.
Qed.

(** [min] and [max] of permuted lists agree up to [==]. *)
Lemma fold_min_le (r : list Q) (m : Q) :
  let F := fold_left (fun m y => if Qltb y m then y else m) r m in
  F <= m /\ forall y, y ∈ r -> F <= y.
Proof.
  revert m. induction r as [|y r IH]; intros m; simpl.
  - split; [apply Qle_refl|]. intros y Hy. by apply not_elem_of_nil in Hy.
  - set (m' := if Qltb y m then y else m).
    assert (Hm' : m' <= m /\ m' <= y).
    { unfold m', Qltb. destruct (Qle_bool m y) eqn:E; simpl.
      - apply Qle_bool_iff in E. split; [apply Qle_refl|done].
      - assert (y < m).
        { apply Qnot_le_lt. intros Hle. apply Qle_bool_iff in Hle. congruence. }
        split; [lra|apply Qle_refl]. }
    destruct (IH m') as [H1 H2]. split; [lra|].
    intros z Hz. apply elem_of_cons in Hz as [->|Hz]; [lra|]. by apply H2.
Qed.

Lemma fold_max_ge (r : list Q) (m : Q) :
  let F := fold_left (fun m y => if Qltb m y then y else m) r m in
  m <= F /\ forall y, y ∈ r -> y <= F.
Proof.
  revert m. induction r as [|y r IH]; intros m; simpl.
  - split; [apply Qle_refl|]. intros y Hy. by apply not_elem_of_nil in Hy.
  - set (m' := if Qltb m y then y else m).
    assert (Hm' : m <= m' /\ y <= m').
    { unfold m', Qltb. destruct (Qle_bool y m) eqn:E; simpl.
      - apply Qle_bool_iff in E. split; [apply Qle_refl|done].
      - assert (m < y).
        { apply Qnot_le_lt. intros Hle. apply Qle_bool_iff in Hle. congruence. }
        split; [lra|apply Qle_refl]. }
    destruct (IH m') as [H1 H2]. split; [lra|].
    intros z Hz. apply elem_of_cons in Hz as [->|Hz]; [lra|]. by apply H2.
Qed.

Lemma py_min_le (xs : list Q) (y : Q) : y ∈ xs -> py_min xs <= y.
Proof.
  destruct xs as [|x r]; intros Hy; [by apply not_elem_of_nil in Hy|].
  unfold py_min. destruct (fold_min_le r x) as [H1 H2].
  apply elem_of_cons in Hy as [->|Hy]; [done|]. by apply H2.
Qed.

Lemma py_max_ge (xs : list Q) (y : Q) : y ∈ xs -> y <= py_max xs.
Proof.
  destruct xs as [|x r]; intros Hy; [by apply not_elem_of_nil in Hy|].
  unfold py_max. destruct (fold_max_ge r x) as [H1 H2].
  apply elem_of_cons in Hy as [->|Hy]; [done|]. by apply H2.
Qed.

Lemma py_min_in (xs : list Q) : xs <> [] -> py_min xs ∈ xs.
Proof. intros Hne. apply (NumFacts.py_min_prop (fun x => x ∈ xs)); [done|by apply Forall_forall]. Qed.

Lemma py_max_in (xs : list Q) : xs <> [] -> py_max xs ∈ xs.
Proof. intros Hne. apply (NumFacts.py_max_prop (fun x => x ∈ xs)); [done|by apply Forall_forall]. Qed.

Lemma py_min_perm (xs ys : list Q) : xs ≡ₚ ys -> py_min xs == py_min ys.
Proof.
  intros Hp. destruct xs as [|x xs].
  - apply Permutation_nil in Hp as ->. reflexivity.
  - assert (Hy : ys <> []) by (intros ->; by apply Permutation_sym, Permutation_nil_cons in Hp).
    apply Qle_antisym.
    + apply py_min_le. rewrite Hp. by apply py_min_in.
    + apply py_min_le. rewrite <- Hp. by apply py_min_in.
Qed.

Lemma py_max_perm (xs ys : list Q) : xs ≡ₚ ys -> py_max xs == py_max ys.
Proof.
  intros Hp. destruct xs as [|x xs].
  - apply Permutation_nil in Hp as ->. reflexivity.
  - assert (Hy : ys <> []) by (intros ->; by apply Permutation_sym, Permutation_nil_cons in Hp).
    apply Qle_antisym.
    + apply py_max_ge. rewrite <- Hp. by apply py_max_in.
    + apply py_max_ge. rewrite Hp. by apply py_max_in.
Qed.

Lemma normalize_proper (v mn mn' mx mx' : Q) :
  mn == mn' -> mx == mx' -> normalize_to_100 v mn mx = normalize_to_100 v mn' mx'.
Proof.
  intros Hn Hx. unfold normalize_to_100.
  destruct (Qeq_bool mx mn) eqn:E1, (Qeq_bool mx' mn') eqn:E2; try done.
  - apply Qeq_bool_iff in E1. apply Qeq_bool_neq in E2. exfalso. apply E2.
    rewrite <- Hn, <- Hx. exact E1.
  - apply Qeq_bool_iff in E2. apply Qeq_bool_neq in E1. exfalso. apply E1.
    rewrite Hn, Hx. exact E2.
  - unfold py_div.
    destruct (Qeq_bool (mx - mn) 0) eqn:E3, (Qeq_bool (mx' - mn') 0) eqn:E4; try done.
    + apply Qeq_bool_iff in E3. apply Qeq_bool_neq in E4. exfalso. apply E4.
      rewrite <- Hn, <- Hx. exact E3.
    + apply Qeq_bool_iff in E4. apply Qeq_bool_neq in E3. exfalso. apply E3.
      rewrite Hn, Hx. exact E4.
    + bind_red. f_equal. apply NumFacts.py_round_proper. rewrite Hn, Hx. reflexivity.
Qed.

Lemma other_entry_proper (mnf mnf' mxf mxf' mnr mnr' mxr mxr' : Q) (eng : record) :
  mnf == mnf' -> mxf == mxf' -> mnr == mnr' -> mxr == mxr' ->
  other_entry mnf mxf mnr mxr eng = other_entry mnf' mxf' mnr' mxr' eng.
Proof.
  intros H1 H2 H3 H4. unfold other_entry, other_components.
  destruct (username eng) as [u|]; bind_red; [|done].
  destruct (get_dict eng "ai_analysis") as [ai|]; bind_red; [|done].
  destruct (dget_dict ai "code_quality") as [cq|]; bind_red; [|done].
  destruct (dget_dict ai "review_quality") as [rq|]; bind_red; [|done].
  destruct (dget_num cq "quality_score") as [qs|]; bind_red; [|done].
  destruct (dget_num rq "thoroughness_score") as [th|]; bind_red; [|done].
  destruct (dget_num rq "helpfulness_score") as [hp|]; bind_red; [|done].
  destruct (get_num eng "commit_frequency") as [cf|]; bind_red; [|done].
  rewrite (normalize_proper cf mnf mnf' mxf mxf' H1 H2).
  destruct (normalize_to_100 cf mnf' mxf') as [ncf|]; bind_red; [|done].
  destruct (get_num eng "pr_merge_rate") as [pr|]; bind_red; [|done].
  destruct (get_num eng "review_participation") as [rp|]; bind_red; [|done].
  by rewrite (normalize_proper rp mnr mnr' mxr mxr' H3 H4).
Qed.

Lemma complexity_entry_key (e : record) (kv : string * Q) :
  complexity_entry e = Some kv -> username e = Some kv.1.
Proof.
  unfold complexity_entry. destruct (username e) as [u|]; bind_red; [|discriminate].
  destruct (get_num e "total_complexity_score"); bind_red; [|discriminate].
  by intros [= <-].
Qed.

Lemma other_entry_key (mnf mxf mnr mxr : Q) (e : record) (kv : string * Q) :
  other_entry mnf mxf mnr mxr e = Some kv -> username e = Some kv.1.
Proof.
  unfold other_entry. destruct (username e) as [u|]; bind_red; [|discriminate].
  destruct (other_components _ _ _ _ e); bind_red; [|discriminate].
  by intros [= <-].
Qed.

Lemma composite_scores_reorder (l1 l2 : list record) :
  l1 ≡ₚ l2 ->
  (forall u, List.filter (user_is u) l1 = List.filter (user_is u) l2) ->
  calculate_composite_scores l1 = calculate_composite_scores l2.
Proof.
  intros Hp Hf. unfold calculate_composite_scores, calculate_complexity_component,
    calculate_other_component.
  rewrite (collect_reorder complexity_entry l1 l2 ∅ complexity_entry_key Hp Hf).
  destruct (collect complexity_entry l2 ∅) as [c|]; bind_red; [|done].
  destruct (map_mapM _ c) as [cm|]; bind_red; [|done].
  destruct (mapM (fun eng => get_num eng "commit_frequency") l2) as [cf2|] eqn:Ecf2.
  2: { rewrite (mapM_perm_None (fun eng => get_num eng "commit_frequency") l2 l1);
       [done|by symmetry|done]. }
  destruct (mapM_perm (fun eng => get_num eng "commit_frequency") l2 l1 cf2)
    as (cf1 & Ecf1 & Pcf); [by symmetry|done|].
  rewrite Ecf1. bind_red.
  destruct (mapM (fun eng => get_num eng "review_participation") l2) as [rp2|] eqn:Erp2.
  2: { rewrite (mapM_perm_None (fun eng => get_num eng "review_participation") l2 l1);
       [done|by symmetry|done]. }
  destruct (mapM_perm (fun eng => get_num eng "review_participation") l2 l1 rp2)
    as (rp1 & Erp1 & Prp); [by symmetry|done|].
  rewrite Erp1. bind_red.
  rewrite (collect_ext (other_entry (py_min cf1) (py_max cf1) (py_min rp1) (py_max rp1))
             (other_entry (py_min cf2) (py_max cf2) (py_min rp2) (py_max rp2))).
  2: { intros e. apply other_entry_proper; symmetry;
         [apply py_min_perm|apply py_max_perm|apply py_min_perm|apply py_max_perm]; done. }
  rewrite (collect_reorder _ l1 l2 ∅ (other_entry_key _ _ _ _) Hp Hf). done.
Qed.

End ScoreFacts.

(** ** The flow of [rank_engineers] *)

Module RankFacts.

Import Ranker.
Local Open Scope Q_scope.

Ltac bind_red := cbn [mbind option_bind].
Tactic Notation "bind_red" "in" hyp(H) := cbn [mbind option_bind] in H.

Lemma rank_flow (l out : list record) :
  l <> [] -> rank_engineers l = Some out ->
  exists cs scored,
    calculate_composite_scores l = Some cs /\
    mapM (add_scores cs) l = Some scored /\
    out = imap (fun i eng => set_rank (S i) (length scored) eng) (sorted_desc scored).
Proof.
  intros Hne H. destruct l as [|e0 l0]; [done|].
  unfold rank_engineers in H.
  destruct (calculate_composite_scores (e0 :: l0)) as [cs|] eqn:Ecs;
    bind_red in H; [|discriminate].
  destruct (mapM (add_scores cs) (e0 :: l0)) as [scored|] eqn:Esc;
    bind_red in H; [|discriminate].
  injection H as <-. exists cs, scored. split; [done|]. split; [done|].
  unfold sorted_desc. by rewrite (Permutation_length (SortFacts.sorted_perm sort_key scored)).
Qed.

Lemma scored_shape (cs : gmap string scores) (l scored : list record) :
  mapM (add_scores cs) l = Some scored ->
  Forall2 (fun e s => exists u, username e = Some u /\
             s = set_scores (default zero_scores (cs !! u)) e) l scored.
Proof.
  revert scored. induction l as [|e l IH]; intros scored H; simpl in H.
  - injection H as <-. constructor.
  - destruct (add_scores cs e) as [s|] eqn:Ha; bind_red in H; [|discriminate].
    destruct (mapM (add_scores cs) l) as [sl|] eqn:Hl; bind_red in H; [|discriminate].
    injection H as <-. constructor; [|by apply IH].
    unfold add_scores in Ha. destruct (username e) as [u|]; bind_red in Ha; [|discriminate].
    injection Ha as <-. eauto.
Qed.

Lemma scored_agree (cs : gmap string scores) (l scored : list record) :
  mapM (add_scores cs) l = Some scored -> Forall2 ScoreFacts.agree scored l.
Proof.
  intros H. apply Forall2_flip. eapply Forall2_impl; [exact (scored_shape cs l scored H)|].
  intros e s (u & _ & ->). apply ScoreFacts.agree_set_scores.
Qed.

Lemma sort_key_set_scores (s : scores) (e : record) :
  sort_key (set_scores s e) = composite_score s.
Proof. unfold sort_key, set_scores. by rewrite lookup_insert_eq. Qed.

Lemma set_scores_fields (s : scores) (e : record) :
  set_scores s e !! "complexity_component" = Some (PNum (complexity_component s)) /\
  set_scores s e !! "other_component" = Some (PNum (other_component s)) /\
  set_scores s e !! "composite_score" = Some (PNum (composite_score s)).
Proof.
  unfold set_scores. split; [|split].
  - rewrite lookup_insert_ne by discriminate. rewrite lookup_insert_ne by discriminate.
    by rewrite lookup_insert_eq.
  - rewrite lookup_insert_ne by discriminate. by rewrite lookup_insert_eq.
  - by rewrite lookup_insert_eq.
Qed.

Lemma set_rank_other (i n : nat) (e : record) (k : string) :
  k ∉ ["rank"; "percentile"; "rank_label"] -> set_rank i n e !! k = e !! k.
Proof.
  intros Hk. apply not_elem_of_cons in Hk as [H1 Hk].
  apply not_elem_of_cons in Hk as [H2 Hk]. apply not_elem_of_cons in Hk as [H3 _].
  unfold set_rank. rewrite !lookup_insert_ne; congruence.
Qed.

Lemma scored_member (cs : gmap string scores) (l scored : list record) (s : record) :
  mapM (add_scores cs) l = Some scored -> s ∈ scored ->
  exists e u, e ∈ l /\ username e = Some u /\ username s = Some u /\
    s = set_scores (default zero_scores (cs !! u)) e.
Proof.
  intros H Hs. apply list_elem_of_lookup in Hs as [i Hi].
  destruct (Forall2_lookup_r _ _ _ _ _ (scored_shape cs l scored H) Hi)
    as (e & He & u & Hu & ->).
  exists e, u. split; [by eapply list_elem_of_lookup_2|]. split; [done|]. split; [|done].
  rewrite <- Hu. apply ScoreFacts.username_agree, ScoreFacts.agree_set_scores.
Qed.

Lemma scored_key (cs : gmap string scores) (l scored : list record) (s : record) (u : string) :
  mapM (add_scores cs) l = Some scored -> s ∈ scored -> username s = Some u ->
  sort_key s = composite_score (default zero_scores (cs !! u)).
Proof.
  intros H Hs Hu. destruct (scored_member cs l scored s H Hs) as (e & u' & _ & _ & Hu' & ->).
  rewrite Hu in Hu'. injection Hu' as <-. apply sort_key_set_scores.
Qed.

Lemma ranked_user_filter (cs : gmap string scores) (l scored : list record) (u : string) :
  mapM (add_scores cs) l = Some scored ->
  List.filter (ScoreFacts.user_is u) (sorted_desc scored) =
  List.filter (ScoreFacts.user_is u) scored.
Proof.
  intros H. apply SortFacts.sorted_filter. intros x y Hx Hy Px Py.
  unfold ScoreFacts.user_is in Px, Py. apply bool_decide_eq_true in Px, Py.
  rewrite (scored_key cs l scored x u H Hx Px), (scored_key cs l scored y u H Hy Py).
  reflexivity.
Qed.

Lemma imap_member (g : nat -> record -> record) (l : list record) (r : record) :
  r ∈ imap g l -> exists i e, l !! i = Some e /\ r = g i e.
Proof.
  intros Hr. apply list_elem_of_lookup in Hr as [i Hi].
  rewrite list_lookup_imap in Hi. destruct (l !! i) as [e|] eqn:He; [|discriminate].
  injection Hi as <-. eauto.
Qed.

(** The scores a ranked record carries come from its user's entry. *)
Lemma rank_record (l out : list record) (cs : gmap string scores) (r : record) :
  l <> [] -> rank_engineers l = Some out -> calculate_composite_scores l = Some cs ->
  r ∈ out ->
  exists u, username r = Some u /\
    r !! "complexity_component" = Some (PNum (complexity_component (default zero_scores (cs !! u)))) /\
    r !! "other_component" = Some (PNum (other_component (default zero_scores (cs !! u)))) /\
    r !! "composite_score" = Some (PNum (composite_score (default zero_scores (cs !! u)))).
Proof.
  intros Hne H Hcs Hr. destruct (rank_flow l out Hne H) as (cs' & scored & Hcs' & Hsc & ->).
  rewrite Hcs in Hcs'. injection Hcs' as <-.
  destruct (imap_member _ _ r Hr) as (i & s & Hi & ->).
  assert (Hs : s ∈ scored).
  { rewrite <- (SortFacts.sorted_perm sort_key scored). by eapply list_elem_of_lookup_2. }
  destruct (scored_member cs l scored s Hsc Hs) as (e & u & _ & _ & Hus & ->).
  exists u. split.
  - rewrite <- Hus. apply ScoreFacts.username_agree, ScoreFacts.agree_set_rank.
  - destruct (set_scores_fields (default zero_scores (cs !! u)) e) as (F1 & F2 & F3).
    rewrite !set_rank_other; [done| |  |];
      apply (bool_decide_unpack _); vm_compute; reflexivity.
Qed.

Lemma rank_composite_scores (l out : list record) :
  l <> [] -> rank_engineers l = Some out ->
  calculate_composite_scores out = calculate_composite_scores l.
Proof.
  intros Hne H. destruct (rank_flow l out Hne H) as (cs & scored & Hcs & Hsc & ->).
  rewrite (ScoreFacts.composite_scores_agree _ (sorted_desc scored)).
  2: { apply ScoreFacts.agree_imap. intros i e. apply ScoreFacts.agree_set_rank. }
  rewrite (ScoreFacts.composite_scores_reorder (sorted_desc scored) scored).
  - apply ScoreFacts.composite_scores_agree. exact (scored_agree cs l scored Hsc).
  - apply SortFacts.sorted_perm.
  - intros u. exact (ranked_user_filter cs l scored u Hsc).
Qed.

Lemma rank_length (l out : list record) :
  rank_engineers l = Some out -> length out = length l.
Proof.
  intros H. destruct l as [|e0 l0]; [by injection H as <-|].
  destruct (rank_flow (e0 :: l0) out ltac:(done) H) as (cs & scored & _ & Hsc & ->).
  rewrite length_imap. unfold sorted_desc.
  rewrite (Permutation_length (SortFacts.sorted_perm sort_key scored)).
  symmetry. eapply Forall2_length. exact (scored_shape cs _ scored Hsc).
Qed.

(** The entry of a user is computed from the last record of that user. *)
Lemma composite_lookup (l l1 l2 : list record) (e : record) (u : string)
    (cs : gmap string scores) :
  l = l1 ++ e :: l2 -> username e = Some u ->
  (forall e', e' ∈ l2 -> username e' <> Some u) ->
  calculate_composite_scores l = Some cs ->
  exists tcs cmap ncc cfs rps oc,
    get_num e "total_complexity_score" = Some tcs /\
    collect complexity_entry l ∅ = Some cmap /\
    normalize_to_100 tcs (py_min (map_to_list cmap).*2) (py_max (map_to_list cmap).*2)
      = Some ncc /\
    mapM (fun eng => get_num eng "commit_frequency") l = Some cfs /\
    mapM (fun eng => get_num eng "review_participation") l = Some rps /\
    other_entry (py_min cfs) (py_max cfs) (py_min rps) (py_max rps) e = Some (u, oc) /\
    cs !! u = Some (composite_of ncc oc).
Proof.
  intros Hl Hu Hlast H.
  unfold calculate_composite_scores, calculate_complexity_component,
    calculate_other_component in H.
  destruct (collect complexity_entry l ∅) as [cmap|] eqn:Ec; bind_red in H; [|discriminate].
  destruct (map_mapM _ cmap) as [nmap|] eqn:En; bind_red in H; [|discriminate].
  destruct (mapM (fun eng => get_num eng "commit_frequency") l) as [cfs|] eqn:Ecf;
    bind_red in H; [|discriminate].
  destruct (mapM (fun eng => get_num eng "review_participation") l) as [rps|] eqn:Erp;
    bind_red in H; [|discriminate].
  destruct (collect (other_entry _ _ _ _) l ∅) as [omap|] eqn:Eo;
    bind_red in H; [|discriminate].
  injection H as <-.
  assert (He : e ∈ l) by (subst l; apply elem_of_app; right; left).
  destruct (get_num e "total_complexity_score") as [tcs|] eqn:Et.
  2: { destruct (MapFacts.collect_Some_inv complexity_entry l ∅ cmap e Ec He) as [kv Hkv].
       unfold complexity_entry in Hkv. rewrite Hu, Et in Hkv. discriminate. }
  assert (Hce : complexity_entry e = Some (u, tcs)).
  { unfold complexity_entry. by rewrite Hu, Et. }
  assert (Hcm : cmap !! u = Some tcs).
  { subst l. eapply MapFacts.collect_lookup_last; [exact Ec|exact Hce|].
    intros e' kv He' Hkv Hk. apply (Hlast e' He').
    rewrite (ScoreFacts.complexity_entry_key e' kv Hkv). by rewrite Hk. }
  destruct (MapFacts.map_mapM_lookup_Some _ cmap nmap u tcs En Hcm) as (ncc & Hnm & Hncc).
  destruct (MapFacts.collect_Some_inv _ l ∅ omap e Eo He) as [[k oc] Hoe].
  pose proof (ScoreFacts.other_entry_key _ _ _ _ e _ Hoe) as Hk. simpl in Hk.
  rewrite Hu in Hk. injection Hk as <-.
  assert (Hom : omap !! u = Some oc).
  { subst l. eapply MapFacts.collect_lookup_last; [exact Eo|exact Hoe|].
    intros e' kv He' Hkv Hk. apply (Hlast e' He').
    rewrite (ScoreFacts.other_entry_key _ _ _ _ e' kv Hkv). by rewrite Hk. }
  exists tcs, cmap, ncc, cfs, rps, oc.
  split; [done|]. split; [done|]. split; [done|]. split; [done|]. split; [done|].
  split; [done|].
  unfold composite_map. rewrite map_lookup_imap, Hnm. simpl. by rewrite Hom.
Qed.

End RankFacts.

(** ** Which records each stage writes *)

Module FrameFacts.

Import InPlace.

(** [d'] equals [d] outside the keys [K]. *)
Definition frame (K : list string) (d d' : record) : Prop :=
  forall k, k ∉ K -> d' !! k = d !! k.

Definition derived_keys : list string :=
  ["commits_per_ticket"; "activity_score"; "ticket_closure_rate"].

Lemma frame_refl (K : list string) (d : record) : frame K d d.
Proof. by intros k _. Qed.

Lemma frame_trans (K : list string) (d1 d2 d3 : record) :
  frame K d1 d2 -> frame K d2 d3 -> frame K d1 d3.
Proof. intros H1 H2 k Hk. rewrite (H2 k Hk). by apply H1. Qed.

Lemma frame_insert (K : list string) (k : string) (v : pyval) (d : record) :
  k ∈ K -> frame K d (<[k := v]> d).
Proof. intros Hk k' Hk'. apply lookup_insert_ne. intros ->. done. Qed.

Lemma update_each_frame (K : list string) (f : nat -> record -> option record)
    (i : nat) (h h' : heap) (ls : list loc) :
  (forall i d d', f i d = Some d' -> frame K d d') ->
  update_each_from f i h ls = Some h' ->
  (forall l, l ∉ ls -> h' !! l = h !! l) /\
  (forall l, l ∈ ls -> exists d d', h !! l = Some d /\ h' !! l = Some d' /\ frame K d d').
Proof.
  intros Hf. revert i h. induction ls as [|l0 r IH]; intros i h H; simpl in H.
  - injection H as <-. split; [done|]. intros l Hl. by apply not_elem_of_nil in Hl.
  - destruct (h !! l0) as [d0|] eqn:Hd0; cbn [mbind option_bind] in H; [|discriminate].
    destruct (f i d0) as [d0'|] eqn:Hf0; cbn [mbind option_bind] in H; [|discriminate].
    destruct (IH _ _ H) as [Hout Hin]. split.
    + intros l Hl. apply not_elem_of_cons in Hl as [Hne Hl].
      rewrite (Hout l Hl). by apply lookup_insert_ne.
    + intros l Hl. destruct (decide (l ∈ r)) as [Hr|Hr].
      * destruct (Hin l Hr) as (d & d' & E1 & E2 & E3).
        destruct (decide (l = l0)) as [->|Hne].
        -- rewrite lookup_insert_eq in E1. injection E1 as <-.
           exists d0, d'. split; [done|]. split; [done|].
           eapply frame_trans; [exact (Hf _ _ _ Hf0)|exact E3].
        -- rewrite lookup_insert_ne in E1 by congruence. eauto.
      * apply elem_of_cons in Hl as [->|Hl]; [|done].
        exists d0, d0'. split; [done|]. split.
        -- rewrite (Hout l0 Hr). apply lookup_insert_eq.
        -- exact (Hf _ _ _ Hf0).
Qed.

Lemma derive_user_frame (d d' : record) :
  Derived.derive_user d = Some d' -> frame derived_keys d d'.
Proof.
  unfold Derived.derive_user.
  destruct (get_num d "total_commits"); cbn [mbind option_bind]; [|discriminate].
  destruct (get_num d "total_tickets"); cbn [mbind option_bind]; [|discriminate].
  destruct (get_num _ "prs_created"); cbn [mbind option_bind]; [|discriminate].
  destruct (get_num _ "reviews_given"); cbn [mbind option_bind]; [|discriminate].
  destruct (get_num _ "tickets_closed"); cbn [mbind option_bind]; [|discriminate].
  intros [= <-].
  eapply frame_trans; [|apply frame_insert; apply (bool_decide_unpack _); reflexivity].
  eapply frame_trans; [|apply frame_insert; apply (bool_decide_unpack _); reflexivity].
  apply frame_insert; apply (bool_decide_unpack _); reflexivity.
Qed.

Lemma agree_frame (d d' : record) : ScoreFacts.agree d' d -> frame ScoreFacts.score_keys d d'.
Proof. intros H k Hk. by apply H. Qed.

Lemma alloc_all_spec (h : heap) (rs : list record) (h' : heap) (ls : list loc) :
  alloc_all h rs = (h', ls) ->
  (forall l d, h !! l = Some d -> h' !! l = Some d) /\
  Forall (fun l => h !! l = None) ls /\ NoDup ls /\
  Forall2 (fun l r => h' !! l = Some r) ls rs.
Proof.
  revert h h' ls. induction rs as [|r rs IH]; intros h h' ls H; simpl in H.
  - injection H as <- <-. split; [done|]. split; [constructor|]. split; constructor.
  - set (l := fresh (dom h)) in H.
    destruct (alloc_all (<[l := r]> h) rs) as [h1 ls1] eqn:Ha. injection H as <- <-.
    destruct (IH _ _ _ Ha) as (P1 & P2 & P3 & P4).
    assert (Hl : h !! l = None) by (apply not_elem_of_dom, is_fresh).
    assert (Hpres : forall l' d, h !! l' = Some d -> h1 !! l' = Some d).
    { intros l' d Hd. apply P1. rewrite lookup_insert_ne; [done|]. congruence. }
    split; [exact Hpres|]. split; [|split].
    + constructor; [done|]. eapply Forall_impl; [exact P2|]. intros l' Hl'. cbv beta in Hl' |- *.
      rewrite lookup_insert_ne in Hl'; [done|]. intros ->. by rewrite lookup_insert_eq in Hl'.
    + constructor; [|done]. intros Hin. rewrite Forall_forall in P2.
      specialize (P2 l Hin). by rewrite lookup_insert_eq in P2.
    + constructor; [|done]. apply P1. apply lookup_insert_eq.
Qed.

End FrameFacts.

Module RoundFacts.

Local Open Scope Q_scope.

Lemma round_half_even_floor (y : Q) :
  (Qfloor y <= round_half_even y <= Qfloor y + 1)%Z.
Proof.
  unfold round_half_even.
  destruct (Qcompare (y - inject_Z (Qfloor y)) (1 # 2)); [destruct (Z.even (Qfloor y))| |]; lia.
Qed.

Lemma round_half_even_mono (x y : Q) : x <= y -> (round_half_even x <= round_half_even y)%Z.
Proof.
  intros Hxy.
  assert (Hf : (Qfloor x <= Qfloor y)%Z) by (apply Qfloor_resp_le; exact Hxy).
  pose proof (round_half_even_floor x) as Rx. pose proof (round_half_even_floor y) as Ry.
  destruct (Z.eq_dec (Qfloor x) (Qfloor y)) as [E|N]; [|lia].
  unfold round_half_even. rewrite <- E. set (f := Qfloor x).
  destruct (Qcompare_spec (x - inject_Z f) (1 # 2)) as [Ex|Ex|Ex];
  destruct (Qcompare_spec (y - inject_Z f) (1 # 2)) as [Ey|Ey|Ey];
  try (destruct (Z.even f)); try lia; lra.
Qed.

Lemma py_round_mono (x y : Q) (n : nat) : x <= y -> py_round x n <= py_round y n.
Proof.
  intros Hxy. unfold py_round. rewrite !Qred_correct.
  pose proof (NumFacts.pow10_pos n) as HP.
  assert (HPq : 0 < inject_Z (10 ^ Z.of_nat n)) by (rewrite Zlt_Qlt in HP; exact HP).
  pose proof (round_half_even_mono (x * inject_Z (10 ^ Z.of_nat n))
                (y * inject_Z (10 ^ Z.of_nat n))) as R.
  assert (x * inject_Z (10 ^ Z.of_nat n) <= y * inject_Z (10 ^ Z.of_nat n)) as H1
    by (apply Qmult_le_compat_r; lra).
  specialize (R H1). rewrite Zle_Qle in R.
  unfold Qdiv. apply Qmult_le_compat_r; [exact R|].
  apply Qlt_le_weak, Qinv_lt_0_compat. exact HPq.
Qed.

Lemma round_half_even_int (z : Z) : round_half_even (inject_Z z) = z.
Proof.
  unfold round_half_even.
  rewrite Qfloor_Z. assert (H : inject_Z z - inject_Z z < 1 # 2) by lra.
  rewrite (proj1 (Qlt_alt _ _) H). reflexivity.
Qed.

(** Rounding an already rounded value changes nothing. *)
Lemma py_round_idem (x : Q) (n : nat) : py_round (py_round x n) n = py_round x n.
Proof.
  unfold py_round at 1 3.
  set (p := inject_Z (10 ^ Z.of_nat n)).
  pose proof (NumFacts.pow10_pos n) as HP.
  assert (HPq : ~ p == 0).
  { unfold p. intros E. rewrite Zlt_Qlt in HP. change (inject_Z 0) with 0 in HP. lra. }
  set (z := round_half_even (x * p)).
  assert (E : py_round x n * p == inject_Z z).
  { unfold py_round. fold p. fold z. rewrite Qred_correct. field. exact HPq. }
  rewrite (NumFacts.round_half_even_proper _ _ E), round_half_even_int. reflexivity.
Qed.

End RoundFacts.

Module ComponentFacts.

Local Open Scope Q_scope.

Import Ranker.

Ltac bind_red := cbn [mbind option_bind].
Tactic Notation "bind_red" "in" hyp(H) := cbn [mbind option_bind] in H.

Lemma normalize_mono (v1 v2 mn mx : Q) :
  mn <= mx -> v1 <= v2 ->
  exists r1 r2, normalize_to_100 v1 mn mx = Some r1 /\ normalize_to_100 v2 mn mx = Some r2 /\
    r1 <= r2.
Proof.
  intros Hm Hv. unfold normalize_to_100.
  destruct (Qeq_bool mx mn) eqn:E1; [exists 50, 50; split; [done|]; split; [done|]; lra|].
  apply Qeq_bool_neq in E1.
  assert (Hlt : mn < mx) by (apply Qle_lt_or_eq in Hm as [Hm|Hm]; [done|]; exfalso; apply E1; by symmetry).
  unfold py_div.
  assert (E2 : Qeq_bool (mx - mn) 0 = false).
  { destruct (Qeq_bool (mx - mn) 0) eqn:E; [|done]. apply Qeq_bool_iff in E. lra. }
  rewrite E2. bind_red. eexists _, _. split; [reflexivity|]. split; [reflexivity|].
  apply RoundFacts.py_round_mono.
  apply Qmult_le_compat_r; [|lra]. unfold Qdiv. apply Qmult_le_compat_r; [lra|].
  apply Qlt_le_weak, Qinv_lt_0_compat. lra.
Qed.

(** The keys of a dict-building loop only accumulate. *)
Lemma collect_key_mono {A} (f : record -> option (string * A)) (l : list record)
    (acc m : gmap string A) (k : string) :
  collect f l acc = Some m -> is_Some (acc !! k) -> is_Some (m !! k).
Proof.
  revert acc. induction l as [|e l IH]; intros acc H Hk; simpl in H.
  - by injection H as <-.
  - destruct (f e) as [[k' w]|]; bind_red in H; [|discriminate].
    apply (IH _ H). destruct (decide (k' = k)) as [->|Hne].
    + rewrite lookup_insert_eq. by eexists.
    + by rewrite lookup_insert_ne.
Qed.

Lemma collect_key_present {A} (f : record -> option (string * A)) (l : list record)
    (acc m : gmap string A) (e : record) (kv : string * A) :
  collect f l acc = Some m -> e ∈ l -> f e = Some kv -> is_Some (m !! kv.1).
Proof.
  revert acc. induction l as [|e0 l IH]; intros acc H He Hf; [by apply not_elem_of_nil in He|].
  simpl in H. destruct (f e0) as [[k' w]|] eqn:Hf0; bind_red in H; [|discriminate].
  apply elem_of_cons in He as [->|He].
  - rewrite Hf in Hf0. injection Hf0 as ->. eapply collect_key_mono; [exact H|].
    rewrite lookup_insert_eq. by eexists.
  - eapply IH; eauto.
Qed.

Lemma calc_complexity_flow (l : list record) (m : gmap string Q) :
  calculate_complexity_component l = Some m ->
  exists cmap, collect complexity_entry l ∅ = Some cmap /\
    map_mapM (fun score => normalize_to_100 score (py_min (map_to_list cmap).*2)
                             (py_max (map_to_list cmap).*2)) cmap = Some m.
Proof.
  unfold calculate_complexity_component. intros H.
  destruct (collect complexity_entry l ∅) as [cmap|]; bind_red in H; [|discriminate].
  eauto.
Qed.

Lemma in_values (cmap : gmap string Q) (u : string) (a : Q) :
  cmap !! u = Some a -> a ∈ (map_to_list cmap).*2.
Proof.
  intros H. apply list_elem_of_fmap. exists (u, a). split; [done|]. by apply elem_of_map_to_list.
Qed.

Lemma complexity_range (l : list record) (m : gmap string Q) (u : string) (v : Q) :
  calculate_complexity_component l = Some m -> m !! u = Some v -> 0 <= v <= 100.
Proof.
  intros H Hv. destruct (calc_complexity_flow l m H) as (cmap & Hc & Hm).
  destruct (MapFacts.map_mapM_lookup _ _ _ _ _ Hm Hv) as (a & Ha & Hn).
  pose proof (in_values cmap u a Ha) as Hin.
  pose proof (ScoreFacts.py_min_le _ _ Hin) as H1.
  pose proof (ScoreFacts.py_max_ge _ _ Hin) as H2.
  destruct (Qeq_bool (py_max (map_to_list cmap).*2) (py_min (map_to_list cmap).*2)) eqn:E.
  - unfold normalize_to_100 in Hn. rewrite E in Hn. injection Hn as <-. lra.
  - apply Qeq_bool_neq in E.
    assert (Hlt : py_min (map_to_list cmap).*2 < py_max (map_to_list cmap).*2).
    { apply Qle_lt_or_eq in H2 as [H2|H2]; [lra|].
      apply Qle_lt_or_eq in H1 as [H1|H1]; [lra|]. exfalso. apply E. rewrite <- H2. by rewrite H1. }
    destruct (NormalizeFacts.normalize_bounds a _ _ Hlt (conj H1 H2)) as (r & Hr & Hb).
    rewrite Hn in Hr. injection Hr as ->. exact Hb.
Qed.

Lemma nodup_later (l1 l2 : list record) (e e' : record) :
  NoDup (map username (l1 ++ e :: l2)) -> e' ∈ l2 -> username e' <> username e.
Proof.
  intros Hnd He' Eq. rewrite map_app in Hnd. apply NoDup_app in Hnd as (_ & _ & Hnd).
  simpl in Hnd. apply NoDup_cons in Hnd as [Hn _]. apply Hn.
  rewrite <- Eq. by apply list_elem_of_fmap_2.
Qed.

Lemma complexity_last (l : list record) (cmap : gmap string Q) (e : record) (u : string) (s : Q) :
  NoDup (map username l) -> collect complexity_entry l ∅ = Some cmap -> e ∈ l ->
  username e = Some u -> get_num e "total_complexity_score" = Some s -> cmap !! u = Some s.
Proof.
  intros Hnd Hc He Hu Hs. apply list_elem_of_split in He as (l1 & l2 & ->).
  eapply MapFacts.collect_lookup_last; [exact Hc| |].
  - unfold complexity_entry. rewrite Hu, Hs. reflexivity.
  - intros e' kv He' Hkv Hk. apply (nodup_later l1 l2 e e' Hnd He').
    rewrite (ScoreFacts.complexity_entry_key e' kv Hkv), Hu. by rewrite Hk.
Qed.

Lemma complexity_order (l : list record) (m : gmap string Q) (e1 e2 : record) (u1 u2 : string)
    (s1 s2 : Q) :
  NoDup (map username l) -> calculate_complexity_component l = Some m ->
  e1 ∈ l -> e2 ∈ l -> username e1 = Some u1 -> username e2 = Some u2 ->
  get_num e1 "total_complexity_score" = Some s1 -> get_num e2 "total_complexity_score" = Some s2 ->
  s1 <= s2 ->
  exists c1 c2, m !! u1 = Some c1 /\ m !! u2 = Some c2 /\ c1 <= c2.
Proof.
  intros Hnd H He1 He2 Hu1 Hu2 Hs1 Hs2 Hle.
  destruct (calc_complexity_flow l m H) as (cmap & Hc & Hm).
  pose proof (complexity_last l cmap e1 u1 s1 Hnd Hc He1 Hu1 Hs1) as C1.
  pose proof (complexity_last l cmap e2 u2 s2 Hnd Hc He2 Hu2 Hs2) as C2.
  destruct (MapFacts.map_mapM_lookup_Some _ _ _ _ _ Hm C1) as (c1 & M1 & N1).
  destruct (MapFacts.map_mapM_lookup_Some _ _ _ _ _ Hm C2) as (c2 & M2 & N2).
  pose proof (ScoreFacts.py_min_le _ _ (in_values _ _ _ C1)).
  pose proof (ScoreFacts.py_max_ge _ _ (in_values _ _ _ C1)).
  destruct (normalize_mono s1 s2 (py_min (map_to_list cmap).*2) (py_max (map_to_list cmap).*2))
    as (r1 & r2 & R1 & R2 & Hr); [lra|exact Hle|].
  rewrite R1 in N1. rewrite R2 in N2. injection N1 as <-. injection N2 as <-. eauto.
Qed.

End ComponentFacts.

Module MeanFacts.

Local Open Scope Q_scope.

Lemma fold_left_Qplus (xs : list Q) (a : Q) :
  fold_left Qplus xs a == a + fold_right Qplus 0 xs.
Proof.
  revert a. induction xs as [|x xs IH]; intros a; simpl; [ring|]. rewrite IH. ring.
Qed.

Lemma sum_bounds (lo hi : Q) (xs : list Q) :
  Forall (fun x => lo <= x <= hi) xs ->
  inject_Z (Z.of_nat (length xs)) * lo <= fold_right Qplus 0 xs <=
  inject_Z (Z.of_nat (length xs)) * hi.
Proof.
  induction 1 as [|x xs Hx _ IH]; simpl; [change (inject_Z (Z.of_nat 0)) with 0; split; lra|].
  rewrite Nat2Z.inj_succ, <- Z.add_1_r, inject_Z_plus. change (inject_Z 1) with 1.
  set (n := inject_Z (Z.of_nat (length xs))) in *.
  set (S := fold_right Qplus 0 xs) in *.
  assert (E1 : (n + 1) * lo == n * lo + lo) by ring.
  assert (E2 : (n + 1) * hi == n * hi + hi) by ring.
  set (a := n * lo) in *. set (b := n * hi) in *. lra.
Qed.

(** The mean of a non-empty list lies between its bounds. *)
Lemma mean_bounds (lo hi : Q) (xs : list Q) :
  xs <> [] -> Forall (fun x => lo <= x <= hi) xs ->
  lo <= qsum xs / inject_Z (Z.of_nat (length xs)) <= hi.
Proof.
  intros Hne HF. pose proof (sum_bounds lo hi xs HF) as [H1 H2].
  assert (Hl : 0 < inject_Z (Z.of_nat (length xs))).
  { destruct xs as [|x xs]; [done|]. simpl length.
    change 0 with (inject_Z 0). rewrite <- Zlt_Qlt. lia. }
  unfold qsum. rewrite fold_left_Qplus. split.
  - apply Qle_shift_div_l; [exact Hl|]. rewrite Qmult_comm. lra.
  - apply Qle_shift_div_r; [exact Hl|]. rewrite Qmult_comm. lra.
Qed.

Lemma other_score_range (cs : list Q) :
  Forall (fun c => 0 <= c <= 100) cs -> 0 <= Ranker.other_score_of cs <= 100.
Proof.
  intros HF. unfold Ranker.other_score_of.
  apply (NumFacts.py_round_int_bounds _ 2 0 100).
  change (inject_Z 0) with 0. change (inject_Z 100) with 100.
  destruct (List.filter (fun c => Qltb 0 c) cs) as [|c r] eqn:Ef; [lra|].
  rewrite <- Ef. apply mean_bounds; [rewrite Ef; discriminate|].
  apply Forall_forall. intros x Hx. apply list_elem_of_In, filter_In in Hx as [Hx _].
  rewrite Forall_forall in HF. apply HF. by apply list_elem_of_In.
Qed.

End MeanFacts.

Module CompositeFacts.

Local Open Scope Q_scope.

Import Ranker.

Ltac bind_red := cbn [mbind option_bind].
Tactic Notation "bind_red" "in" hyp(H) := cbn [mbind option_bind] in H.

Lemma composite_flow (l : list record) (cs : gmap string scores) :
  calculate_composite_scores l = Some cs ->
  exists cm om, calculate_complexity_component l = Some cm /\
    calculate_other_component l = Some om /\ cs = composite_map cm om.
Proof.
  unfold calculate_composite_scores. intros H.
  destruct (calculate_complexity_component l) as [cm|]; bind_red in H; [|discriminate].
  destruct (calculate_other_component l) as [om|]; bind_red in H; [|discriminate].
  injection H as <-. eauto.
Qed.

Lemma composite_map_lookup (cm om : gmap string Q) (u : string) :
  composite_map cm om !! u = (fun c => composite_of c (default 0 (om !! u))) <$> cm !! u.
Proof. unfold composite_map. rewrite map_lookup_imap. by destruct (cm !! u). Qed.

Lemma composite_domain (l : list record) (cs : gmap string scores) (u : string) :
  calculate_composite_scores l = Some cs ->
  (is_Some (cs !! u) <-> exists e, e ∈ l /\ username e = Some u).
Proof.
  intros H. destruct (composite_flow l cs H) as (cm & om & Hcm & _ & ->).
  rewrite composite_map_lookup, fmap_is_Some.
  destruct (ComponentFacts.calc_complexity_flow l cm Hcm) as (cmap & Hc & Hm).
  transitivity (is_Some (cmap !! u)).
  { split.
    - intros [v Hv]. destruct (MapFacts.map_mapM_lookup _ _ _ _ _ Hm Hv) as (a & Ha & _). eauto.
    - intros [a Ha]. destruct (MapFacts.map_mapM_lookup_Some _ _ _ _ _ Hm Ha) as (v & Hv & _).
      eauto. }
  split.
  - intros [a Ha]. destruct (MapFacts.collect_lookup _ _ _ _ _ _ Hc Ha) as [E|(e & He & Hf)];
      [by rewrite lookup_empty in E|].
    exists e. split; [done|]. exact (ScoreFacts.complexity_entry_key e _ Hf).
  - intros (e & He & Hu).
    destruct (MapFacts.collect_Some_inv _ _ _ _ e Hc He) as [kv Hkv].
    pose proof (ScoreFacts.complexity_entry_key e _ Hkv) as Hk. rewrite Hu in Hk.
    injection Hk as Hk. rewrite Hk.
    exact (ComponentFacts.collect_key_present _ _ _ _ e kv Hc He Hkv).
Qed.

Lemma normalize_in_range (v mn mx r : Q) :
  mn <= v <= mx -> normalize_to_100 v mn mx = Some r -> 0 <= r <= 100.
Proof.
  intros [H1 H2] Hn.
  destruct (Qeq_bool mx mn) eqn:E.
  - unfold normalize_to_100 in Hn. rewrite E in Hn. injection Hn as <-. lra.
  - apply Qeq_bool_neq in E.
    assert (Hlt : mn < mx).
    { apply Qle_lt_or_eq in H2 as [H2|H2]; [lra|].
      apply Qle_lt_or_eq in H1 as [H1|H1]; [lra|]. exfalso. apply E. rewrite <- H2. by rewrite H1. }
    destruct (NormalizeFacts.normalize_bounds v _ _ Hlt (conj H1 H2)) as (r' & Hr & Hb).
    rewrite Hn in Hr. injection Hr as ->. exact Hb.
Qed.

Lemma mapM_elem {B} (f : record -> option B) (l : list record) (ys : list B) (x : record) (y : B) :
  mapM f l = Some ys -> x ∈ l -> f x = Some y -> y ∈ ys.
Proof.
  intros H Hx Hf. apply mapM_Some in H. apply list_elem_of_lookup in Hx as [i Hi].
  destruct (Forall2_lookup_l _ _ _ _ _ H Hi) as (y' & Hy' & Hf').
  rewrite Hf in Hf'. injection Hf' as ->. by eapply list_elem_of_lookup_2.
Qed.

(** The inputs the other component reads lie on their documented scales. *)
Definition inputs_in_range (e : record) : Prop :=
  (forall ai cq qs, get_dict e "ai_analysis" = Some ai -> dget_dict ai "code_quality" = Some cq ->
     dget_num cq "quality_score" = Some qs -> 0 <= qs <= 10) /\
  (forall ai rq th hp, get_dict e "ai_analysis" = Some ai ->
     dget_dict ai "review_quality" = Some rq ->
     dget_num rq "thoroughness_score" = Some th -> dget_num rq "helpfulness_score" = Some hp ->
     0 <= th <= 10 /\ 0 <= hp <= 10) /\
  (forall pr, get_num e "pr_merge_rate" = Some pr -> 0 <= pr <= 100).

Lemma other_range (l : list record) (om : gmap string Q) (u : string) (o : Q) :
  (forall e, e ∈ l -> inputs_in_range e) ->
  calculate_other_component l = Some om -> om !! u = Some o -> 0 <= o <= 100.
Proof.
  intros Hin H Ho. unfold calculate_other_component in H.
  destruct (mapM (fun eng => get_num eng "commit_frequency") l) as [cfs|] eqn:Ecf;
    bind_red in H; [|discriminate].
  destruct (mapM (fun eng => get_num eng "review_participation") l) as [rps|] eqn:Erp;
    bind_red in H; [|discriminate].
  destruct (MapFacts.collect_lookup _ _ _ _ _ _ H Ho) as [E|(e & He & Hf)];
    [by rewrite lookup_empty in E|].
  destruct (Hin e He) as (Hq & Hr & Hp).
  unfold other_entry in Hf. destruct (username e); bind_red in Hf; [|discriminate].
  destruct (other_components _ _ _ _ e) as [comps|] eqn:Hoc; bind_red in Hf; [|discriminate].
  injection Hf as _ <-. apply MeanFacts.other_score_range.
  unfold other_components in Hoc.
  destruct (get_dict e "ai_analysis") as [ai|] eqn:E1; bind_red in Hoc; [|discriminate].
  destruct (dget_dict ai "code_quality") as [cq|] eqn:E2; bind_red in Hoc; [|discriminate].
  destruct (dget_dict ai "review_quality") as [rq|] eqn:E3; bind_red in Hoc; [|discriminate].
  destruct (dget_num cq "quality_score") as [qs|] eqn:E4; bind_red in Hoc; [|discriminate].
  destruct (dget_num rq "thoroughness_score") as [th|] eqn:E5; bind_red in Hoc; [|discriminate].
  destruct (dget_num rq "helpfulness_score") as [hp|] eqn:E6; bind_red in Hoc; [|discriminate].
  destruct (get_num e "commit_frequency") as [cf|] eqn:E7; bind_red in Hoc; [|discriminate].
  destruct (normalize_to_100 cf _ _) as [ncf|] eqn:E8; bind_red in Hoc; [|discriminate].
  destruct (get_num e "pr_merge_rate") as [pr|] eqn:E9; bind_red in Hoc; [|discriminate].
  destruct (get_num e "review_participation") as [rp|] eqn:E10; bind_red in Hoc; [|discriminate].
  destruct (normalize_to_100 rp _ _) as [nrp|] eqn:E11; bind_red in Hoc; [|discriminate].
  injection Hoc as <-.
  pose proof (Hq _ _ _ eq_refl E2 E4) as Bq. pose proof (Hr _ _ _ _ eq_refl E3 E5 E6) as [Bt Bh].
  pose proof (Hp _ eq_refl) as Bp.
  pose proof (mapM_elem _ _ _ e cf Ecf He E7) as Icf.
  pose proof (mapM_elem _ _ _ e rp Erp He E10) as Irp.
  pose proof (normalize_in_range cf _ _ ncf
    (conj (ScoreFacts.py_min_le _ _ Icf) (ScoreFacts.py_max_ge _ _ Icf)) E8) as Bcf.
  pose proof (normalize_in_range rp _ _ nrp
    (conj (ScoreFacts.py_min_le _ _ Irp) (ScoreFacts.py_max_ge _ _ Irp)) E11) as Brp.
  assert (Er : (th + hp) / 2 * 10 == (th + hp) * 5) by field.
  repeat (apply List.Forall_cons; [rewrite ?Er; split; lra|]). apply List.Forall_nil.
Qed.

Lemma composite_range (l : list record) (cs : gmap string scores) (u : string) (s : scores) :
  (forall e, e ∈ l -> inputs_in_range e) ->
  calculate_composite_scores l = Some cs -> cs !! u = Some s ->
  0 <= complexity_component s <= 100 /\ 0 <= other_component s <= 100 /\
  0 <= composite_score s <= 100.
Proof.
  intros Hin H Hs. destruct (composite_flow l cs H) as (cm & om & Hcm & Hom & ->).
  rewrite composite_map_lookup in Hs.
  destruct (cm !! u) as [c|] eqn:Hc; [|discriminate]. injection Hs as <-.
  pose proof (ComponentFacts.complexity_range l cm u c Hcm Hc) as Bc.
  assert (Bo : 0 <= default 0 (om !! u) <= 100).
  { destruct (om !! u) as [o|] eqn:Ho; simpl; [|lra]. exact (other_range l om u o Hin Hom Ho). }
  unfold composite_of. simpl. split; [done|]. split; [done|].
  apply (NumFacts.py_round_int_bounds _ 2 0 100).
  change (inject_Z 0) with 0. change (inject_Z 100) with 100.
  unfold complexity_weight, other_weight. lra.
Qed.

End CompositeFacts.

Module LabelFacts.

Local Open Scope Q_scope.

Import Ranker.

Lemma labels_distinct :
  top_label <> high_label /\ top_label <> above_label /\ top_label <> developing_label /\
  high_label <> above_label /\ high_label <> developing_label /\
  above_label <> developing_label.
Proof. unfold top_label, high_label, above_label, developing_label. repeat split; discriminate. Qed.

Lemma rank_div_mono (r1 r2 n : nat) :
  (r1 <= r2)%nat ->
  inject_Z (Z.of_nat r1) / inject_Z (Z.of_nat n) <= inject_Z (Z.of_nat r2) / inject_Z (Z.of_nat n).
Proof.
  intros H. unfold Qdiv. apply Qmult_le_compat_r.
  - rewrite <- Zle_Qle. lia.
  - apply Qinv_le_0_compat. change 0 with (inject_Z 0). rewrite <- Zle_Qle. lia.
Qed.

Lemma label_not_top (r n : nat) : r <> 1%nat -> get_rank_label r n <> top_label.
Proof.
  intros Hr. unfold get_rank_label. apply Nat.eqb_neq in Hr. rewrite Hr.
  pose proof labels_distinct as (D1 & D2 & D3 & _).
  destruct (Qle_bool _ (10 # 100)); [|destruct (Qle_bool _ (50 # 100))]; congruence.
Qed.

Lemma label_mono (r1 r2 n : nat) :
  (1 <= r1)%nat -> (r1 <= r2)%nat ->
  (get_rank_label r2 n = top_label -> get_rank_label r1 n = top_label) /\
  (get_rank_label r2 n = top_label \/ get_rank_label r2 n = high_label ->
   get_rank_label r1 n = top_label \/ get_rank_label r1 n = high_label) /\
  (get_rank_label r2 n <> developing_label -> get_rank_label r1 n <> developing_label).
Proof.
  intros H1 H12.
  pose proof labels_distinct as (D1 & D2 & D3 & D4 & D5 & D6).
  pose proof (rank_div_mono r1 r2 n H12) as Hd.
  destruct (Nat.eq_dec r1 1%nat) as [->|Hr1].
  { assert (T : get_rank_label 1%nat n = top_label) by reflexivity. rewrite T. auto. }
  assert (Hr2 : r2 <> 1%nat) by lia.
  unfold get_rank_label. apply Nat.eqb_neq in Hr1, Hr2. rewrite Hr1, Hr2.
  set (q1 := inject_Z (Z.of_nat r1) / inject_Z (Z.of_nat n)) in *.
  set (q2 := inject_Z (Z.of_nat r2) / inject_Z (Z.of_nat n)) in *.
  destruct (Qle_bool q2 (10 # 100)) eqn:A2.
  { apply Qle_bool_iff in A2.
    assert (A1 : Qle_bool q1 (10 # 100) = true) by (apply Qle_bool_iff; lra).
    rewrite A1. split; [|split]; auto. }
  destruct (Qle_bool q2 (50 # 100)) eqn:B2.
  { apply Qle_bool_iff in B2.
    assert (B1 : Qle_bool q1 (50 # 100) = true) by (apply Qle_bool_iff; lra).
    rewrite B1. destruct (Qle_bool q1 (10 # 100)).
    - split; [|split]; [congruence|intros [E|E]; congruence|auto].
    - split; [|split]; [congruence|intros [E|E]; congruence|auto]. }
  split; [|split]; [congruence|intros [E|E]; congruence|congruence].
Qed.

Lemma percentile_bounds (i n : nat) :
  (1 <= i <= n)%nat -> 0 <= percentile_of i n <= 100.
Proof.
  intros Hi. unfold percentile_of.
  apply (NumFacts.py_round_int_bounds _ 1 0 100).
  change (inject_Z 0) with 0. change (inject_Z 100) with 100.
  assert (Hn : 0 < inject_Z (Z.of_nat n)) by (change 0 with (inject_Z 0); rewrite <- Zlt_Qlt; lia).
  assert (H0 : 0 <= inject_Z (Z.of_nat i - 1)) by (change 0 with (inject_Z 0); rewrite <- Zle_Qle; lia).
  assert (H1 : inject_Z (Z.of_nat i - 1) <= inject_Z (Z.of_nat n)) by (rewrite <- Zle_Qle; lia).
  assert (F0 : 0 <= inject_Z (Z.of_nat i - 1) / inject_Z (Z.of_nat n)).
  { apply Qle_shift_div_l; [exact Hn|lra]. }
  assert (F1 : inject_Z (Z.of_nat i - 1) / inject_Z (Z.of_nat n) <= 1).
  { apply Qle_shift_div_r; [exact Hn|lra]. }
  split; nra.
Qed.

Lemma percentile_mono (i j n : nat) :
  (1 <= i)%nat -> (i <= j)%nat -> percentile_of j n <= percentile_of i n.
Proof.
  intros Hi Hij. unfold percentile_of. apply RoundFacts.py_round_mono.
  assert (Hd : inject_Z (Z.of_nat i - 1) / inject_Z (Z.of_nat n) <=
               inject_Z (Z.of_nat j - 1) / inject_Z (Z.of_nat n)).
  { unfold Qdiv. apply Qmult_le_compat_r.
    - rewrite <- Zle_Qle. lia.
    - apply Qinv_le_0_compat. change 0 with (inject_Z 0). rewrite <- Zle_Qle. lia. }
  nra.
Qed.

End LabelFacts.

Module SummaryFacts.

Local Open Scope Q_scope.

Import Ranker Summary.

Ltac bind_red := cbn [mbind option_bind].
Tactic Notation "bind_red" "in" hyp(H) := cbn [mbind option_bind] in H.

Lemma filter_split (f : Q -> bool) (xs : list Q) :
  (length (List.filter f xs) + length (List.filter (fun x => negb (f x)) xs))%nat = length xs.
Proof. induction xs as [|x xs IH]; simpl; [done|]. destruct (f x); simpl; lia. Qed.

Lemma filter_le (f g : Q -> bool) (xs : list Q) :
  (forall x, f x = true -> g x = true) ->
  (length (List.filter f xs) <= length (List.filter g xs))%nat.
Proof.
  intros Hfg. induction xs as [|x xs IH]; simpl; [done|].
  destruct (f x) eqn:F; [rewrite (Hfg x F); simpl; lia|]. destruct (g x); simpl; lia.
Qed.

Lemma mapM_length {A B} (f : A -> option B) (l : list A) (l' : list B) :
  mapM f l = Some l' -> length l' = length l.
Proof. intros H. apply mapM_Some in H. symmetry. by eapply Forall2_length. Qed.

Lemma summary_counts (ranked : list record) (s : rank_summary) :
  get_rank_summary ranked = Some (Some s) ->
  (top_50_percent s + bottom_50_percent s = total_engineers s)%nat /\
  (top_10_percent s <= top_50_percent s)%nat.
Proof.
  intros H. destruct ranked as [|top rest]; [discriminate|]. unfold get_rank_summary in H.
  destruct (mapM (fun eng => field_num eng "composite_score") (top :: rest)) as [cs|] eqn:Ecs; bind_red in H; [|discriminate].
  destruct (top !! "github_username") as [tp|]; bind_red in H; [|discriminate].
  destruct (field_num top "composite_score") as [ts|]; bind_red in H; [|discriminate].
  destruct (mapM (fun e => field_num e "percentile") (top :: rest)) as [ps|] eqn:Eps;
    bind_red in H; [|discriminate].
  injection H as <-. cbn [top_50_percent bottom_50_percent total_engineers top_10_percent]. split.
  - change (S (length rest)) with (length (top :: rest)). rewrite <- (mapM_length _ _ _ Eps). rewrite <- (filter_split (fun p => Qle_bool 50 p) ps).
    f_equal.
  - apply filter_le. intros x Hx. apply Qle_bool_iff in Hx. apply Qle_bool_iff. lra.
Qed.

Lemma mapM_total {A B} (f : A -> option B) (g : A -> B) (l : list A) :
  (forall x, x ∈ l -> f x = Some (g x)) -> mapM f l = Some (map g l).
Proof.
  induction l as [|x l IH]; intros H; simpl; [done|].
  rewrite (H x ltac:(left)). bind_red. rewrite IH; [done|].
  intros y Hy. apply H. by right.
Qed.

Lemma fold_max_head (r : list Q) (x : Q) :
  Forall (fun y => y <= x) r -> fold_left (fun m y => if Qltb m y then y else m) r x = x.
Proof.
  induction r as [|y r IH]; intros HF; simpl; [done|].
  inversion HF; subst. unfold Qltb.
  assert (E : Qle_bool y x = true) by (apply Qle_bool_iff; assumption).
  rewrite E. simpl. by apply IH.
Qed.

Lemma py_max_head (x : Q) (r : list Q) :
  Forall (fun y => y <= x) r -> py_max (x :: r) = x.
Proof. apply fold_max_head. Qed.

Lemma sort_key_set_rank (i n : nat) (e : record) : sort_key (set_rank i n e) = sort_key e.
Proof.
  unfold sort_key. rewrite RankFacts.set_rank_other; [done|].
  apply (bool_decide_unpack _); vm_compute; reflexivity.
Qed.

Lemma py_round_zero (n : nat) : py_round 0 n = 0.
Proof.
  unfold py_round. change (0 * inject_Z (10 ^ Z.of_nat n)) with 0.
  change (round_half_even 0) with 0%Z. reflexivity.
Qed.

(** Every composite score on a ranked record is a value rounded to 2 decimals. *)
Lemma ranked_score_rounded (l out : list record) (r : record) :
  l <> [] -> rank_engineers l = Some out -> r ∈ out ->
  r !! "composite_score" = Some (PNum (sort_key r)) /\ py_round (sort_key r) 2 = sort_key r.
Proof.
  intros Hne H Hr.
  destruct (RankFacts.rank_flow l out Hne H) as (cs & scored & Hcs & _ & _).
  destruct (RankFacts.rank_record l out cs r Hne H Hcs Hr) as (u & _ & _ & _ & Hc).
  unfold sort_key. rewrite Hc. split; [done|].
  destruct (cs !! u) as [s|] eqn:Hs; simpl; [|apply py_round_zero].
  destruct (CompositeFacts.composite_flow l cs Hcs) as (cm & om & _ & _ & ->).
  rewrite CompositeFacts.composite_map_lookup in Hs.
  destruct (cm !! u); [|discriminate]. injection Hs as <-. simpl.
  apply RoundFacts.py_round_idem.
Qed.

End SummaryFacts.

Module RankOutputFacts.

Local Open Scope Q_scope.

Import Ranker Summary.

Ltac bind_red := cbn [mbind option_bind].
Tactic Notation "bind_red" "in" hyp(H) := cbn [mbind option_bind] in H.

Lemma rank_out_lookup (l out : list record) (i : nat) (r : record) :
  rank_engineers l = Some out -> out !! i = Some r ->
  (i < length l)%nat /\
  r !! "rank_label" = Some (PStr (get_rank_label (S i) (length l))) /\
  r !! "percentile" = Some (PNum (percentile_of (S i) (length l))).
Proof.
  intros H Hr. pose proof (RankFacts.rank_length l out H) as Hlen.
  split; [rewrite <- Hlen; by eapply lookup_lt_Some|].
  destruct l as [|e0 l0]; [injection H as <-; by rewrite lookup_nil in Hr|].
  destruct (RankFacts.rank_flow (e0 :: l0) out ltac:(discriminate) H) as (cs & scored & _ & Hsc & Hout).
  assert (Hn : length scored = length (e0 :: l0)).
  { symmetry. eapply Forall2_length. exact (RankFacts.scored_shape cs _ scored Hsc). }
  rewrite Hout, list_lookup_imap in Hr.
  destruct (sorted_desc scored !! i) as [e|]; [|discriminate]. injection Hr as <-.
  rewrite Hn. unfold set_rank. split.
  - by rewrite lookup_insert_eq.
  - rewrite lookup_insert_ne by discriminate. by rewrite lookup_insert_eq.
Qed.

Lemma rank_output_order (l out : list record) :
  rank_engineers l = Some out ->
  (forall i r, out !! i = Some r ->
     r !! "rank_label" = Some (PStr top_label) <-> i = 0%nat) /\
  (forall i j ri rj, (i <= j)%nat -> out !! i = Some ri -> out !! j = Some rj ->
     exists pi pj, ri !! "percentile" = Some (PNum pi) /\ rj !! "percentile" = Some (PNum pj) /\
       0 <= pj /\ pj <= pi /\ pi <= 100).
Proof.
  intros H. split.
  - intros i r Hr. destruct (rank_out_lookup l out i r H Hr) as (_ & Hl & _). rewrite Hl.
    split.
    + intros E. injection E as E. destruct i as [|i]; [done|].
      exfalso. exact (LabelFacts.label_not_top (S (S i)) (length l) ltac:(lia) E).
    + intros ->. reflexivity.
  - intros i j ri rj Hij Hi Hj.
    destruct (rank_out_lookup l out i ri H Hi) as (Li & _ & Pi).
    destruct (rank_out_lookup l out j rj H Hj) as (Lj & _ & Pj).
    exists (percentile_of (S i) (length l)), (percentile_of (S j) (length l)).
    split; [done|]. split; [done|].
    pose proof (LabelFacts.percentile_bounds (S i) (length l) ltac:(lia)) as Bi.
    pose proof (LabelFacts.percentile_bounds (S j) (length l) ltac:(lia)) as Bj.
    pose proof (LabelFacts.percentile_mono (S i) (S j) (length l) ltac:(lia) ltac:(lia)) as M.
    lra.
Qed.

Lemma map_key_imap (g : nat -> record -> record) (l : list record) :
  (forall i e, sort_key (g i e) = sort_key e) -> map sort_key (imap g l) = map sort_key l.
Proof.
  revert g. induction l as [|e l IH]; intros g Hg; simpl; [done|].
  rewrite Hg. f_equal. apply IH. intros i e'. apply Hg.
Qed.

Lemma rank_summary_of_output (l out : list record) :
  l <> [] -> rank_engineers l = Some out ->
  exists s r0 u,
    get_rank_summary out = Some (Some s) /\
    out !! 0%nat = Some r0 /\
    r0 !! "github_username" = Some (PStr u) /\
    r0 !! "rank" = Some (PNum 1) /\
    top_performer s = PStr u /\
    total_engineers s = length l /\
    top_performer_score s = max_composite_score s /\
    min_composite_score s <= avg_composite_score s <= max_composite_score s.
Proof.
  intros Hne H. pose proof (RankFacts.rank_length l out H) as Hlen.
  destruct (RankFacts.rank_flow l out Hne H) as (cs & scored & Hcs & Hsc & Hout).
  set (ranked := sorted_desc scored) in Hout.
  assert (Hkeys : map sort_key out = map sort_key ranked).
  { rewrite Hout. apply map_key_imap. intros i e. apply SummaryFacts.sort_key_set_rank. }
  assert (Hcsm : mapM (fun eng => field_num eng "composite_score") out = Some (map sort_key out)).
  { apply SummaryFacts.mapM_total. intros x Hx.
    destruct (SummaryFacts.ranked_score_rounded l out x Hne H Hx) as [E _].
    unfold field_num. rewrite E. reflexivity. }
  assert (Hps : is_Some (mapM (fun e => field_num e "percentile") out)).
  { apply MergeFacts.mapM_is_Some. intros x Hx. apply list_elem_of_lookup in Hx as [i Hi].
    destruct (rank_out_lookup l out i x H Hi) as (_ & _ & P). unfold field_num. rewrite P.
    by eexists. }
  destruct Hps as [ps Hps].
  destruct out as [|r0 rest] eqn:Eout.
  { destruct l; [done|discriminate]. }
  destruct ranked as [|e0 rrest] eqn:Er; [discriminate|].
  assert (Hr0 : r0 = set_rank 1 (length scored) e0).
  { simpl in Hout. injection Hout as E _. done. }
  assert (Hin0 : r0 ∈ r0 :: rest) by left.
  destruct (RankFacts.rank_record l (r0 :: rest) cs r0 Hne H Hcs Hin0) as (u & Hu & _).
  assert (Hgu : r0 !! "github_username" = Some (PStr u)).
  { unfold username in Hu. destruct (r0 !! "github_username") as [[]|]; congruence. }
  destruct (SummaryFacts.ranked_score_rounded l _ r0 Hne H Hin0) as [Hc0 _].
  (* the head carries the greatest score *)
  pose proof (SortFacts.sorted_sorted sort_key scored) as Hss.
  fold (sorted_desc scored) in Hss. fold ranked in Hss. rewrite Er in Hss.
  apply StronglySorted_inv in Hss as [_ Hhead].
  assert (Hk0 : sort_key r0 = sort_key e0) by (rewrite Hr0; apply SummaryFacts.sort_key_set_rank).
  assert (Hmax : py_max (map sort_key (r0 :: rest)) = sort_key r0).
  { rewrite Hkeys. simpl. rewrite Hk0. apply SummaryFacts.py_max_head.
    apply Forall_map. eapply Forall_impl; [exact Hhead|]. intros y Hy. exact Hy. }
  (* every score is already rounded *)
  set (xs := map sort_key (r0 :: rest)) in *.
  assert (Hround : Forall (fun x => py_round x 2 = x) xs).
  { apply Forall_forall. intros x Hx. apply list_elem_of_In, in_map_iff in Hx as (r & <- & Hr).
    apply list_elem_of_In in Hr. exact (proj2 (SummaryFacts.ranked_score_rounded l _ r Hne H Hr)). }
  assert (Hxs : xs <> []) by discriminate.
  eexists _, r0, u. unfold get_rank_summary.
  rewrite Hcsm. bind_red. rewrite Hgu. bind_red. assert (Hts : field_num r0 "composite_score" = Some (sort_key r0)) by (unfold field_num; rewrite Hc0; reflexivity). rewrite Hts. bind_red.
  rewrite Hps. bind_red.
  split; [reflexivity|]. split; [reflexivity|]. split; [done|].
  split.
  { rewrite Hr0. unfold set_rank. rewrite lookup_insert_ne by discriminate.
    rewrite lookup_insert_ne by discriminate. by rewrite lookup_insert_eq. }
  cbn [top_performer total_engineers top_performer_score max_composite_score
       min_composite_score avg_composite_score].
  split; [done|]. split; [done|]. split; [by rewrite Hmax|].
  fold xs.
  assert (HB : py_min xs <= qsum xs / inject_Z (Z.of_nat (length xs)) <= py_max xs).
  { apply MeanFacts.mean_bounds; [exact Hxs|]. apply Forall_forall. intros x Hx.
    split; [apply ScoreFacts.py_min_le|apply ScoreFacts.py_max_ge]; exact Hx. }
  pose proof (NumFacts.py_min_prop (fun x => py_round x 2 = x) xs Hxs Hround) as Rmin.
  pose proof (NumFacts.py_max_prop (fun x => py_round x 2 = x) xs Hxs Hround) as Rmax.
  cbv beta in Rmin, Rmax. destruct HB as [HB1 HB2].
  apply (RoundFacts.py_round_mono _ _ 2) in HB1, HB2. rewrite Rmin in HB1. rewrite Rmax in HB2.
  split; assumption.
Qed.

End RankOutputFacts.

Module CalcFacts.

Local Open Scope Q_scope.

Import Calc.

Lemma pr_merge_rate_range (prs_created prs_merged : Z) :
  (0 <= prs_merged <= prs_created)%Z ->
  0 <= calculate_pr_merge_rate prs_created prs_merged <= 100.
Proof.
  intros Hm. unfold calculate_pr_merge_rate.
  destruct (Z.eqb_spec prs_created 0) as [->|Hc]; [lra|].
  apply (NumFacts.py_round_int_bounds _ 1 0 100).
  change (inject_Z 0) with 0. change (inject_Z 100) with 100.
  assert (Hp : 0 < inject_Z prs_created) by (change 0 with (inject_Z 0); rewrite <- Zlt_Qlt; lia).
  assert (H0 : 0 <= inject_Z prs_merged) by (change 0 with (inject_Z 0); rewrite <- Zle_Qle; lia).
  assert (H1 : inject_Z prs_merged <= inject_Z prs_created) by (rewrite <- Zle_Qle; lia).
  assert (F0 : 0 <= inject_Z prs_merged / inject_Z prs_created).
  { apply Qle_shift_div_l; [exact Hp|lra]. }
  assert (F1 : inject_Z prs_merged / inject_Z prs_created <= 1).
  { apply Qle_shift_div_r; [exact Hp|lra]. }
  lra.
Qed.

Lemma ratio_nonneg (a b : Z) (n : nat) :
  (0 <= a)%Z -> (0 < b)%Z -> 0 <= py_round (inject_Z a / inject_Z b) n.
Proof.
  intros Ha Hb.
  assert (Hp : 0 < inject_Z b) by (change 0 with (inject_Z 0); rewrite <- Zlt_Qlt; lia).
  assert (H0 : 0 <= inject_Z a) by (change 0 with (inject_Z 0); rewrite <- Zle_Qle; lia).
  assert (F0 : 0 <= inject_Z a / inject_Z b) by (apply Qle_shift_div_l; [exact Hp|lra]).
  pose proof (RoundFacts.py_round_mono 0 _ n F0) as M.
  rewrite SummaryFacts.py_round_zero in M. exact M.
Qed.

End CalcFacts.

Module DerivedFacts.

Local Open Scope Q_scope.

Import InPlace.

Ltac bind_red := cbn [mbind option_bind].
Tactic Notation "bind_red" "in" hyp(H) := cbn [mbind option_bind] in H.

Lemma get_num_insert_ne (d : record) (k k' : string) (v : pyval) :
  k' <> k -> get_num (<[k' := v]> d) k = get_num d k.
Proof. intros Hk. unfold get_num. by rewrite lookup_insert_ne. Qed.

(** The three fields [derive_user] writes are never among those it reads. *)
Lemma derive_user_shape (d d' : record) :
  Derived.derive_user d = Some d' ->
  exists total_commits total_tickets prs_created reviews_given tickets_closed,
    get_num d "total_commits" = Some total_commits /\
    get_num d "total_tickets" = Some total_tickets /\
    get_num d "prs_created" = Some prs_created /\
    get_num d "reviews_given" = Some reviews_given /\
    get_num d "tickets_closed" = Some tickets_closed /\
    d' = <["ticket_closure_rate" :=
             if Qltb 0 total_tickets
             then PNum (py_round ((tickets_closed / total_tickets) * 100) 1) else PNum 0]>
         (<["activity_score" :=
             PNum (py_round (total_commits * 1 + prs_created * 2 + reviews_given * (3 # 2)
                             + total_tickets * 1) 1)]>
          (<["commits_per_ticket" :=
              if Qltb 0 total_tickets
              then PNum (py_round (total_commits / total_tickets) 1) else PNum 0]> d)).
Proof.
  unfold Derived.derive_user.
  destruct (get_num d "total_commits") as [tc|] eqn:E1; bind_red; [|discriminate].
  destruct (get_num d "total_tickets") as [tt|] eqn:E2; bind_red; [|discriminate].
  rewrite ?get_num_insert_ne by discriminate.
  destruct (get_num d "prs_created") as [pc|] eqn:E3; bind_red; [|discriminate].
  rewrite ?get_num_insert_ne by discriminate.
  destruct (get_num d "reviews_given") as [rg|] eqn:E4; bind_red; [|discriminate].
  rewrite ?get_num_insert_ne by discriminate.
  destruct (get_num d "tickets_closed") as [tcl|] eqn:E5; bind_red; [|discriminate].
  intros [= <-]. exists tc, tt, pc, rg, tcl. auto 6.
Qed.

(** A record [derive_user] produced is left as it is by a second run. *)
Lemma derive_user_fix (d d' : record) :
  Derived.derive_user d = Some d' -> Derived.derive_user d' = Some d'.
Proof.
  intros H. destruct (derive_user_shape d d' H) as (tc & tt & pc & rg & tcl & E1 & E2 & E3 & E4 & E5 & ->).
  unfold Derived.derive_user.
  rewrite ?get_num_insert_ne by discriminate. rewrite E1. bind_red.
  rewrite ?get_num_insert_ne by discriminate. rewrite E2. bind_red.
  rewrite ?get_num_insert_ne by discriminate. rewrite E3. bind_red.
  rewrite ?get_num_insert_ne by discriminate. rewrite E4. bind_red.
  rewrite ?get_num_insert_ne by discriminate. rewrite E5. bind_red.
  f_equal. apply map_eq. intros k.
  destruct (decide (k = "ticket_closure_rate")) as [->|K1]; [by rewrite !lookup_insert_eq|].
  destruct (decide (k = "activity_score")) as [->|K2].
  { rewrite lookup_insert_ne by discriminate. rewrite lookup_insert_eq.
    rewrite lookup_insert_ne by discriminate. by rewrite lookup_insert_eq. }
  destruct (decide (k = "commits_per_ticket")) as [->|K3].
  { rewrite !lookup_insert_ne by discriminate. rewrite lookup_insert_eq.
    rewrite !lookup_insert_ne by discriminate. by rewrite lookup_insert_eq. }
  rewrite !lookup_insert_ne by congruence.
  reflexivity.
Qed.

Lemma update_outside (f : nat -> record -> option record) (i : nat) (h h' : heap)
    (ls : list loc) (l : loc) :
  update_each_from f i h ls = Some h' -> l ∉ ls -> h' !! l = h !! l.
Proof.
  revert i h. induction ls as [|l0 r IH]; intros i h H Hl; simpl in H.
  - by injection H as <-.
  - apply not_elem_of_cons in Hl as [Hne Hl].
    destruct (h !! l0) as [d0|]; bind_red in H; [|discriminate].
    destruct (f i d0) as [d0'|]; bind_red in H; [|discriminate].
    rewrite (IH _ _ H Hl). by apply lookup_insert_ne.
Qed.

Section Fix.

Variable f : record -> option record.
Hypothesis f_fix : forall d d', f d = Some d' -> f d' = Some d'.

Lemma update_fixpoints (i : nat) (h h' : heap) (ls : list loc) :
  update_each_from (fun _ => f) i h ls = Some h' ->
  forall l, l ∈ ls -> exists d, h' !! l = Some d /\ f d = Some d.
Proof.
  revert i h. induction ls as [|l0 r IH]; intros i h H l Hl; simpl in H.
  - by apply not_elem_of_nil in Hl.
  - destruct (h !! l0) as [d0|]; bind_red in H; [|discriminate].
    destruct (f d0) as [d0'|] eqn:Hf; bind_red in H; [|discriminate].
    destruct (decide (l ∈ r)) as [Hr|Hr]; [exact (IH _ _ H l Hr)|].
    apply elem_of_cons in Hl as [->|Hl]; [|done].
    exists d0'. split; [|exact (f_fix _ _ Hf)].
    rewrite (update_outside _ _ _ _ _ l0 H Hr). apply lookup_insert_eq.
Qed.

Lemma update_id (i : nat) (h : heap) (ls : list loc) :
  (forall l, l ∈ ls -> exists d, h !! l = Some d /\ f d = Some d) ->
  update_each_from (fun _ => f) i h ls = Some h.
Proof.
  revert i. induction ls as [|l0 r IH]; intros i Hfix; simpl; [done|].
  destruct (Hfix l0 ltac:(left)) as (d & Hd & Hfd). rewrite Hd. bind_red. rewrite Hfd. bind_red.
  rewrite insert_id by exact Hd. apply IH. intros l Hl. apply Hfix. by right.
Qed.

End Fix.

End DerivedFacts.

Module ComplexityFacts.

Local Open Scope Q_scope.

Import Complexity.

Ltac bind_red := cbn [mbind option_bind].
Tactic Notation "bind_red" "in" hyp(H) := cbn [mbind option_bind] in H.

Section Sound.

Variable py_float : pyval -> option Q.

(** The value a field value's dict yields: its [number], or its [text]
    when there is no [number]. *)
Definition field_score (kvs : list (string * pyval)) (q : Q) : Prop :=
  (exists n, dict_get kvs "number" = Some n /\ py_float n = Some q) \/
  (dict_get kvs "number" = None /\
   exists t, dict_get kvs "text" = Some t /\ py_float t = Some q).

Definition complexity_field (fv : pyval) (q : Q) : Prop :=
  exists kvs fld name,
    fv = PDict kvs /\
    py_get fv "field" (PDict []) = Some fld /\
    py_get fld "name" (PStr EmptyString) = Some (PStr name) /\
    str_contains "complexity" (py_lower name) = true /\
    field_score kvs q.

Lemma scan_field_values_sound (fvs : list pyval) (q : Q) :
  scan_field_values py_float fvs = Some (Some q) ->
  exists fv, fv ∈ fvs /\ complexity_field fv q.
Proof.
  induction fvs as [|fv r IH]; intros H; simpl in H; [discriminate|].
  assert (Hr : scan_field_values py_float r = Some (Some q) -> exists fv', fv' ∈ fv :: r /\ complexity_field fv' q).
  { intros Hs. destruct (IH Hs) as (fv' & Hin & Hc). exists fv'. split; [by right|done]. }
  destruct (py_get fv "field" (PDict [])) as [fld|] eqn:E1; bind_red in H; [|discriminate].
  destruct (py_get fld "name" (PStr EmptyString)) as [name|] eqn:E2; bind_red in H; [|discriminate].
  destruct (py_lower_val name) as [fname|] eqn:E3; bind_red in H; [|discriminate].
  destruct (str_contains "complexity" fname) eqn:E4; [|exact (Hr H)].
  destruct fv as [| | | |kvs]; try discriminate.
  destruct name as [| |s| |]; try discriminate. injection E3 as <-.
  destruct (dict_get kvs "number") as [n|] eqn:E5.
  - destruct (py_float n) as [q'|] eqn:E6; bind_red in H; [|discriminate].
    injection H as <-. exists (PDict kvs). split; [left|].
    exists kvs, fld, s. repeat split; try done. left. eauto.
  - destruct (dict_get kvs "text") as [t|] eqn:E6; [|exact (Hr H)].
    destruct (py_float t) as [q'|] eqn:E7; [|exact (Hr H)].
    injection H as <-. exists (PDict kvs). split; [left|].
    exists kvs, fld, s. repeat split; try done. right. eauto.
Qed.

Lemma scan_project_items_sound (pis : list pyval) (q : Q) :
  scan_project_items py_float pis = Some (Some q) ->
  exists pi fvs nodes fvals fv,
    pi ∈ pis /\
    py_get pi "fieldValues" (PDict []) = Some fvs /\
    py_get fvs "nodes" (PList []) = Some nodes /\
    py_iter nodes = Some fvals /\
    fv ∈ fvals /\ complexity_field fv q.
Proof.
  induction pis as [|pi r IH]; intros H; simpl in H; [discriminate|].
  destruct (py_get pi "fieldValues" (PDict [])) as [fvs|] eqn:E1; bind_red in H; [|discriminate].
  destruct (py_get fvs "nodes" (PList [])) as [nodes|] eqn:E2; bind_red in H; [|discriminate].
  destruct (py_iter nodes) as [fvals|] eqn:E3; bind_red in H; [|discriminate].
  destruct (scan_field_values py_float fvals) as [[q'|]|] eqn:E4; bind_red in H; [| |discriminate].
  - injection H as <-. destruct (scan_field_values_sound fvals q' E4) as (fv & Hfv & Hc).
    exists pi, fvs, nodes, fvals, fv. split; [left|]. auto.
  - destruct (IH H) as (pi' & fvs' & nodes' & fvals' & fv' & Hin & R).
    exists pi', fvs', nodes', fvals', fv'. split; [by right|exact R].
Qed.

End Sound.

End ComplexityFacts.

Module PRFacts.

Import PullRequests.

Local Open Scope Q_scope.

Ltac bind_red := cbn [mbind option_bind].
Tactic Notation "bind_red" "in" hyp(H) := cbn [mbind option_bind] in H.

Lemma metrics_of_update (k : string) (f : pr_metrics -> pr_metrics) um u :
  metrics_of (update k f um) u = if String.eqb k u then f (metrics_of um u) else metrics_of um u.
Proof.
  unfold update, metrics_of at 1. destruct (String.eqb_spec k u) as [<-|Hne].
  - by rewrite lookup_insert_eq.
  - rewrite lookup_insert_ne by congruence. reflexivity.
Qed.

(** The pull-request counters of a user. *)
Definition counters (m : pr_metrics) : nat * nat * Z * Z :=
  (prs_created m, prs_merged m, pr_additions m, pr_deletions m).

Lemma process_review_counters chb pr un um node um' :
  process_review chb pr un um node = Some um' -> forall u, counters (metrics_of um' u) = counters (metrics_of um u).
Proof.
  intros H u. destruct node as [rv|]; [|discriminate]. simpl in H.
  destruct (review_author_login rv) as [rl|]; [|injection H as <-; done].
  destruct (str_truthy rl); [|injection H as <-; done].
  injection H as <-. rewrite !metrics_of_update.
  destruct (String.eqb rl u), (String.eqb un u); reflexivity.
Qed.

Lemma process_reviews_counters chb pr un um nodes um' :
  process_reviews chb pr un um nodes = Some um' -> forall u, counters (metrics_of um' u) = counters (metrics_of um u).
Proof.
  revert um. induction nodes as [|n rest IH]; intros um H u; simpl in H.
  - by injection H as <-.
  - destruct (process_review chb pr un um n) as [um1|] eqn:E; bind_red in H; [|discriminate].
    rewrite (IH um1 H u). exact (process_review_counters _ _ _ _ _ _ E u).
Qed.


(** The pull requests [for pr in prs] credits to [u]: a truthy author login equal to [u]. *)
Definition authored_by (u : string) (pr : pull_request) : bool :=
  match author_login pr with Some a => str_truthy a && String.eqb a u | None => false end.

Definition Zsum (f : pull_request -> Z) (prs : list pull_request) : Z :=
  foldr (fun pr acc => (f pr + acc)%Z) 0%Z prs.

Lemma process_prs_from_counters chb um0 prs um :
  process_prs_from chb um0 prs = Some um -> forall u,
  counters (metrics_of um u) =
    ((prs_created (metrics_of um0 u) + length (List.filter (authored_by u) prs))%nat,
     (prs_merged (metrics_of um0 u)
        + length (List.filter (fun pr => authored_by u pr && truthy (mergedAt pr)) prs))%nat,
     (pr_additions (metrics_of um0 u) + Zsum additions (List.filter (authored_by u) prs))%Z,
     (pr_deletions (metrics_of um0 u) + Zsum deletions (List.filter (authored_by u) prs))%Z).
Proof.
  revert um0. induction prs as [|pr rest IH]; intros um0 H u; simpl in H.
  - injection H as <-. unfold counters. simpl. f_equal; [f_equal; [f_equal|]|]; lia.
  - destruct (process_pr chb um0 pr) as [um1|] eqn:E; bind_red in H; [|discriminate].
    rewrite (IH um1 H u). unfold process_pr in E. cbn [List.filter Zsum foldr].
    destruct (authored_by u pr) eqn:Hab.
    + unfold authored_by in Hab.
      destruct (author_login pr) as [un|]; [|discriminate].
      apply andb_true_iff in Hab as [Ht Hu]. apply String.eqb_eq in Hu as ->. rewrite Ht in E.
      destruct (review_nodes pr) as [nodes|]; bind_red in E; [|discriminate].
      pose proof (process_reviews_counters _ _ _ _ _ _ E u) as Hc.
      unfold counters in Hc. rewrite metrics_of_update, String.eqb_refl in Hc.
      injection Hc as -> -> -> ->. cbn [andb length prs_created prs_merged pr_additions pr_deletions count_pr].
      unfold Zsum. cbn [foldr].
      destruct (truthy (mergedAt pr)); cbn [andb length]; repeat (apply pair_equal_spec; split); lia.
    + cbn [andb].
      destruct (author_login pr) as [un|] eqn:Ea.
      2:{ injection E as <-. reflexivity. }
      destruct (str_truthy un) eqn:Et.
      2:{ injection E as <-. reflexivity. }
      destruct (review_nodes pr) as [nodes|]; bind_red in E; [|discriminate].
      pose proof (process_reviews_counters _ _ _ _ _ _ E u) as Hc.
      unfold counters in Hc. rewrite metrics_of_update in Hc.
      unfold authored_by in Hab. rewrite Ea, Et in Hab. cbn [andb] in Hab. rewrite Hab in Hc.
      injection Hc as -> -> -> ->. reflexivity.
Qed.

(** The review a node credits, with its reviewer's login: none for a
    [null] node or a reviewer without a truthy login. *)
Definition credit (node : option review) : option (string * review) :=
  match node with
  | Some rv =>
    match review_author_login rv with
    | Some rl => if str_truthy rl then Some (rl, rv) else None
    | None => None
    end
  | None => None
  end.

Definition given_of (pr : pull_request) (u : string) (c : option (string * review))
    : list review_given :=
  match c with
  | Some (rl, rv) => if String.eqb rl u then [mk_given (number pr) (repo pr) (review_createdAt rv)] else []
  | None => []
  end.

Definition received_of (pr : pull_request) (c : option (string * review)) : list review_received :=
  match c with
  | Some (rl, rv) => [mk_received (number pr) (repo pr) rl (review_createdAt rv)]
  | None => []
  end.

Definition time_of (chb : string -> string -> Q) (pr : pull_request) (u : string)
    (c : option (string * review)) : list Q :=
  match c with
  | Some (rl, rv) => if String.eqb rl u then [chb (createdAt pr) (review_createdAt rv)] else []
  | None => []
  end.

(** The review nodes read for a pull request: none without an author. *)
Definition pr_nodes (pr : pull_request) : list (option review) :=
  if truthy (author_login pr) then default [] (review_nodes pr) else [].

Definition given_entries (u : string) (pr : pull_request) : list review_given :=
  flat_map (fun n => given_of pr u (credit n)) (pr_nodes pr).

Definition received_entries (u : string) (pr : pull_request) : list review_received :=
  if authored_by u pr then flat_map (fun n => received_of pr (credit n)) (pr_nodes pr) else [].

Definition time_entries (chb : string -> string -> Q) (u : string) (pr : pull_request) : list Q :=
  flat_map (fun n => time_of chb pr u (credit n)) (pr_nodes pr).

Lemma process_review_lists chb pr un um node um' :
  process_review chb pr un um node = Some um' -> forall u,
  reviews_given (metrics_of um' u) = reviews_given (metrics_of um u) ++ given_of pr u (credit node) /\
  reviews_received (metrics_of um' u) =
    reviews_received (metrics_of um u) ++ (if String.eqb un u then received_of pr (credit node) else []) /\
  review_times (metrics_of um' u) = review_times (metrics_of um u) ++ time_of chb pr u (credit node).
Proof.
  intros H u. destruct node as [rv|]; [|discriminate]. unfold process_review in H. cbn [credit].
  destruct (review_author_login rv) as [rl|];
    [|injection H as <-; destruct (String.eqb un u); cbn; rewrite ?app_nil_r; repeat split].
  destruct (str_truthy rl);
    [|injection H as <-; destruct (String.eqb un u); cbn; rewrite ?app_nil_r; repeat split].
  injection H as <-. rewrite !metrics_of_update. cbn [given_of received_of time_of].
  destruct (String.eqb rl u), (String.eqb un u); cbn; rewrite ?app_nil_r; repeat split.
Qed.

Lemma process_reviews_lists chb pr un um nodes um' :
  process_reviews chb pr un um nodes = Some um' -> forall u,
  reviews_given (metrics_of um' u) =
    reviews_given (metrics_of um u) ++ flat_map (fun n => given_of pr u (credit n)) nodes /\
  reviews_received (metrics_of um' u) =
    reviews_received (metrics_of um u) ++
      (if String.eqb un u then flat_map (fun n => received_of pr (credit n)) nodes else []) /\
  review_times (metrics_of um' u) =
    review_times (metrics_of um u) ++ flat_map (fun n => time_of chb pr u (credit n)) nodes.
Proof.
  revert um. induction nodes as [|n rest IH]; intros um H u; simpl in H.
  - injection H as <-. destruct (String.eqb un u); cbn [flat_map]; rewrite ?app_nil_r; repeat split.
  - destruct (process_review chb pr un um n) as [um1|] eqn:E; bind_red in H; [|discriminate].
    destruct (IH um1 H u) as (G & R & T).
    destruct (process_review_lists _ _ _ _ _ _ E u) as (G1 & R1 & T1).
    rewrite G, R, T, G1, R1, T1. cbn [flat_map]. rewrite <- !app_assoc.
    destruct (String.eqb un u); rewrite ?app_nil_r; repeat split.
Qed.

Lemma entries_unauthored chb u pr :
  truthy (author_login pr) = false ->
  given_entries u pr = [] /\ received_entries u pr = [] /\ time_entries chb u pr = [].
Proof.
  intros Ht. unfold given_entries, received_entries, time_entries, pr_nodes, authored_by.
  rewrite Ht. unfold truthy in Ht.
  destruct (author_login pr) as [un|]; [rewrite Ht|]; repeat split.
Qed.

Lemma entries_authored chb u pr un nodes :
  author_login pr = Some un -> str_truthy un = true -> review_nodes pr = Some nodes ->
  given_entries u pr = flat_map (fun n => given_of pr u (credit n)) nodes /\
  received_entries u pr =
    (if String.eqb un u then flat_map (fun n => received_of pr (credit n)) nodes else []) /\
  time_entries chb u pr = flat_map (fun n => time_of chb pr u (credit n)) nodes.
Proof.
  intros Ha Ht Hn. unfold given_entries, received_entries, time_entries, pr_nodes, authored_by, truthy.
  rewrite Ha, Ht, Hn. repeat split.
Qed.

Lemma process_prs_from_lists chb um0 prs um :
  process_prs_from chb um0 prs = Some um -> forall u,
  reviews_given (metrics_of um u) = reviews_given (metrics_of um0 u) ++ flat_map (given_entries u) prs /\
  reviews_received (metrics_of um u) =
    reviews_received (metrics_of um0 u) ++ flat_map (received_entries u) prs /\
  review_times (metrics_of um u) = review_times (metrics_of um0 u) ++ flat_map (time_entries chb u) prs.
Proof.
  revert um0. induction prs as [|pr rest IH]; intros um0 H u; simpl in H.
  - injection H as <-. cbn [flat_map]. rewrite !app_nil_r. repeat split.
  - destruct (process_pr chb um0 pr) as [um1|] eqn:E; bind_red in H; [|discriminate].
    destruct (IH um1 H u) as (G & R & T). rewrite G, R, T. cbn [flat_map].
    destruct (truthy (author_login pr)) eqn:Ht.
    2:{ destruct (entries_unauthored chb u pr Ht) as (G0 & R0 & T0). rewrite G0, R0, T0.
        unfold process_pr in E. unfold truthy in Ht.
        destruct (author_login pr) as [un|]; [rewrite Ht in E|]; injection E as <-; repeat split. }
    unfold process_pr in E. unfold truthy in Ht.
    destruct (author_login pr) as [un|] eqn:Ea; [|discriminate]. rewrite Ht in E.
    destruct (review_nodes pr) as [nodes|] eqn:En; bind_red in E; [|discriminate].
    destruct (entries_authored chb u pr un nodes Ea Ht En) as (G0 & R0 & T0). rewrite G0, R0, T0.
    destruct (process_reviews_lists _ _ _ _ _ _ E u) as (G1 & R1 & T1).
    rewrite G1, R1, T1, !metrics_of_update. rewrite <- !app_assoc.
    destruct (String.eqb un u); repeat split.
Qed.

Lemma given_time_length chb pr u c : length (given_of pr u c) = length (time_of chb pr u c).
Proof. destruct c as [[rl rv]|]; simpl; [destruct (String.eqb rl u)|]; reflexivity. Qed.

Lemma flat_map_length_eq {A B C} (f : A -> list B) (g : A -> list C) (l : list A) :
  (forall x, length (f x) = length (g x)) -> length (flat_map f l) = length (flat_map g l).
Proof. intros H. induction l as [|x l IH]; simpl; [done|]. rewrite !length_app, H, IH. done. Qed.

Lemma process_review_total chb pr un um rv : is_Some (process_review chb pr un um (Some rv)).
Proof.
  unfold process_review. destruct (review_author_login rv) as [rl|]; [destruct (str_truthy rl)|]; by eexists.
Qed.

Lemma process_reviews_fails chb pr un um nodes :
  process_reviews chb pr un um nodes = None <-> None ∈ nodes.
Proof.
  revert um. induction nodes as [|n rest IH]; intros um; simpl.
  - split; [discriminate|]. intros Hin. apply elem_of_nil in Hin as [].
  - rewrite elem_of_cons. destruct n as [rv|].
    + destruct (process_review_total chb pr un um rv) as [um1 E]. rewrite E. bind_red.
      rewrite IH. split; [by right|]. intros [Hc|Hc]; [discriminate|exact Hc].
    + cbn. split; [by left|done].
Qed.

Lemma process_prs_from_fails chb um0 prs :
  process_prs_from chb um0 prs = None <->
  exists pr, pr ∈ prs /\ truthy (author_login pr) = true /\
    (review_nodes pr = None \/ exists nodes, review_nodes pr = Some nodes /\ None ∈ nodes).
Proof.
  revert um0. induction prs as [|pr rest IH]; intros um0; simpl.
  - split; [discriminate|]. intros (pr & Hin & _). apply elem_of_nil in Hin as [].
  -
    assert (Hhead : forall um1, process_pr chb um0 pr = Some um1 ->
      (process_prs_from chb um1 rest = None <->
       exists pr', pr' ∈ pr :: rest /\ truthy (author_login pr') = true /\
         (review_nodes pr' = None \/ exists nodes, review_nodes pr' = Some nodes /\ None ∈ nodes))).
    { intros um1 E. rewrite IH. split.
      - intros (pr' & Hin & Ht & Hn). exists pr'. split; [by right|split; assumption].
      - intros (pr' & Hin & Ht & Hn). apply elem_of_cons in Hin as [->|Hin]; [|exists pr'; split; [exact Hin|split; assumption]].
        exfalso. unfold process_pr in E. unfold truthy in Ht.
        destruct (author_login pr) as [un|]; [|discriminate]. rewrite Ht in E.
        destruct Hn as [Hn|(nodes & Hn & Hin)]; rewrite Hn in E; bind_red in E; [discriminate|].
        rewrite (proj2 (process_reviews_fails chb pr un (update un (count_pr pr) um0) nodes) Hin) in E.
        discriminate. }
    destruct (process_pr chb um0 pr) as [um1|] eqn:E; bind_red.
    + exact (Hhead um1 eq_refl).
    + split; [|done]. intros _. exists pr. split; [left|].
      unfold process_pr in E. unfold truthy.
      destruct (author_login pr) as [un|]; [|discriminate].
      destruct (str_truthy un); [|discriminate]. split; [done|].
      destruct (review_nodes pr) as [nodes|]; bind_red in E; [|by left].
      right. exists nodes. split; [done|]. by apply process_reviews_fails in E.
Qed.

Lemma filter_length_le {A} (f g : A -> bool) (l : list A) :
  (forall x, f x = true -> g x = true) ->
  (length (List.filter f l) <= length (List.filter g l))%nat.
Proof.
  intros Hfg. induction l as [|x l IH]; simpl; [done|].
  destruct (f x) eqn:F; [rewrite (Hfg x F); simpl; lia|]. destruct (g x); simpl; lia.
Qed.

End PRFacts.

Module CommitFacts.

Import Commits.

Local Open Scope Q_scope.

Ltac bind_red := cbn [mbind option_bind].
Tactic Notation "bind_red" "in" hyp(H) := cbn [mbind option_bind] in H.

(** The commits credited to [u]: an author [user] with login [u] (non-empty). *)
Definition committed_by (u : string) (c : commit) : bool :=
  match author c with
  | Some (Some user) =>
    match user_login user with Some l => str_truthy l && String.eqb l u | None => false end
  | _ => false
  end.

Definition Zsum (f : commit -> Z) (cs : list commit) : Z :=
  foldr (fun c acc => (f c + acc)%Z) 0%Z cs.

Lemma metrics_of_insert (k : string) (v : commit_metrics) um u :
  metrics_of (<[k := v]> um) u = if String.eqb k u then v else metrics_of um u.
Proof.
  unfold metrics_of at 1. destruct (String.eqb_spec k u) as [<-|Hne].
  - by rewrite lookup_insert_eq.
  - rewrite lookup_insert_ne by congruence. reflexivity.
Qed.

Lemma process_commits_from_counts um0 cs um :
  process_commits_from um0 cs = Some um -> forall u,
  total_commits (metrics_of um u) =
    (total_commits (metrics_of um0 u) + length (List.filter (committed_by u) cs))%nat /\
  commit_dates (metrics_of um u) =
    commit_dates (metrics_of um0 u) ++ map committedDate (List.filter (committed_by u) cs) /\
  commit_additions (metrics_of um u) =
    (commit_additions (metrics_of um0 u) + Zsum additions (List.filter (committed_by u) cs))%Z /\
  commit_deletions (metrics_of um u) =
    (commit_deletions (metrics_of um0 u) + Zsum deletions (List.filter (committed_by u) cs))%Z.
Proof.
  revert um0. induction cs as [|c rest IH]; intros um0 H u; simpl in H.
  - injection H as <-. cbn. rewrite app_nil_r. repeat split; lia.
  - destruct (process_commit um0 c) as [um1|] eqn:E; bind_red in H; [|discriminate].
    destruct (IH um1 H u) as (T & D & A & Dl). rewrite T, D, A, Dl. clear T D A Dl.
    cbn [List.filter]. unfold process_commit in E.
    destruct (committed_by u c) eqn:Hcb.
    + unfold committed_by in Hcb.
      destruct (author c) as [[user|]|]; try discriminate.
      destruct (user_login user) as [l|]; [|discriminate].
      apply andb_true_iff in Hcb as [Ht Hl]. apply String.eqb_eq in Hl as ->. rewrite Ht in E.
      injection E as <-. rewrite !metrics_of_insert, String.eqb_refl.
      cbn [length map Zsum foldr commit_dates total_commits commit_additions commit_deletions].
      rewrite <- app_assoc. unfold Zsum. repeat split; lia.
    + unfold committed_by in Hcb.
      destruct (author c) as [[user|]|]; [|injection E as <-; repeat split; lia|discriminate].
      destruct (user_login user) as [l|]; [|injection E as <-; repeat split; lia].
      destruct (str_truthy l); [|injection E as <-; repeat split; lia].
      cbn [andb] in Hcb.
      injection E as <-. rewrite !metrics_of_insert, Hcb. repeat split; lia.
Qed.

Lemma process_commits_from_fails um0 cs :
  process_commits_from um0 cs = None <-> exists c, c ∈ cs /\ author c = None.
Proof.
  revert um0. induction cs as [|c rest IH]; intros um0; simpl.
  - split; [discriminate|]. intros (c & Hin & _). apply elem_of_nil in Hin as [].
  - destruct (author c) as [a|] eqn:Ea.
    + assert (Hs : exists um1, process_commit um0 c = Some um1).
      { unfold process_commit. rewrite Ea. destruct a as [user|]; [|by eexists].
        destruct (user_login user) as [l|]; [destruct (str_truthy l)|]; by eexists. }
      destruct Hs as [um1 E]. rewrite E. bind_red. rewrite IH. split.
      * intros (c' & Hin & Hc). exists c'. split; [by right|exact Hc].
      * intros (c' & Hin & Hc). apply elem_of_cons in Hin as [->|Hin]; [congruence|].
        exists c'. split; [exact Hin|exact Hc].
    + unfold process_commit. rewrite Ea. bind_red. split; [|done].
      intros _. exists c. split; [left|exact Ea].
Qed.

Lemma div_nonpos (a b : Q) : 0 <= a -> b < 0 -> a / b <= 0.
Proof.
  intros Ha Hb.
  assert (E : a / b == - (a / - b)) by (field; intros Hz; rewrite Hz in Hb; discriminate).
  assert (F : 0 <= a / - b) by (apply Qle_shift_div_l; lra).
  rewrite E. lra.
Qed.

End CommitFacts.

(* ================================================================= *)
(** ** Sample records *)

Module Samples.

Local Open Scope string_scope.

Definition ana : record :=
  {["github_username" := PStr "ana"; "total_complexity_score" := PNum 10]}.
Definition bo : record :=
  {["github_username" := PStr "bo"; "total_complexity_score" := PNum 4]}.
Definition ana_again : record :=
  {["github_username" := PStr "ana"; "total_complexity_score" := PNum 6]}.
Definition ana_pr : record :=
  {["github_username" := PStr "ana"; "pr_merge_rate" := PNum 80]}.
Definition cy_five : record :=
  {["github_username" := PStr "cy"; "total_complexity_score" := PNum 5]}.
Definition di_five : record :=
  {["github_username" := PStr "di"; "total_complexity_score" := PNum (10 # 2)]}.
Definition github_sample : gmap string record :=
  {["ana" := {["active_repos" := PList [PStr "r1"]]}]}.
Definition ticket_sample : gmap string record := {["Ana" := ∅]}.
Definition heap_sample : InPlace.heap := {[1%positive := {["total_commits" := PNum 3]}]}.

End Samples.

Module Samples2.
Local Open Scope string_scope.
Definition tickets_sample : record :=
  {["total_tickets" := PNum 4; "tickets_closed" := PNum 3; "total_commits" := PNum 9]}.
Definition issue_sample : pyval :=
  PDict [("projectItems", PDict [("nodes", PList [
    PDict [("fieldValues", PDict [("nodes", PList [
      PDict [("field", PDict [("name", PStr "Status")]); ("text", PStr "Done")];
      PDict [("field", PDict [("name", PStr "Complexity")]); ("number", PNum 5)]])])]])])].
End Samples2.

Module Samples3.
Local Open Scope string_scope.
Import PullRequests.
(** [ana]'s merged pull request reviewed by [bo] and by a deleted account,
    [bo]'s open one reviewed by [ana], and one without an author whose
    [reviews] is [null]. *)
Definition pr_sample : list pull_request :=
  [mk_pr 1 "r1" "2024-01-01T00:00:00Z" (Some "2024-01-02T00:00:00Z") (Some "ana") 10 2
     (Some [Some (mk_review (Some "bo") "2024-01-01T05:00:00Z");
            Some (mk_review None "2024-01-01T06:00:00Z")]);
   mk_pr 2 "r1" "2024-01-03T00:00:00Z" None (Some "bo") 4 4
     (Some [Some (mk_review (Some "ana") "2024-01-03T02:00:00Z")]);
   mk_pr 3 "r2" "2024-01-04T00:00:00Z" None None 1 1 None].
Definition hours (a b : string) : Q := 5.
End Samples3.

Module Samples4.
Local Open Scope string_scope.
Import Commits.
(** Two commits by [ana] (the later one with a [null] name and email) and
    one whose author has no GitHub user. *)
Definition commit_sample : list commit :=
  [mk_commit (Some (Some (mk_user (Some "ana") (Some (Some "Ana B")) None))) "2024-01-02T10:00:00Z" 5 1;
   mk_commit (Some None) "2024-01-02T11:00:00Z" 3 3;
   mk_commit (Some (Some (mk_user (Some "ana") (Some None) (Some None)))) "2024-01-03T09:00:00Z" 2 0].
End Samples4.

(* ================================================================= *)
(** * The claims *)

(** C1: for sets of GitHub and ticket identities (lists without
    duplicates, in iteration order), any manual mapping and any similarity
    function, [_match_users] partitions both sets: the GitHub sides of the
    pairs together with [github_only] are exactly the GitHub identities,
    each once, and the ticket sides with [ticket_only] are exactly the
    ticket identities, each once. *)
Theorem match_users_partition (ratio : string -> string -> Q)
    (team_member_map : gmap string string) (github_users ticket_users : list string) :
  NoDup github_users -> NoDup ticket_users ->
  let st := Combiner.match_users ratio team_member_map github_users ticket_users in
  (Combiner.matched st).*1 ++ Combiner.github_only st ≡ₚ github_users /\
  (Combiner.matched st).*2 ++ Combiner.ticket_only st ≡ₚ ticket_users /\
  NoDup ((Combiner.matched st).*1 ++ Combiner.github_only st) /\
  NoDup ((Combiner.matched st).*2 ++ Combiner.ticket_only st).
Proof. exact (MatchFacts.match_users_partition_inv ratio team_member_map github_users ticket_users). Qed.

(** C2 (amended): an issue counts for a user only when [_is_valid_issue]
    accepts it (no label named [invalid] or [duplicate], case-insensitively,
    and some timeline item whose [source] or [subject] is a dict with a
    [number] key) and its first [closedBy] actor is that user; the user's
    [issues_closed] is the number of DISTINCT issue numbers among those
    issues. Deduplication is per user and by number only: duplicate entries
    and equal numbers from different repositories count once for the same
    user, but each user counts them separately. *)
Theorem issues_closed_count :
  (forall i : Issues.issue,
     Issues.is_valid_issue i = true <->
     (let names := map (fun o => py_lower (default EmptyString o)) (Issues.label_names i) in
      ("invalid"%string ∉ names) /\ ("duplicate"%string ∉ names) /\
      exists item, item ∈ Issues.timeline_items i /\
        (Issues.links_pr (Issues.item_source item) = true \/
         Issues.links_pr (Issues.item_subject item) = true))) /\
  (forall (issues : list Issues.issue) (u : string),
     Issues.issues_closed_of issues u =
     length (remove_dups (map Issues.number
       (List.filter (fun i => Issues.is_valid_issue i &&
                              bool_decide (Issues.closer i = Some u)) issues)))).
Proof.
  split.
  - intros i. unfold Issues.is_valid_issue. cbv zeta.
    set (names := map _ (Issues.label_names i)).
    assert (Hex : forall s, existsb (String.eqb s) names = true <-> s ∈ names).
    { intros s. rewrite existsb_exists, list_elem_of_In. split.
      - intros (x & Hx & E). apply String.eqb_eq in E. by subst.
      - intros Hx. exists s. split; [done|]. apply String.eqb_refl. }
    destruct (existsb (String.eqb "invalid") names) eqn:E1.
    { cbn [orb]. split; [intros Hf; discriminate Hf|]. intros (H & _). exfalso. apply H. apply Hex. exact E1. }
    destruct (existsb (String.eqb "duplicate") names) eqn:E2.
    { cbn [orb]. split; [intros Hf; discriminate Hf|]. intros (_ & H & _). exfalso. apply H. apply Hex. exact E2. }
    cbn [orb]. rewrite existsb_exists. split.
    + intros (item & Hin & Hl). split; [intros H; apply Hex in H; congruence|].
      split; [intros H; apply Hex in H; congruence|].
      exists item. split; [by apply list_elem_of_In|]. by apply orb_true_iff.
    + intros (_ & _ & item & Hin & Hl). exists item.
      split; [by apply list_elem_of_In|]. by apply orb_true_iff.
  - intros issues u. unfold Issues.issues_closed_of, Issues.process_issues.
    pose proof (IssueFacts.count_inv_fold issues [] ∅ IssueFacts.count_inv_nil u)
      as (H1 & H2 & H3).
    simpl in H3. rewrite H1. apply Permutation_length.
    apply NoDup_Permutation; [done|apply NoDup_remove_dups|].
    intros n. rewrite elem_of_remove_dups. apply H3.
Qed.

(** C2 (counterexample): two valid issues with the same number 5, from
    repositories [r1] and [r2], closed by [alice] and [bob]: each user's
    [issues_closed] is 1, so the number is attributed to two closers and
    counted twice overall. *)
Lemma issue_number_counted_for_two_closers :
  let linked := [Issues.mk_item (Some (Some ["number"%string])) None] in
  let i1 := Issues.mk_issue [] linked [Some "alice"%string] 5 "r1" in
  let i2 := Issues.mk_issue [] linked [Some "bob"%string] 5 "r2" in
  Issues.number i1 = Issues.number i2 /\
  Issues.issues_closed_of [i1; i2] "alice" = 1%nat /\
  Issues.issues_closed_of [i1; i2] "bob" = 1%nat.
Proof. split; [reflexivity|split; reflexivity]. Qed.

(** C3: let [st1] be the state after the exact and manual passes and
    [ts] its [ticket_only] list. The fuzzy pass runs [fuzzy_step] on each
    ticket identity of [ts] in order, each step on the state the previous
    one left. For the [k]-th ticket identity [t] and the state [st] it
    meets, write [r g] for the ratio of [t] lower-cased without spaces and
    [g] lower-cased without hyphens and underscores. When no remaining
    GitHub identity has [r g > 0.7], nothing is paired. Otherwise, with
    [g] the first remaining identity of greatest ratio (earlier ones
    strictly lower, later ones not higher), [t] is paired with [g]: the
    pair is appended after the earlier pairs, and [g] leaves the pool
    before the next ticket identity. This holds whenever the GitHub
    identities are non-empty logins, as [aggregate_by_team_member] and
    the ticket reader produce them. *)
Theorem fuzzy_pass_greedy (ratio : string -> string -> Q)
    (team_member_map : gmap string string) (github_users ticket_users : list string) :
  (forall g, g ∈ github_users -> g <> EmptyString) ->
  let st1 := Combiner.run_pass (Combiner.manual_step team_member_map)
               (Combiner.run_pass Combiner.exact_step (Combiner.mk_state [] github_users ticket_users)) in
  let ts := Combiner.ticket_only st1 in
  Combiner.match_users ratio team_member_map github_users ticket_users =
    fold_left (Combiner.fuzzy_step ratio) ts st1 /\
  forall k t, ts !! k = Some t ->
    let st := fold_left (Combiner.fuzzy_step ratio) (take k ts) st1 in
    let r g := ratio (Combiner.norm_ticket t) (Combiner.norm_github g) in
    ((forall g, g ∈ Combiner.github_only st -> (r g <= 7 # 10)%Q) ->
       Combiner.fuzzy_step ratio st t = st) /\
    (forall pre g post, Combiner.github_only st = pre ++ g :: post -> (7 # 10 < r g)%Q ->
       (forall x, x ∈ pre -> (r x < r g)%Q) -> (forall x, x ∈ post -> (r x <= r g)%Q) ->
       Combiner.fuzzy_step ratio st t = Combiner.pair_up st g t /\
       Combiner.matched (Combiner.fuzzy_step ratio st t) = Combiner.matched st ++ [(g, t)] /\
       g ∉ Combiner.github_only (Combiner.fuzzy_step ratio st t)).
Proof.
  intros Hne st1 ts. split; [reflexivity|].
  intros k t _ st r.
  assert (Hst : forall g, g ∈ Combiner.github_only st -> g <> EmptyString).
  { intros g Hg. apply Hne.
    apply (MatchFacts.fold_step_github_only _ (MatchFacts.fuzzy_step_ok ratio)) in Hg.
    apply (MatchFacts.fold_step_github_only _ (MatchFacts.manual_step_ok team_member_map)) in Hg.
    apply (MatchFacts.fold_step_github_only _ MatchFacts.exact_step_ok) in Hg.
    exact Hg. }
  destruct (MatchFacts.fuzzy_step_spec ratio st t Hst) as [Hnone Hsome].
  split; [exact Hnone|].
  intros pre g post Hgo Hg Hpre Hpost.
  rewrite (Hsome pre g post Hgo Hg Hpre Hpost).
  split; [done|]. split; [done|].
  unfold Combiner.pair_up. simpl. rewrite MatchFacts.elem_of_discard. tauto.
Qed.

(** C4 (amended): let [gk] and [tk] be the iteration orders of the two key
    sets and [st] the result of [_match_users] on them. [merge_datasets]
    raises only when a GitHub record's [active_repos] cannot be joined (a
    list with a non-string item, a number, ...). When it returns, its output
    is one record per matched pair, then one per source-only identity, then
    one per ticket-only identity, each built by [_merge_user_metrics] from
    that identity's data. So the length is the sum of the three list
    lengths, and every key of either map is the source of exactly one
    record. In a source-only record the ticket fields are 0 and
    [ticket_types] is [str({})]. In a ticket-only record [github_username]
    AND [display_name] are the ticket name, not empty; the numeric GitHub
    fields are 0 and [email], [active_repos] and [last_active] are [''].
    *)
Theorem merge_datasets_records (py_str : pyval -> string) (ratio : string -> string -> Q)
    (team_member_map : gmap string string) (github_data ticket_data : gmap string record)
    (github_keys ticket_keys : list string) :
  NoDup github_keys -> NoDup ticket_keys ->
  list_to_set github_keys = (dom github_data : gset string) ->
  list_to_set ticket_keys = (dom ticket_data : gset string) ->
  let merge := Combiner.merge_datasets py_str ratio team_member_map github_data ticket_data
                 github_keys ticket_keys in
  let st := Combiner.match_users ratio team_member_map github_keys ticket_keys in
  ((forall g m, github_data !! g = Some m ->
      is_Some (Combiner.py_join ", " (Combiner.gget m "active_repos" (PList [])))) -> is_Some merge) /\
  forall out, merge = Some out ->
  (forall g, is_Some (github_data !! g) <-> g ∈ (Combiner.matched st).*1 ++ Combiner.github_only st) /\
  NoDup ((Combiner.matched st).*1 ++ Combiner.github_only st) /\
  (forall t, is_Some (ticket_data !! t) <-> t ∈ (Combiner.matched st).*2 ++ Combiner.ticket_only st) /\
  NoDup ((Combiner.matched st).*2 ++ Combiner.ticket_only st) /\
  length out = (length (Combiner.matched st) + length (Combiner.github_only st)
                + length (Combiner.ticket_only st))%nat /\
  exists both github_side ticket_side,
    out = both ++ github_side ++ ticket_side /\
    Forall2 (fun '(g, t) r =>
      Combiner.merge_user_metrics py_str g (default ∅ (github_data !! g))
        (default ∅ (ticket_data !! t)) "GitHub+Sheets" = Some r) (Combiner.matched st) both /\
    Forall2 (fun g r =>
      Combiner.merge_user_metrics py_str g (default ∅ (github_data !! g)) ∅ "GitHub Only"
        = Some r /\
      Forall (fun k => r !! k = Some (PNum 0)) Combiner.ticket_num_fields /\
      r !! "ticket_types" = Some (PStr (py_str (PDict []))))
      (Combiner.github_only st) github_side /\
    Forall2 (fun t r =>
      Combiner.merge_user_metrics py_str t ∅ (default ∅ (ticket_data !! t)) "Sheets Only"
        = Some r /\
      r !! "github_username" = Some (PStr t) /\ r !! "display_name" = Some (PStr t) /\
      Forall (fun k => r !! k = Some (PNum 0)) Combiner.github_num_fields /\
      Forall (fun k => r !! k = Some (PStr EmptyString)) Combiner.github_str_fields)
      (Combiner.ticket_only st) ticket_side.
Proof.
  intros Hng Hnt Hdg Hdt merge st.
  pose proof (MatchFacts.match_users_partition_inv ratio team_member_map github_keys ticket_keys Hng Hnt)
    as (Hpg & Hpt & Hndg & Hndt).
  fold st in Hpg, Hpt, Hndg, Hndt.
  assert (Hkg : forall g, is_Some (github_data !! g) <-> g ∈ github_keys).
  { intros g. rewrite <- elem_of_dom, <- Hdg. by rewrite elem_of_list_to_set. }
  split.
  - intros Hjoin. unfold merge, Combiner.merge_datasets. fold st.
    assert (Hgm : forall g, is_Some (Combiner.py_join ", "
              (Combiner.gget (default ∅ (github_data !! g)) "active_repos" (PList [])))).
    { intros g. destruct (github_data !! g) as [m|] eqn:E;
        [exact (Hjoin g m E)|exists EmptyString; reflexivity]. }
    destruct (MergeFacts.mapM_is_Some (fun '(github_user, ticket_user) =>
                 Combiner.merge_user_metrics py_str github_user
                   (default ∅ (github_data !! github_user))
                   (default ∅ (ticket_data !! ticket_user)) "GitHub+Sheets")
                (Combiner.matched st)) as [both Hb].
    { intros [g t] _. apply MergeFacts.merge_user_metrics_is_Some, Hgm. }
    destruct (MergeFacts.mapM_is_Some (fun github_user =>
                 Combiner.merge_user_metrics py_str github_user
                   (default ∅ (github_data !! github_user)) ∅ "GitHub Only")
                (Combiner.github_only st)) as [gs Hgs].
    { intros g _. apply MergeFacts.merge_user_metrics_is_Some, Hgm. }
    destruct (MergeFacts.mapM_is_Some (fun ticket_user =>
                 Combiner.merge_user_metrics py_str ticket_user ∅
                   (default ∅ (ticket_data !! ticket_user)) "Sheets Only")
                (Combiner.ticket_only st)) as [ts Hts].
    { intros t _. apply MergeFacts.merge_user_metrics_is_Some.
      exists EmptyString. reflexivity. }
    rewrite Hb. simpl. rewrite Hgs. simpl. rewrite Hts. simpl. by eexists.
  - intros out Hm. unfold merge, Combiner.merge_datasets in Hm. fold st in Hm.
    destruct (mapM _ (Combiner.matched st)) as [both|] eqn:Hb; [|discriminate]. simpl in Hm.
    destruct (mapM _ (Combiner.github_only st)) as [gs|] eqn:Hgs; [|discriminate]. simpl in Hm.
    destruct (mapM _ (Combiner.ticket_only st)) as [ts|] eqn:Hts; [|discriminate]. simpl in Hm.
    injection Hm as <-.
    apply mapM_Some in Hb, Hgs, Hts.
    split; [intros g; rewrite Hkg, Hpg; done|].
    split; [done|].
    split; [intros t; rewrite <- elem_of_dom, <- Hdt, elem_of_list_to_set, Hpt; done|].
    split; [done|].
    split.
    { rewrite !length_app, (Forall2_length _ _ _ Hb), (Forall2_length _ _ _ Hgs),
        (Forall2_length _ _ _ Hts). lia. }
    exists both, gs, ts. split; [done|]. split.
    { eapply Forall2_impl; [exact Hb|]. intros [g t] r Hr. exact Hr. }
    split.
    + eapply Forall2_impl; [exact Hgs|]. intros g r Hr. split; [done|].
      by apply (MergeFacts.github_only_defaults py_str g (default ∅ (github_data !! g))).
    + eapply Forall2_impl; [exact Hts|]. intros t r Hr. split; [done|].
      by apply (MergeFacts.ticket_only_defaults py_str t (default ∅ (ticket_data !! t))).
Qed.

(** C4 (counterexample): no GitHub data, ticket data [{"Bob Smith": {}}].
    The single output record is ticket-only, and its GitHub-side field
    [display_name] is the ticket name ["Bob Smith"], not an empty default. *)
Lemma ticket_only_display_name_not_empty :
  option_map (map (fun r : record => r !! "display_name"))
    (Combiner.merge_datasets (fun _ => "{}"%string) Difflib.ratio ∅ ∅
       {["Bob Smith" := ∅]} [] ["Bob Smith"%string])
  = Some [Some (PStr "Bob Smith")].
Proof. vm_compute. reflexivity. Qed.

(** C5: [rank_engineers [] = []].  On a non-empty list, the records
    (each carrying its composite score as sort key) are put in descending
    order of composite score by a stable sort: a permutation, sorted, and
    the records of each score value stay in input order.  The record at
    index [i] of the result is the [i]-th of that order with rank [i+1],
    percentile [(1 - i/N)*100] rounded to 1 decimal, and the tier label of
    [_get_rank_label]; its other fields are unchanged. *)
Theorem rank_engineers_ranking :
  Ranker.rank_engineers [] = Some [] /\
  forall (l out : list record), l <> [] -> Ranker.rank_engineers l = Some out ->
  exists cs scored,
    Ranker.calculate_composite_scores l = Some cs /\
    mapM (Ranker.add_scores cs) l = Some scored /\
    Forall2 (fun e s => exists u, username e = Some u /\
               s = Ranker.set_scores (default Ranker.zero_scores (cs !! u)) e) l scored /\
    let ranked := Ranker.sorted_desc scored in
    ranked ≡ₚ scored /\
    StronglySorted (fun x y => Ranker.sort_key y <= Ranker.sort_key x)%Q ranked /\
    (forall q, List.filter (fun x => Qeq_bool (Ranker.sort_key x) q) ranked =
               List.filter (fun x => Qeq_bool (Ranker.sort_key x) q) scored) /\
    length out = length l /\
    forall i r, out !! i = Some r ->
      exists e, ranked !! i = Some e /\
        r !! "rank" = Some (PNum (inject_Z (Z.of_nat (S i)))) /\
        r !! "percentile" = Some (PNum (py_round ((1 - inject_Z (Z.of_nat i)
                                  / inject_Z (Z.of_nat (length l))) * 100) 1)) /\
        r !! "rank_label" = Some (PStr
          (if Nat.eqb (S i) 1 then Ranker.top_label
           else if Qle_bool (inject_Z (Z.of_nat (S i)) / inject_Z (Z.of_nat (length l)))
                            (10 # 100) then Ranker.high_label
           else if Qle_bool (inject_Z (Z.of_nat (S i)) / inject_Z (Z.of_nat (length l)))
                            (50 # 100) then Ranker.above_label
           else Ranker.developing_label)) /\
        forall k, k ∉ ["rank"; "percentile"; "rank_label"] -> r !! k = e !! k.
Proof.
  split; [reflexivity|].
  intros l out Hne H.
  pose proof (RankFacts.rank_length l out H) as Hlen.
  destruct (RankFacts.rank_flow l out Hne H) as (cs & scored & Hcs & Hsc & Hout).
  pose proof (RankFacts.scored_shape cs l scored Hsc) as Hshape.
  assert (Hn : length scored = length l) by (symmetry; eapply Forall2_length; exact Hshape).
  exists cs, scored. split; [done|]. split; [done|]. split; [done|].
  cbv zeta. split; [apply SortFacts.sorted_perm|].
  split; [apply SortFacts.sorted_sorted|].
  split.
  { intros q. apply SortFacts.sorted_filter. intros x y _ _ Px Py.
    apply Qeq_bool_iff in Px, Py. rewrite Px, Py. reflexivity. }
  split; [done|].
  intros i r Hr. rewrite Hout, list_lookup_imap in Hr.
  destruct (Ranker.sorted_desc scored !! i) as [e|] eqn:He; [|discriminate].
  injection Hr as <-. rewrite Hn. exists e. split; [done|].
  unfold Ranker.set_rank. split; [|split; [|split]].
  - rewrite lookup_insert_ne by discriminate. rewrite lookup_insert_ne by discriminate.
    by rewrite lookup_insert_eq.
  - rewrite lookup_insert_ne by discriminate. rewrite lookup_insert_eq.
    unfold Ranker.percentile_of. do 3 f_equal.
    replace (Z.of_nat (S i) - 1)%Z with (Z.of_nat i) by lia. reflexivity.
  - by rewrite lookup_insert_eq.
  - intros k Hk. apply RankFacts.set_rank_other. exact Hk.
Qed.

(** C6: for the last record [e] of user [u], [calculate_other_component]
    maps [u] to the mean of the strictly positive ones among the five
    components of [e] (code quality times 10, the mean of the two review
    sub-scores times 10, commit frequency normalized over the cohort, PR
    merge rate as is, review participation normalized over the cohort),
    rounded to 2 decimals; when no component is positive the value is 0. *)
Theorem other_component_mean (l l1 l2 : list record) (e : record) (u : string)
    (m : gmap string Q) :
  Ranker.calculate_other_component l = Some m ->
  l = l1 ++ e :: l2 -> username e = Some u ->
  (forall e', e' ∈ l2 -> username e' <> Some u) ->
  exists cfs rps ai cq rq qs th hp cf ncf pr rp nrp,
    mapM (fun eng => get_num eng "commit_frequency") l = Some cfs /\
    mapM (fun eng => get_num eng "review_participation") l = Some rps /\
    get_dict e "ai_analysis" = Some ai /\
    dget_dict ai "code_quality" = Some cq /\
    dget_dict ai "review_quality" = Some rq /\
    dget_num cq "quality_score" = Some qs /\
    dget_num rq "thoroughness_score" = Some th /\
    dget_num rq "helpfulness_score" = Some hp /\
    get_num e "commit_frequency" = Some cf /\
    Ranker.normalize_to_100 cf (py_min cfs) (py_max cfs) = Some ncf /\
    get_num e "pr_merge_rate" = Some pr /\
    get_num e "review_participation" = Some rp /\
    Ranker.normalize_to_100 rp (py_min rps) (py_max rps) = Some nrp /\
    let components := [qs * 10; ((th + hp) / 2) * 10; ncf; pr; nrp]%Q in
    let positive := List.filter (fun c => Qltb 0 c) components in
    m !! u = Some (py_round (match positive with
                             | [] => 0
                             | _ => qsum positive / inject_Z (Z.of_nat (length positive))
                             end) 2) /\
    (Forall (fun c => c <= 0)%Q components -> m !! u = Some 0%Q).
Proof.
  intros H Hl Hu Hlast. unfold Ranker.calculate_other_component in H.
  destruct (mapM (fun eng => get_num eng "commit_frequency") l) as [cfs|] eqn:Ecf;
    cbn [mbind option_bind] in H; [|discriminate].
  destruct (mapM (fun eng => get_num eng "review_participation") l) as [rps|] eqn:Erp;
    cbn [mbind option_bind] in H; [|discriminate].
  assert (He : e ∈ l) by (subst l; apply elem_of_app; right; left).
  destruct (MapFacts.collect_Some_inv _ l ∅ m e H He) as [[k v] Hoe].
  pose proof (ScoreFacts.other_entry_key _ _ _ _ e _ Hoe) as Hk. simpl in Hk.
  rewrite Hu in Hk. injection Hk as <-.
  assert (Hmu : m !! u = Some v).
  { subst l. eapply MapFacts.collect_lookup_last; [exact H|exact Hoe|].
    intros e' kv He' Hkv Hk. apply (Hlast e' He').
    rewrite (ScoreFacts.other_entry_key _ _ _ _ e' kv Hkv). by rewrite Hk. }
  unfold Ranker.other_entry in Hoe. rewrite Hu in Hoe. cbn [mbind option_bind] in Hoe.
  destruct (Ranker.other_components _ _ _ _ e) as [cs|] eqn:Hoc;
    cbn [mbind option_bind] in Hoe; [|discriminate].
  injection Hoe as <-. unfold Ranker.other_components in Hoc.
  destruct (get_dict e "ai_analysis") as [ai|] eqn:E1; cbn [mbind option_bind] in Hoc; [|discriminate].
  destruct (dget_dict ai "code_quality") as [cq|] eqn:E2; cbn [mbind option_bind] in Hoc; [|discriminate].
  destruct (dget_dict ai "review_quality") as [rq|] eqn:E3; cbn [mbind option_bind] in Hoc; [|discriminate].
  destruct (dget_num cq "quality_score") as [qs|] eqn:E4; cbn [mbind option_bind] in Hoc; [|discriminate].
  destruct (dget_num rq "thoroughness_score") as [th|] eqn:E5; cbn [mbind option_bind] in Hoc; [|discriminate].
  destruct (dget_num rq "helpfulness_score") as [hp|] eqn:E6; cbn [mbind option_bind] in Hoc; [|discriminate].
  destruct (get_num e "commit_frequency") as [cf|] eqn:E7; cbn [mbind option_bind] in Hoc; [|discriminate].
  destruct (Ranker.normalize_to_100 cf _ _) as [ncf|] eqn:E8; cbn [mbind option_bind] in Hoc; [|discriminate].
  destruct (get_num e "pr_merge_rate") as [pr|] eqn:E9; cbn [mbind option_bind] in Hoc; [|discriminate].
  destruct (get_num e "review_participation") as [rp|] eqn:E10; cbn [mbind option_bind] in Hoc; [|discriminate].
  destruct (Ranker.normalize_to_100 rp _ _) as [nrp|] eqn:E11; cbn [mbind option_bind] in Hoc; [|discriminate].
  injection Hoc as <-.
  exists cfs, rps, ai, cq, rq, qs, th, hp, cf, ncf, pr, rp, nrp.
  do 13 (split; [done|]).
  cbv zeta. split; [exact Hmu|].
  intros Hz. rewrite Hmu. f_equal. unfold Ranker.other_score_of.
  assert (Hf : forall cs, Forall (fun c => c <= 0)%Q cs -> List.filter (fun c => Qltb 0 c) cs = []).
  { intros cs0 Hcs. induction Hcs as [|c cs0 Hc _ IH]; [done|]. simpl.
    unfold Qltb. apply Qle_bool_iff in Hc. rewrite Hc. simpl. exact IH. }
  cbv zeta. rewrite (Hf _ Hz). vm_compute. reflexivity.
Qed.

(** C7: [normalize_to_100] returns [50.0] without dividing when
    [max_val == min_val]; when every engineer of a cohort has the same
    total complexity, every complexity component is [50.0] and the
    computation raises nothing; and for [min < max] with
    [min <= value <= max] the result lies in [[0, 100]]. *)
Theorem normalize_to_100_boundary :
  (forall v mn mx : Q, (mx == mn)%Q -> Ranker.normalize_to_100 v mn mx = Some 50%Q) /\
  (forall (l : list record) (c : Q),
     (forall e, e ∈ l -> exists u q, username e = Some u /\
                        get_num e "total_complexity_score" = Some q /\ (q == c)%Q) ->
     exists m, Ranker.calculate_complexity_component l = Some m /\
               forall u v, m !! u = Some v -> v = 50%Q) /\
  (forall v mn mx : Q, (mn < mx)%Q -> (mn <= v <= mx)%Q ->
     exists r, Ranker.normalize_to_100 v mn mx = Some r /\ (0 <= r <= 100)%Q).
Proof.
  split; [exact NormalizeFacts.normalize_equal|].
  split; [|exact NormalizeFacts.normalize_bounds].
  intros l c Hl.
  destruct (MapFacts.collect_is_Some Ranker.complexity_entry l ∅) as [m0 Hm0].
  { intros e He. destruct (Hl e He) as (u & q & Hu & Hq & _).
    unfold Ranker.complexity_entry. rewrite Hu, Hq. by eexists. }
  assert (Hc : forall u a, m0 !! u = Some a -> (a == c)%Q).
  { intros u a Ha.
    destruct (MapFacts.collect_lookup _ _ _ _ _ _ Hm0 Ha) as [He|(e & He & Hf)];
      [by rewrite lookup_empty in He|].
    destruct (Hl e He) as (u' & q & Hu & Hq & Hqc).
    unfold Ranker.complexity_entry in Hf. rewrite Hu, Hq in Hf.
    simpl in Hf. injection Hf as _ <-. exact Hqc. }
  unfold Ranker.calculate_complexity_component. rewrite Hm0. simpl.
  set (values := (map_to_list m0).*2).
  destruct (MapFacts.map_mapM_is_Some
              (fun score => Ranker.normalize_to_100 score (py_min values) (py_max values)) m0)
    as [m Hm].
  { intros u a _. apply NormalizeFacts.normalize_is_Some. }
  exists m. split; [exact Hm|].
  intros u v Hv.
  destruct (MapFacts.map_mapM_lookup _ _ _ _ _ Hm Hv) as (a & Ha & Hn).
  assert (Hall : Forall (fun x => (x == c)%Q) values).
  { apply Forall_forall. intros x Hx. unfold values in Hx.
    apply list_elem_of_fmap in Hx as ([k y] & -> & Hky).
    apply elem_of_map_to_list in Hky. exact (Hc k y Hky). }
  assert (Hne : values <> []).
  { intros E. assert (Hin : a ∈ values).
    { unfold values. apply list_elem_of_fmap. exists (u, a). split; [done|].
      by apply elem_of_map_to_list. }
    rewrite E in Hin. by apply not_elem_of_nil in Hin. }
  pose proof (NumFacts.py_min_prop _ values Hne Hall) as Hmin.
  pose proof (NumFacts.py_max_prop _ values Hne Hall) as Hmax.
  rewrite NormalizeFacts.normalize_equal in Hn; [by injection Hn|].
  rewrite Hmin, Hmax. reflexivity.
Qed.

(** C8: ranking the output of [rank_engineers] again computes the same
    per-user score map, succeeds, and gives every record of a user the
    same complexity, other and composite scores as the first run. *)
Theorem rank_engineers_rerun (l out : list record) :
  Ranker.rank_engineers l = Some out ->
  Ranker.calculate_composite_scores out = Ranker.calculate_composite_scores l /\
  exists out2, Ranker.rank_engineers out = Some out2 /\
    forall r r2 u, r ∈ out -> r2 ∈ out2 -> username r = Some u -> username r2 = Some u ->
      r2 !! "complexity_component" = r !! "complexity_component" /\
      r2 !! "other_component" = r !! "other_component" /\
      r2 !! "composite_score" = r !! "composite_score".
Proof.
  intros H. destruct l as [|e0 l0].
  { injection H as <-. split; [done|]. exists []. split; [done|].
    intros r r2 u Hr. by apply not_elem_of_nil in Hr. }
  assert (Hne : e0 :: l0 <> []) by done.
  pose proof (RankFacts.rank_composite_scores _ out Hne H) as Hcc.
  split; [exact Hcc|].
  destruct (RankFacts.rank_flow _ out Hne H) as (cs & scored & Hcs & Hsc & Hout).
  assert (Hne' : out <> []).
  { intros ->. pose proof (RankFacts.rank_length _ [] H) as Hl. simpl in Hl. lia. }
  assert (Hadd : is_Some (mapM (Ranker.add_scores cs) out)).
  { apply mapM_is_Some_2. apply Forall_forall. intros r Hr.
    destruct (RankFacts.rank_record _ out cs r Hne H Hcs Hr) as (u & Hu & _).
    change (is_Some (Ranker.add_scores cs r)). unfold Ranker.add_scores. rewrite Hu. by eexists. }
  destruct Hadd as [scored2 Hsc2].
  assert (Hrun : exists out2, Ranker.rank_engineers out = Some out2).
  { destruct out as [|r0 out0]; [done|].
    eexists. unfold Ranker.rank_engineers. rewrite Hcc, Hcs. cbn [mbind option_bind].
    rewrite Hsc2. cbn [mbind option_bind]. reflexivity. }
  destruct Hrun as [out2 Hrun]. exists out2. split; [done|].
  intros r r2 u Hr Hr2 Hu Hu2.
  rewrite <- Hcc in Hcs.
  destruct (RankFacts.rank_record _ out cs r Hne H ltac:(by rewrite <- Hcc) Hr)
    as (u1 & Hu1 & F1 & F2 & F3).
  destruct (RankFacts.rank_record _ out2 cs r2 Hne' Hrun Hcs Hr2)
    as (u2 & Hu2' & G1 & G2 & G3).
  rewrite Hu in Hu1. injection Hu1 as <-. rewrite Hu2 in Hu2'. injection Hu2' as <-.
  rewrite F1, F2, F3, G1, G2, G3. done.
Qed.

(** C9: in the model of the pipeline over a heap of dicts,
    [merge_datasets] allocates fresh records and changes no existing one;
    [calculate_derived_metrics] returns its own input list, updating those
    records in place; [rank_engineers] returns the same records reordered,
    also updated in place.  Each of the latter two writes only its own keys
    (overwriting earlier values there) and changes no other key of a record
    and no record outside its input. *)
Theorem pipeline_stage_frames :
  (forall py_str ratio team_member_map (h : InPlace.heap) github_data ticket_data
          github_keys ticket_keys h' ls recs,
     Combiner.merge_datasets py_str ratio team_member_map github_data ticket_data
       github_keys ticket_keys = Some recs ->
     InPlace.merge_datasets py_str ratio team_member_map h github_data ticket_data
       github_keys ticket_keys = Some (h', ls) ->
     (forall l d, h !! l = Some d -> h' !! l = Some d) /\
     Forall (fun l => h !! l = None) ls /\ NoDup ls /\
     Forall2 (fun l r => h' !! l = Some r) ls recs) /\
  (forall (h h' : InPlace.heap) ls ls',
     InPlace.calculate_derived_metrics h ls = Some (h', ls') ->
     ls' = ls /\
     (forall l, l ∉ ls -> h' !! l = h !! l) /\
     (forall l, l ∈ ls -> exists d d', h !! l = Some d /\ h' !! l = Some d' /\
        forall k, k ∉ ["commits_per_ticket"; "activity_score"; "ticket_closure_rate"] ->
          d' !! k = d !! k)) /\
  (forall (h h' : InPlace.heap) ls ls',
     InPlace.rank_engineers h ls = Some (h', ls') ->
     ls' ≡ₚ ls /\
     (forall l, l ∉ ls -> h' !! l = h !! l) /\
     (forall l, l ∈ ls -> exists d d', h !! l = Some d /\ h' !! l = Some d' /\
        forall k, k ∉ ["complexity_component"; "other_component"; "composite_score";
                       "rank"; "percentile"; "rank_label"] -> d' !! k = d !! k)).
Proof.
  split; [|split].
  - intros py_str ratio tmm h gd td gk tk h' ls recs Hm H.
    unfold InPlace.merge_datasets in H. rewrite Hm in H. cbn [mbind option_bind] in H.
    injection H as H. exact (FrameFacts.alloc_all_spec h recs h' ls H).
  - intros h h' ls ls' H. unfold InPlace.calculate_derived_metrics in H.
    destruct (InPlace.update_each_from _ 0 h ls) as [h1|] eqn:Hu;
      cbn [mbind option_bind] in H; [|discriminate].
    injection H as <- <-. split; [done|].
    exact (FrameFacts.update_each_frame FrameFacts.derived_keys _ 0 h h1 ls
             (fun _ => FrameFacts.derive_user_frame) Hu).
  - intros h h' ls ls' H. destruct ls as [|l0 r].
    { injection H as <- <-. split; [done|]. split; [done|].
      intros l Hl. by apply not_elem_of_nil in Hl. }
    unfold InPlace.rank_engineers in H.
    destruct (mapM _ (l0 :: r)) as [data|]; cbn [mbind option_bind] in H; [|discriminate].
    destruct (Ranker.calculate_composite_scores data) as [cs|];
      cbn [mbind option_bind] in H; [|discriminate].
    destruct (InPlace.update_each_from _ 0 h (l0 :: r)) as [h1|] eqn:Hu1;
      cbn [mbind option_bind] in H; [|discriminate].
    destruct (InPlace.update_each_from _ 0 h1 _) as [h2|] eqn:Hu2;
      cbn [mbind option_bind] in H; [|discriminate].
    injection H as <- <-.
    pose proof (SortFacts.sorted_perm (fun l => default 0%Q (Ranker.sort_key <$> h1 !! l))
                  (l0 :: r)) as Hp.
    match type of Hu1 with InPlace.update_each_from ?g _ _ _ = _ =>
      assert (Hf1 : forall i d d', g i d = Some d' -> FrameFacts.frame ScoreFacts.score_keys d d')
    end.
    { intros i d d' Ha. unfold Ranker.add_scores in Ha.
      destruct (username d); cbn [mbind option_bind] in Ha; [|discriminate].
      injection Ha as <-. apply FrameFacts.agree_frame, ScoreFacts.agree_set_scores. }
    destruct (FrameFacts.update_each_frame _ _ 0 h h1 (l0 :: r) Hf1 Hu1) as [A1 B1].
    match type of Hu2 with InPlace.update_each_from ?g _ _ _ = _ =>
      assert (Hf2 : forall i d d', g i d = Some d' -> FrameFacts.frame ScoreFacts.score_keys d d')
    end.
    { intros i d d' Ha. injection Ha as <-.
      apply FrameFacts.agree_frame, ScoreFacts.agree_set_rank. }
    destruct (FrameFacts.update_each_frame _ _ 0 h1 h2 _ Hf2 Hu2) as [A2 B2].
    split; [exact Hp|]. split.
    + intros l Hl. rewrite (A2 l); [by apply A1|]. by rewrite Hp.
    + intros l Hl. destruct (B1 l Hl) as (d & d1 & E1 & E2 & F1).
      destruct (B2 l) as (d1' & d2 & E3 & E4 & F2); [by rewrite Hp|].
      rewrite E2 in E3. injection E3 as <-.
      exists d, d2. split; [done|]. split; [done|].
      exact (FrameFacts.frame_trans _ _ _ _ F1 F2).
Qed.

(** C9 counterexample: [calculate_derived_metrics] on a list holding one
    record that already has [activity_score = 99] and [total_commits = 3]
    returns the same record, now with [activity_score = 3]. *)
Lemma derived_metrics_overwrites_in_place :
  ({[1%positive := {["total_commits" := PNum 3; "activity_score" := PNum 99]}]}
     : InPlace.heap) !! 1%positive ≫= lookup "activity_score" = Some (PNum 99) /\
  option_map (fun r => (r.2, r.1 !! 1%positive ≫= lookup "activity_score"))
    (InPlace.calculate_derived_metrics
       {[1%positive := {["total_commits" := PNum 3; "activity_score" := PNum 99]}]}
       [1%positive])
  = Some ([1%positive], Some (PNum 3)).
Proof. split; vm_compute; reflexivity. Qed.

(** C10: when [e] is the last record of user [u] in the input, every
    record of [u] in the output carries the complexity component
    normalized from [e]'s [total_complexity_score], the other component
    computed from [e]'s metrics, and the composite score made of those
    two. *)
Theorem rank_engineers_duplicate_users (l out l1 l2 : list record) (e : record) (u : string) :
  Ranker.rank_engineers l = Some out ->
  l = l1 ++ e :: l2 -> username e = Some u ->
  (forall e', e' ∈ l2 -> username e' <> Some u) ->
  exists tcs cmap ncc cfs rps oc,
    get_num e "total_complexity_score" = Some tcs /\
    Ranker.collect Ranker.complexity_entry l ∅ = Some cmap /\
    Ranker.normalize_to_100 tcs (py_min (map_to_list cmap).*2)
      (py_max (map_to_list cmap).*2) = Some ncc /\
    mapM (fun eng => get_num eng "commit_frequency") l = Some cfs /\
    mapM (fun eng => get_num eng "review_participation") l = Some rps /\
    Ranker.other_entry (py_min cfs) (py_max cfs) (py_min rps) (py_max rps) e = Some (u, oc) /\
    forall r, r ∈ out -> username r = Some u ->
      r !! "complexity_component" = Some (PNum ncc) /\
      r !! "other_component" = Some (PNum oc) /\
      r !! "composite_score" =
        Some (PNum (py_round (ncc * (1 # 2) + oc * (1 # 2)) 2)).
Proof.
  intros H Hl Hu Hlast.
  assert (Hne : l <> []) by (subst l; by destruct l1).
  destruct (RankFacts.rank_flow l out Hne H) as (cs & scored & Hcs & _ & _).
  destruct (RankFacts.composite_lookup l l1 l2 e u cs Hl Hu Hlast Hcs)
    as (tcs & cmap & ncc & cfs & rps & oc & E1 & E2 & E3 & E4 & E5 & E6 & E7).
  exists tcs, cmap, ncc, cfs, rps, oc.
  do 6 (split; [done|]).
  intros r Hr Hur.
  destruct (RankFacts.rank_record l out cs r Hne H Hcs Hr) as (u' & Hu' & F1 & F2 & F3).
  rewrite Hur in Hu'. injection Hu' as <-. rewrite E7 in F1, F2, F3. simpl in F1, F2, F3.
  done.
Qed.

(* ================================================================= *)
(** * The theorems at concrete inputs *)

(** C1 at two GitHub identities and two ticket identities. *)
Lemma match_users_partition_witness :
  NoDup ["ana-b"%string; "bo"%string] /\ NoDup ["Ana B"%string; "Cy"%string] /\
  let st := Combiner.match_users Difflib.ratio ∅ ["ana-b"%string; "bo"%string]
              ["Ana B"%string; "Cy"%string] in
  (Combiner.matched st).*1 ++ Combiner.github_only st ≡ₚ ["ana-b"%string; "bo"%string] /\
  (Combiner.matched st).*2 ++ Combiner.ticket_only st ≡ₚ ["Ana B"%string; "Cy"%string] /\
  NoDup ((Combiner.matched st).*1 ++ Combiner.github_only st) /\
  NoDup ((Combiner.matched st).*2 ++ Combiner.ticket_only st).
Proof.
  assert (H1 : NoDup ["ana-b"%string; "bo"%string])
    by (apply (bool_decide_unpack _); vm_compute; reflexivity).
  assert (H2 : NoDup ["Ana B"%string; "Cy"%string])
    by (apply (bool_decide_unpack _); vm_compute; reflexivity).
  split; [exact H1|]. split; [exact H2|].
  exact (match_users_partition Difflib.ratio ∅ _ _ H1 H2).
Defined.

(** C3 at GitHub identities [ana-b], [an_ab], [cy] and the ticket identity
    [Ana B]: no exact or manual match; in the fuzzy pass [ana-b] and
    [an_ab] tie at ratio 1, and the first one, [ana-b], is paired. *)
Lemma fuzzy_pass_greedy_witness :
  (forall g, g ∈ ["ana-b"%string; "an_ab"%string; "cy"%string] -> g <> EmptyString) /\
  Combiner.matched (Combiner.match_users Difflib.ratio ∅
    ["ana-b"%string; "an_ab"%string; "cy"%string] ["Ana B"%string]) = [("ana-b"%string, "Ana B"%string)].
Proof.
  assert (Hne : forall g, g ∈ ["ana-b"%string; "an_ab"%string; "cy"%string] -> g <> EmptyString).
  { intros g Hg. repeat (apply elem_of_cons in Hg as [->|Hg]; [discriminate|]).
    by apply not_elem_of_nil in Hg. }
  split; [exact Hne|].
  pose proof (fuzzy_pass_greedy Difflib.ratio ∅ _ ["Ana B"%string] Hne) as HT.
  cbv zeta in HT. destruct HT as [Hrun Hstep].
  set (st1 := Combiner.run_pass (Combiner.manual_step ∅) (Combiner.run_pass Combiner.exact_step
                (Combiner.mk_state [] ["ana-b"%string; "an_ab"%string; "cy"%string] ["Ana B"%string]))) in *.
  assert (Ets : Combiner.ticket_only st1 = ["Ana B"%string]) by (vm_compute; reflexivity).
  assert (Ego : Combiner.github_only st1 = [] ++ "ana-b"%string :: ["an_ab"%string; "cy"%string])
    by (vm_compute; reflexivity).
  rewrite Ets in Hrun, Hstep.
  destruct (Hstep 0%nat "Ana B"%string eq_refl) as [_ Hs]. cbn [take fold_left] in Hs.
  assert (H1 : (7 # 10 < Difflib.ratio (Combiner.norm_ticket "Ana B") (Combiner.norm_github "ana-b"))%Q)
    by (apply Qlt_alt; vm_compute; reflexivity).
  assert (H2 : forall x, x ∈ @nil string ->
     (Difflib.ratio (Combiner.norm_ticket "Ana B") (Combiner.norm_github x) <
      Difflib.ratio (Combiner.norm_ticket "Ana B") (Combiner.norm_github "ana-b"))%Q)
    by (intros x Hx; exfalso; exact (not_elem_of_nil x Hx)).
  assert (H3 : forall x, x ∈ ["an_ab"%string; "cy"%string] ->
     (Difflib.ratio (Combiner.norm_ticket "Ana B") (Combiner.norm_github x) <=
      Difflib.ratio (Combiner.norm_ticket "Ana B") (Combiner.norm_github "ana-b"))%Q).
  { intros x Hx. apply Qle_bool_iff.
    repeat (apply elem_of_cons in Hx as [->|Hx]; [vm_compute; reflexivity|]).
    exfalso. exact (not_elem_of_nil x Hx). }
  destruct (Hs [] "ana-b"%string ["an_ab"%string; "cy"%string] Ego H1 H2 H3) as (_ & Hm & _).
  rewrite Hrun. cbn [fold_left]. rewrite Hm. vm_compute. reflexivity.
Defined.

(** C4 at one GitHub identity with one repository and one ticket identity:
    the merge succeeds. *)
Lemma merge_datasets_records_witness :
  NoDup ["ana"%string] /\ NoDup ["Ana"%string] /\
  list_to_set ["ana"%string] = (dom Samples.github_sample : gset string) /\
  list_to_set ["Ana"%string] = (dom Samples.ticket_sample : gset string) /\
  is_Some (Combiner.merge_datasets (fun _ => "{}"%string) Difflib.ratio ∅
             Samples.github_sample Samples.ticket_sample ["ana"%string] ["Ana"%string]).
Proof.
  assert (H1 : NoDup ["ana"%string]) by (apply (bool_decide_unpack _); vm_compute; reflexivity).
  assert (H2 : NoDup ["Ana"%string]) by (apply (bool_decide_unpack _); vm_compute; reflexivity).
  assert (H3 : list_to_set ["ana"%string] = (dom Samples.github_sample : gset string))
    by (apply (bool_decide_unpack _); vm_compute; reflexivity).
  assert (H4 : list_to_set ["Ana"%string] = (dom Samples.ticket_sample : gset string))
    by (apply (bool_decide_unpack _); vm_compute; reflexivity).
  split; [exact H1|]. split; [exact H2|]. split; [exact H3|]. split; [exact H4|].
  apply (proj1 (merge_datasets_records (fun _ => "{}"%string) Difflib.ratio ∅ _ _ _ _
                  H1 H2 H3 H4)).
  intros g m Hg. unfold Samples.github_sample in Hg.
  apply lookup_singleton_Some in Hg as [<- <-].
  vm_compute. eexists. reflexivity.
Defined.

(** C5 at two engineers: the ranking exists and has two records. *)
Lemma rank_engineers_ranking_witness :
  [Samples.ana; Samples.bo] <> [] /\
  exists out, Ranker.rank_engineers [Samples.ana; Samples.bo] = Some out /\ length out = 2.
Proof.
  assert (H1 : [Samples.ana; Samples.bo] <> []) by discriminate.
  split; [exact H1|].
  assert (Hs : option_map length (Ranker.rank_engineers [Samples.ana; Samples.bo]) = Some 2)
    by (vm_compute; reflexivity).
  destruct (Ranker.rank_engineers [Samples.ana; Samples.bo]) as [out|] eqn:H2;
    [|discriminate Hs].
  exists out. split; [reflexivity|].
  destruct (proj2 rank_engineers_ranking _ _ H1 H2)
    as (cs & scored & _ & _ & _ & _ & _ & _ & Hlen & _).
  rewrite Hlen. reflexivity.
Defined.

(** C6 at a single engineer without AI analysis. *)
Lemma other_component_mean_witness :
  exists m, Ranker.calculate_other_component [Samples.ana_pr] = Some m /\
    exists v, m !! "ana"%string = Some v.
Proof.
  assert (H3 : username Samples.ana_pr = Some "ana"%string) by (vm_compute; reflexivity).
  assert (H4 : forall e' : record, e' ∈ @nil record -> username e' <> Some "ana"%string)
    by (intros e' He'; inversion He').
  assert (Hs : option_map (fun m : gmap string Q => bool_decide (is_Some (m !! "ana"%string)))
                 (Ranker.calculate_other_component [Samples.ana_pr]) = Some true)
    by (vm_compute; reflexivity).
  destruct (Ranker.calculate_other_component [Samples.ana_pr]) as [m|] eqn:H1;
    [|discriminate Hs].
  exists m. split; [reflexivity|].
  destruct (other_component_mean _ [] [] _ _ _ H1 eq_refl H3 H4)
    as (cfs & rps & ai & cq & rq & qs & th & hp & cf & ncf & pr & rp & nrp &
        _ & _ & _ & _ & _ & _ & _ & _ & _ & _ & _ & _ & _ & Hm & _).
  eexists. exact Hm.
Defined.

(** C7 at concrete bounds and at two engineers with equal complexity. *)
Lemma normalize_to_100_boundary_witness :
  ((3 == 3)%Q /\ Ranker.normalize_to_100 7 3 3 = Some 50%Q) /\
  ((forall e, e ∈ [Samples.cy_five; Samples.di_five] ->
      exists u q, username e = Some u /\ get_num e "total_complexity_score" = Some q /\
                  (q == 5)%Q) /\
   exists m, Ranker.calculate_complexity_component [Samples.cy_five; Samples.di_five] = Some m /\
     forall u v, m !! u = Some v -> v = 50%Q) /\
  ((0 < 10)%Q /\ (0 <= 4 <= 10)%Q /\
   exists r, Ranker.normalize_to_100 4 0 10 = Some r /\ (0 <= r <= 100)%Q).
Proof.
  split; [|split].
  - assert (H : (3 == 3)%Q) by reflexivity. split; [exact H|].
    exact (proj1 normalize_to_100_boundary 7%Q 3%Q 3%Q H).
  - assert (H : forall e, e ∈ [Samples.cy_five; Samples.di_five] ->
      exists u q, username e = Some u /\ get_num e "total_complexity_score" = Some q /\
                  (q == 5)%Q).
    { intros e He. apply elem_of_cons in He as [->|He].
      - exists "cy"%string, 5%Q. split; [vm_compute; reflexivity|].
        split; [vm_compute; reflexivity|]. reflexivity.
      - apply elem_of_cons in He as [->|He]; [|by apply not_elem_of_nil in He].
        exists "di"%string, (10 # 2)%Q. split; [vm_compute; reflexivity|].
        split; [vm_compute; reflexivity|]. vm_compute. reflexivity. }
    split; [exact H|]. exact (proj1 (proj2 normalize_to_100_boundary) _ 5%Q H).
  - assert (H1 : (0 < 10)%Q) by lra. assert (H2 : (0 <= 4 <= 10)%Q) by lra.
    split; [exact H1|]. split; [exact H2|].
    exact (proj2 (proj2 normalize_to_100_boundary) 4%Q 0%Q 10%Q H1 H2).
Defined.

(** C8 at two engineers: the second run computes the same score map. *)
Lemma rank_engineers_rerun_witness :
  exists out, Ranker.rank_engineers [Samples.ana; Samples.bo] = Some out /\
    Ranker.calculate_composite_scores out =
    Ranker.calculate_composite_scores [Samples.ana; Samples.bo].
Proof.
  assert (Hs : option_map length (Ranker.rank_engineers [Samples.ana; Samples.bo]) = Some 2)
    by (vm_compute; reflexivity).
  destruct (Ranker.rank_engineers [Samples.ana; Samples.bo]) as [out|] eqn:H;
    [|discriminate Hs].
  exists out. split; [reflexivity|]. exact (proj1 (rank_engineers_rerun _ _ H)).
Defined.

(** C9 at one record: [calculate_derived_metrics] keeps [total_commits]. *)
Lemma pipeline_stage_frames_witness :
  exists h', InPlace.calculate_derived_metrics Samples.heap_sample [1%positive]
               = Some (h', [1%positive]) /\
  exists d d', Samples.heap_sample !! 1%positive = Some d /\ h' !! 1%positive = Some d' /\
    d' !! "total_commits"%string = d !! "total_commits"%string.
Proof.
  assert (Hs : option_map snd (InPlace.calculate_derived_metrics Samples.heap_sample [1%positive])
               = Some [1%positive]) by (vm_compute; reflexivity).
  destruct (InPlace.calculate_derived_metrics Samples.heap_sample [1%positive])
    as [[h' ls]|] eqn:H; [|discriminate Hs].
  injection Hs as ->. exists h'. split; [reflexivity|].
  destruct (proj1 (proj2 pipeline_stage_frames) _ _ _ _ H) as (_ & _ & Hin).
  destruct (Hin 1%positive ltac:(left)) as (d & d' & E1 & E2 & F).
  exists d, d'. split; [exact E1|]. split; [exact E2|].
  apply F. apply (bool_decide_unpack _). vm_compute. reflexivity.
Defined.

(** C10 at three engineers, the first and last sharing the username
    [ana]. *)
Lemma rank_engineers_duplicate_users_witness :
  exists out, Ranker.rank_engineers [Samples.ana; Samples.bo; Samples.ana_again] = Some out /\
  exists ncc oc : Q, forall r, r ∈ out -> username r = Some "ana"%string ->
    r !! "composite_score"%string = Some (PNum (py_round (ncc * (1 # 2) + oc * (1 # 2))%Q 2)).
Proof.
  assert (H3 : username Samples.ana_again = Some "ana"%string) by (vm_compute; reflexivity).
  assert (H4 : forall e' : record, e' ∈ @nil record -> username e' <> Some "ana"%string)
    by (intros e' He'; inversion He').
  assert (Hs : option_map length
                 (Ranker.rank_engineers [Samples.ana; Samples.bo; Samples.ana_again]) = Some 3)
    by (vm_compute; reflexivity).
  destruct (Ranker.rank_engineers [Samples.ana; Samples.bo; Samples.ana_again])
    as [out|] eqn:H1; [|discriminate Hs].
  exists out. split; [reflexivity|].
  destruct (rank_engineers_duplicate_users _ _ [Samples.ana; Samples.bo] [] _ _
              H1 eq_refl H3 H4)
    as (tcs & cmap & ncc & cfs & rps & oc & _ & _ & _ & _ & _ & _ & Hr).
  exists ncc, oc. intros r Hr1 Hr2. exact (proj2 (proj2 (Hr r Hr1 Hr2))).
Defined.

(* ================================================================= *)
(** * Further properties of the code *)

Local Open Scope Q_scope.

(** X1: when [min_val <= max_val], [normalize_to_100] succeeds on every value and
    preserves order: a smaller value never normalizes above a larger one. *)
Theorem normalize_to_100_monotone (value1 value2 min_val max_val : Q) :
  min_val <= max_val -> value1 <= value2 ->
  exists r1 r2, Ranker.normalize_to_100 value1 min_val max_val = Some r1 /\
    Ranker.normalize_to_100 value2 min_val max_val = Some r2 /\ r1 <= r2.
Proof. apply ComponentFacts.normalize_mono. Qed.

(** X2: every complexity component computed by
    [calculate_complexity_component] lies between 0 and 100. *)
Theorem complexity_component_range (l : list record) (m : gmap string Q) (u : string) (v : Q) :
  Ranker.calculate_complexity_component l = Some m -> m !! u = Some v -> 0 <= v <= 100.
Proof. apply ComponentFacts.complexity_range. Qed.

(** X3: among engineers with distinct usernames, the complexity component
    preserves the order of [total_complexity_score]: a lower total never gets a
    higher component. *)
Theorem complexity_component_order (l : list record) (m : gmap string Q)
    (e1 e2 : record) (u1 u2 : string) (s1 s2 : Q) :
  NoDup (map username l) -> Ranker.calculate_complexity_component l = Some m ->
  e1 ∈ l -> e2 ∈ l -> username e1 = Some u1 -> username e2 = Some u2 ->
  get_num e1 "total_complexity_score" = Some s1 ->
  get_num e2 "total_complexity_score" = Some s2 ->
  s1 <= s2 ->
  exists c1 c2, m !! u1 = Some c1 /\ m !! u2 = Some c2 /\ c1 <= c2.
Proof. apply ComponentFacts.complexity_order. Qed.

(** X4: [calculate_composite_scores] has an entry for a username exactly when
    some input engineer carries that [github_username]. *)
Theorem composite_scores_domain (l : list record) (cs : gmap string Ranker.scores) (u : string) :
  Ranker.calculate_composite_scores l = Some cs ->
  (is_Some (cs !! u) <-> exists e, e ∈ l /\ username e = Some u).
Proof. apply CompositeFacts.composite_domain. Qed.

(** X5: when every engineer's AI [quality_score], [thoroughness_score] and
    [helpfulness_score] (where present) lie in [0, 10] and its [pr_merge_rate]
    (where present) in [0, 100], every complexity, other and composite score computed by
    [calculate_composite_scores] lies between 0 and 100. *)
Theorem composite_scores_range (l : list record) (cs : gmap string Ranker.scores)
    (u : string) (s : Ranker.scores) :
  (forall e, e ∈ l -> CompositeFacts.inputs_in_range e) ->
  Ranker.calculate_composite_scores l = Some cs -> cs !! u = Some s ->
  0 <= Ranker.complexity_component s <= 100 /\ 0 <= Ranker.other_component s <= 100 /\
  0 <= Ranker.composite_score s <= 100.
Proof. apply CompositeFacts.composite_range. Qed.

(** X6: [_get_rank_label] is monotone in the rank: for ranks [1 <= rank1 <=
    rank2] of the same team, [rank1] gets a label at least as good as [rank2]'s. *)
Theorem get_rank_label_monotone (rank1 rank2 total : nat) :
  (1 <= rank1)%nat -> (rank1 <= rank2)%nat ->
  (Ranker.get_rank_label rank2 total = Ranker.top_label ->
   Ranker.get_rank_label rank1 total = Ranker.top_label) /\
  (Ranker.get_rank_label rank2 total = Ranker.top_label \/
   Ranker.get_rank_label rank2 total = Ranker.high_label ->
   Ranker.get_rank_label rank1 total = Ranker.top_label \/
   Ranker.get_rank_label rank1 total = Ranker.high_label) /\
  (Ranker.get_rank_label rank2 total <> Ranker.developing_label ->
   Ranker.get_rank_label rank1 total <> Ranker.developing_label).
Proof. apply LabelFacts.label_mono. Qed.

(** X7: in the output of [rank_engineers], exactly the first record is labelled
    Top Performer, and percentiles lie between 0 and 100 and never increase
    down the list. *)
Theorem rank_engineers_top_and_percentiles (l out : list record) :
  Ranker.rank_engineers l = Some out ->
  (forall i r, out !! i = Some r ->
     r !! "rank_label" = Some (PStr Ranker.top_label) <-> i = 0%nat) /\
  (forall i j ri rj, (i <= j)%nat -> out !! i = Some ri -> out !! j = Some rj ->
     exists pi pj, ri !! "percentile" = Some (PNum pi) /\ rj !! "percentile" = Some (PNum pj) /\
       0 <= pj /\ pj <= pi /\ pi <= 100).
Proof. apply RankOutputFacts.rank_output_order. Qed.

(** X8: [get_rank_summary] returns an empty summary on an empty list; otherwise
    the top-50 and bottom-50 counts add up to the number of engineers and the
    top-10 count is at most the top-50 count. *)
Theorem get_rank_summary_counts :
  Summary.get_rank_summary [] = Some None /\
  forall (ranked : list record) (s : Summary.rank_summary),
    Summary.get_rank_summary ranked = Some (Some s) ->
    (Summary.top_50_percent s + Summary.bottom_50_percent s = Summary.total_engineers s)%nat /\
    (Summary.top_10_percent s <= Summary.top_50_percent s)%nat.
Proof. split; [reflexivity|]. apply SummaryFacts.summary_counts. Qed.

(** X9: summarising a non-empty output of [rank_engineers] succeeds: the top
    performer is the rank-1 record, its score is the maximum, the count is the
    number of inputs, and the average lies between the minimum and maximum. *)
Theorem get_rank_summary_of_ranking (l out : list record) :
  l <> [] -> Ranker.rank_engineers l = Some out ->
  exists s r0 u,
    Summary.get_rank_summary out = Some (Some s) /\
    out !! 0%nat = Some r0 /\
    r0 !! "github_username" = Some (PStr u) /\
    r0 !! "rank" = Some (PNum 1) /\
    Summary.top_performer s = PStr u /\
    Summary.total_engineers s = length l /\
    Summary.top_performer_score s = Summary.max_composite_score s /\
    Summary.min_composite_score s <= Summary.avg_composite_score s <= Summary.max_composite_score s.
Proof. apply RankOutputFacts.rank_summary_of_output. Qed.

(** X10: the commit frequency is never negative, the merge rate lies in
    [0, 100] when [0 <= prs_merged <= prs_created], and the review
    participation is non-negative for non-negative counts. *)
Theorem calculator_ratio_ranges {A} (commits : list A)
    (days prs_created prs_merged reviews_given reviews_received : Z) :
  (0 <= prs_merged <= prs_created)%Z -> (0 <= reviews_given)%Z -> (0 <= reviews_received)%Z ->
  0 <= Calc.calculate_commit_frequency commits days /\
  0 <= Calc.calculate_pr_merge_rate prs_created prs_merged <= 100 /\
  0 <= Calc.calculate_review_participation reviews_given reviews_received.
Proof.
  intros Hm Hg Hr. split; [|split].
  - unfold Calc.calculate_commit_frequency. destruct (Z.leb_spec days 0); [lra|].
    apply CalcFacts.ratio_nonneg; lia.
  - exact (CalcFacts.pr_merge_rate_range _ _ Hm).
  - unfold Calc.calculate_review_participation.
    destruct (Z.eqb_spec reviews_received 0); [lra|]. apply CalcFacts.ratio_nonneg; lia.
Qed.

(** X11: the derived-metrics step reads [total_tickets] and [tickets_closed];
    with no positive ticket total both ticket ratios are 0, and with
    [0 <= tickets_closed <= total_tickets] the closure rate lies in [0, 100]. *)
Theorem derive_user_rates (d d' : record) :
  Derived.derive_user d = Some d' ->
  exists total_tickets tickets_closed,
    get_num d "total_tickets" = Some total_tickets /\
    get_num d "tickets_closed" = Some tickets_closed /\
    (total_tickets <= 0 ->
     d' !! "commits_per_ticket" = Some (PNum 0) /\ d' !! "ticket_closure_rate" = Some (PNum 0)) /\
    (0 <= tickets_closed <= total_tickets ->
     exists r, d' !! "ticket_closure_rate" = Some (PNum r) /\ 0 <= r <= 100).
Proof.
  intros H.
  destruct (DerivedFacts.derive_user_shape d d' H)
    as (tc & tt & pc & rg & tcl & E1 & E2 & E3 & E4 & E5 & ->).
  exists tt, tcl. split; [done|]. split; [done|]. split.
  - intros Hle. assert (Hf : Qltb 0 tt = false).
    { unfold Qltb. apply negb_false_iff, Qle_bool_iff. exact Hle. }
    rewrite Hf. split.
    + rewrite lookup_insert_ne by discriminate. rewrite lookup_insert_ne by discriminate.
      by rewrite lookup_insert_eq.
    + by rewrite lookup_insert_eq.
  - intros Hc. rewrite lookup_insert_eq.
    destruct (Qltb 0 tt) eqn:Ht.
    + eexists. split; [reflexivity|].
      unfold Qltb in Ht. apply negb_true_iff in Ht.
      assert (Hpos : 0 < tt).
      { apply Qnot_le_lt. intros Hle. apply Qle_bool_iff in Hle. congruence. }
      apply (NumFacts.py_round_int_bounds _ 1 0 100).
      change (inject_Z 0) with 0. change (inject_Z 100) with 100.
      assert (F0 : 0 <= tcl / tt) by (apply Qle_shift_div_l; [exact Hpos|lra]).
      assert (F1 : tcl / tt <= 1) by (apply Qle_shift_div_r; [exact Hpos|lra]).
      lra.
    + exists 0. split; [reflexivity|lra].
Qed.

(** X12: [calculate_derived_metrics] returns the list it was given, and running it
    a second time on the updated records changes nothing. *)
Theorem calculate_derived_metrics_idempotent (h h1 : InPlace.heap) (ls ls1 : list InPlace.loc) :
  InPlace.calculate_derived_metrics h ls = Some (h1, ls1) ->
  ls1 = ls /\ InPlace.calculate_derived_metrics h1 ls = Some (h1, ls).
Proof.
  intros H. unfold InPlace.calculate_derived_metrics in H |- *.
  destruct (InPlace.update_each_from _ 0 h ls) as [h'|] eqn:E; cbn [mbind option_bind] in H;
    [|discriminate].
  injection H as <- <-. split; [done|].
  rewrite (DerivedFacts.update_id _ 0 h' ls); [reflexivity|].
  exact (DerivedFacts.update_fixpoints _ DerivedFacts.derive_user_fix 0 h h' ls E).
Qed.

(** X13: a score returned by [_extract_complexity_score] comes from a field value
    of one of the issue's project items whose field name contains "complexity"
    (case-insensitively) and whose value converts to that number. *)
Theorem extract_complexity_score_sound (py_float : pyval -> option Q) (issue : pyval) (q : Q) :
  Complexity.extract_complexity_score py_float issue = Some q ->
  exists pis nodes project_items project_item fvs field_nodes field_values field_value,
    Complexity.py_get issue "projectItems" (PDict []) = Some pis /\
    Complexity.py_get pis "nodes" (PList []) = Some nodes /\
    Complexity.py_iter nodes = Some project_items /\
    project_item ∈ project_items /\
    Complexity.py_get project_item "fieldValues" (PDict []) = Some fvs /\
    Complexity.py_get fvs "nodes" (PList []) = Some field_nodes /\
    Complexity.py_iter field_nodes = Some field_values /\
    field_value ∈ field_values /\
    ComplexityFacts.complexity_field py_float field_value q.
Proof.
  unfold Complexity.extract_complexity_score.
  destruct (Complexity.py_get issue "projectItems" (PDict [])) as [pis|] eqn:E1;
    cbn [mbind option_bind]; [|discriminate].
  destruct (Complexity.py_get pis "nodes" (PList [])) as [nodes|] eqn:E2;
    cbn [mbind option_bind]; [|discriminate].
  destruct (Complexity.py_iter nodes) as [items|] eqn:E3; cbn [mbind option_bind]; [|discriminate].
  destruct (Complexity.scan_project_items py_float items) as [[q'|]|] eqn:E4; [|discriminate..].
  intros [= <-].
  destruct (ComplexityFacts.scan_project_items_sound py_float items q' E4)
    as (pi & fvs & fnodes & fvals & fv & Hpi & F1 & F2 & F3 & Hfv & Hc).
  exists pis, nodes, items, pi, fvs, fnodes, fvals, fv. auto 10.
Qed.

(** X14: after the pull-request loop of [aggregate_by_team_member], a user's
    [prs_created] is the number of pull requests whose author login is that
    (non-empty) user, [prs_merged] the number of those with a non-empty
    [mergedAt], and [pr_additions] and [pr_deletions] the sums of their
    [additions] and [deletions]. *)
Theorem aggregate_pr_counts (calculate_hours_between : string -> string -> Q)
    (prs : list PullRequests.pull_request) (user_metrics : gmap string PullRequests.pr_metrics)
    (u : string) :
  PullRequests.process_prs calculate_hours_between prs = Some user_metrics ->
  let m := PullRequests.metrics_of user_metrics u in
  PullRequests.prs_created m = length (List.filter (PRFacts.authored_by u) prs) /\
  PullRequests.prs_merged m =
    length (List.filter (fun pr => PRFacts.authored_by u pr &&
                                   PullRequests.truthy (PullRequests.mergedAt pr)) prs) /\
  PullRequests.pr_additions m = PRFacts.Zsum PullRequests.additions (List.filter (PRFacts.authored_by u) prs) /\
  PullRequests.pr_deletions m = PRFacts.Zsum PullRequests.deletions (List.filter (PRFacts.authored_by u) prs).
Proof.
  intros H m. pose proof (PRFacts.process_prs_from_counters _ _ _ _ H u) as Hc.
  unfold PRFacts.counters in Hc. fold m in Hc. injection Hc as -> -> -> ->.
  repeat split.
Qed.

(** X15: after the pull-request loop, a user's [reviews_given] lists, in order,
    one entry per review with that reviewer login on a pull request that has an
    author; [reviews_received] one entry per review with a non-empty reviewer
    login on the user's own pull requests; [review_times] one time per review
    given.  Reviews on pull requests without an author are credited to no one. *)
Theorem aggregate_review_lists (calculate_hours_between : string -> string -> Q)
    (prs : list PullRequests.pull_request) (user_metrics : gmap string PullRequests.pr_metrics)
    (u : string) :
  PullRequests.process_prs calculate_hours_between prs = Some user_metrics ->
  let m := PullRequests.metrics_of user_metrics u in
  PullRequests.reviews_given m = flat_map (PRFacts.given_entries u) prs /\
  PullRequests.reviews_received m = flat_map (PRFacts.received_entries u) prs /\
  PullRequests.review_times m = flat_map (PRFacts.time_entries calculate_hours_between u) prs.
Proof.
  intros H m. exact (PRFacts.process_prs_from_lists _ _ _ _ H u).
Qed.

(** X16: after the pull-request loop, every user has as many [review_times] as
    [reviews_given], so [avg_review_time_hours] is 0 for a user who gave no
    review. *)
Theorem aggregate_review_times_length (calculate_hours_between : string -> string -> Q)
    (prs : list PullRequests.pull_request) (user_metrics : gmap string PullRequests.pr_metrics)
    (u : string) :
  PullRequests.process_prs calculate_hours_between prs = Some user_metrics ->
  let m := PullRequests.metrics_of user_metrics u in
  length (PullRequests.review_times m) = length (PullRequests.reviews_given m) /\
  (PullRequests.reviews_given m = [] -> PullRequests.avg_review_time_hours m = 0).
Proof.
  intros H m. destruct (PRFacts.process_prs_from_lists _ _ _ _ H u) as (G & _ & T).
  fold m in G, T. cbn in G, T.
  assert (Hl : length (PullRequests.review_times m) = length (PullRequests.reviews_given m)).
  { rewrite G, T. unfold PRFacts.given_entries, PRFacts.time_entries.
    apply PRFacts.flat_map_length_eq. intros pr.
    apply PRFacts.flat_map_length_eq. intros n. symmetry. apply PRFacts.given_time_length. }
  split; [exact Hl|]. intros Hg. rewrite Hg in Hl.
  unfold PullRequests.avg_review_time_hours.
  destruct (PullRequests.review_times m); [reflexivity|discriminate].
Qed.

(** X17: the pull-request loop raises exactly when some pull request with a
    non-empty author login has [null] reviews or nodes, or a [null] review
    node; pull requests without an author are skipped before their reviews are
    read. *)
Theorem aggregate_prs_fails (calculate_hours_between : string -> string -> Q)
    (prs : list PullRequests.pull_request) :
  PullRequests.process_prs calculate_hours_between prs = None <->
  exists pr, pr ∈ prs /\ PullRequests.truthy (PullRequests.author_login pr) = true /\
    (PullRequests.review_nodes pr = None \/
     exists nodes, PullRequests.review_nodes pr = Some nodes /\ None ∈ nodes).
Proof. apply PRFacts.process_prs_from_fails. Qed.

(** X18: after the pull-request loop, every user has [prs_merged <= prs_created],
    [pr_merge_rate] lies in [0, 100] and equals
    [MetricsCalculator.calculate_pr_merge_rate] of the two counts, and
    [review_participation] equals [MetricsCalculator.calculate_review_participation]
    of the review counts. *)
Theorem aggregate_pr_rates (calculate_hours_between : string -> string -> Q)
    (prs : list PullRequests.pull_request) (user_metrics : gmap string PullRequests.pr_metrics)
    (u : string) :
  PullRequests.process_prs calculate_hours_between prs = Some user_metrics ->
  let m := PullRequests.metrics_of user_metrics u in
  (PullRequests.prs_merged m <= PullRequests.prs_created m)%nat /\
  0 <= PullRequests.pr_merge_rate m <= 100 /\
  PullRequests.pr_merge_rate m =
    Calc.calculate_pr_merge_rate (Z.of_nat (PullRequests.prs_created m))
                                 (Z.of_nat (PullRequests.prs_merged m)) /\
  PullRequests.review_participation m =
    Calc.calculate_review_participation (Z.of_nat (length (PullRequests.reviews_given m)))
                                        (Z.of_nat (length (PullRequests.reviews_received m))).
Proof.
  intros H m. pose proof (PRFacts.process_prs_from_counters _ _ _ _ H u) as Hc.
  unfold PRFacts.counters in Hc. fold m in Hc. injection Hc as Ec Em _ _.
  cbn in Ec, Em.
  assert (Hle : (PullRequests.prs_merged m <= PullRequests.prs_created m)%nat).
  { rewrite Ec, Em. apply PRFacts.filter_length_le. intros pr Hpr.
    apply andb_true_iff in Hpr as [Hpr _]. exact Hpr. }
  assert (Hrate : PullRequests.pr_merge_rate m =
    Calc.calculate_pr_merge_rate (Z.of_nat (PullRequests.prs_created m))
                                 (Z.of_nat (PullRequests.prs_merged m))).
  { unfold PullRequests.pr_merge_rate, Calc.calculate_pr_merge_rate.
    destruct (PullRequests.prs_created m) as [|c]; [reflexivity|]. reflexivity. }
  split; [exact Hle|]. split; [|split; [exact Hrate|]].
  - rewrite Hrate. apply CalcFacts.pr_merge_rate_range. lia.
  - unfold PullRequests.review_participation, Calc.calculate_review_participation.
    destruct (length (PullRequests.reviews_received m)) as [|r]; reflexivity.
Qed.

(** X19: after the commit loop of [aggregate_by_team_member], a user's
    [total_commits] is the number of commits whose author's GitHub user has
    that (non-empty) login, [commit_dates] lists their [committedDate] in
    order, and [commit_additions] and [commit_deletions] are the sums of
    their [additions] and [deletions]. *)
Theorem aggregate_commit_counts (commits : list Commits.commit)
    (user_metrics : gmap string Commits.commit_metrics) (u : string) :
  Commits.process_commits commits = Some user_metrics ->
  let m := Commits.metrics_of user_metrics u in
  Commits.total_commits m = length (List.filter (CommitFacts.committed_by u) commits) /\
  Commits.commit_dates m = map Commits.committedDate (List.filter (CommitFacts.committed_by u) commits) /\
  Commits.commit_additions m =
    CommitFacts.Zsum Commits.additions (List.filter (CommitFacts.committed_by u) commits) /\
  Commits.commit_deletions m =
    CommitFacts.Zsum Commits.deletions (List.filter (CommitFacts.committed_by u) commits).
Proof.
  intros H m. exact (CommitFacts.process_commits_from_counts _ _ _ H u).
Qed.

(** X20: the commit loop raises exactly when some commit has a [null]
    [author]; commits without a GitHub user or login are skipped. *)
Theorem aggregate_commits_fails (commits : list Commits.commit) :
  Commits.process_commits commits = None <-> exists c, c ∈ commits /\ Commits.author c = None.
Proof. apply CommitFacts.process_commits_from_fails. Qed.

(** X21: for a non-negative day count the result's [commit_frequency] equals
    [MetricsCalculator.calculate_commit_frequency] of the user's commits over
    [days or 1] days and is non-negative; a range of 0 days counts as one
    day, so the frequency is [total_commits]; a negative range gives a
    frequency of at most 0. *)
Theorem aggregate_commit_frequency (commits : list Commits.commit)
    (user_metrics : gmap string Commits.commit_metrics) (u : string) (days : Z) :
  Commits.process_commits commits = Some user_metrics ->
  let m := Commits.metrics_of user_metrics u in
  ((0 <= days)%Z ->
   Commits.commit_frequency days m =
     Calc.calculate_commit_frequency (Commits.commit_dates m) (Commits.num_days days) /\
   0 <= Commits.commit_frequency days m) /\
  (days = 0%Z -> Commits.commit_frequency days m == inject_Z (Z.of_nat (Commits.total_commits m))) /\
  ((days < 0)%Z -> Commits.commit_frequency days m <= 0).
Proof.
  intros H m. destruct (CommitFacts.process_commits_from_counts _ _ _ H u) as (T & D & _ & _).
  fold m in T, D.
  assert (F : Commits.metrics_of ∅ u = Commits.fresh_metrics) by reflexivity.
  rewrite F in T, D. cbn [Commits.total_commits Commits.commit_dates Commits.fresh_metrics app Nat.add] in T, D.
  assert (Hlen : length (Commits.commit_dates m) = Commits.total_commits m).
  { rewrite D, T, length_map. reflexivity. }
  split; [|split].
  - intros Hd.
    assert (Hn : (0 < Commits.num_days days)%Z).
    { unfold Commits.num_days. destruct (Z.eqb_spec days 0); lia. }
    assert (Eq : Commits.commit_frequency days m =
                 Calc.calculate_commit_frequency (Commits.commit_dates m) (Commits.num_days days)).
    { unfold Commits.commit_frequency, Calc.calculate_commit_frequency.
      destruct (Z.leb_spec (Commits.num_days days) 0); [lia|]. rewrite Hlen. reflexivity. }
    split; [exact Eq|]. rewrite Eq. unfold Calc.calculate_commit_frequency.
    destruct (Z.leb_spec (Commits.num_days days) 0); [lra|]. apply CalcFacts.ratio_nonneg; lia.
  - intros ->. unfold Commits.commit_frequency, Commits.num_days. cbn [Z.eqb].
    set (t := Z.of_nat (Commits.total_commits m)).
    unfold py_round. rewrite Qred_correct.
    assert (E : inject_Z t / inject_Z 1 * inject_Z (10 ^ Z.of_nat 2) == inject_Z (t * 100)).
    { rewrite inject_Z_mult. change (10 ^ Z.of_nat 2)%Z with 100%Z. field. }
    rewrite (NumFacts.round_half_even_proper _ _ E), RoundFacts.round_half_even_int.
    rewrite inject_Z_mult. change (10 ^ Z.of_nat 2)%Z with 100%Z. field.
  - intros Hd. unfold Commits.commit_frequency.
    assert (Hn : (Commits.num_days days < 0)%Z).
    { unfold Commits.num_days. destruct (Z.eqb_spec days 0); lia. }
    rewrite <- (SummaryFacts.py_round_zero 2). apply RoundFacts.py_round_mono.
    apply CommitFacts.div_nonpos.
    + change 0 with (inject_Z 0). rewrite <- Zle_Qle. lia.
    + change 0 with (inject_Z 0). rewrite <- Zlt_Qlt. exact Hn.
Qed.

(* ================================================================= *)
(** * Further properties at concrete inputs *)

Lemma normalize_to_100_monotone_witness :
  0 <= 10 /\ 2 <= 7 /\
  exists r1 r2, Ranker.normalize_to_100 2 0 10 = Some r1 /\
    Ranker.normalize_to_100 7 0 10 = Some r2 /\ r1 <= r2.
Proof.
  assert (H1 : 0 <= 10) by lra. assert (H2 : 2 <= 7) by lra.
  split; [exact H1|]. split; [exact H2|]. exact (normalize_to_100_monotone 2 7 0 10 H1 H2).
Defined.

Lemma complexity_component_range_witness :
  exists m v, Ranker.calculate_complexity_component [Samples.ana; Samples.bo] = Some m /\
    m !! "ana"%string = Some v /\ 0 <= v <= 100.
Proof.
  assert (Hs : option_map (fun m : gmap string Q => bool_decide (is_Some (m !! "ana"%string)))
                 (Ranker.calculate_complexity_component [Samples.ana; Samples.bo]) = Some true)
    by (vm_compute; reflexivity).
  destruct (Ranker.calculate_complexity_component [Samples.ana; Samples.bo]) as [m|] eqn:H1;
    [|discriminate Hs].
  injection Hs as Hs. apply bool_decide_eq_true in Hs.
  destruct (m !! "ana"%string) as [v|] eqn:H2; [|by destruct Hs].
  exists m, v. split; [reflexivity|]. split; [exact H2|].
  exact (complexity_component_range _ m _ v H1 H2).
Defined.




Lemma complexity_component_order_witness :
  NoDup (map username [Samples.bo; Samples.ana]) /\
  exists m, Ranker.calculate_complexity_component [Samples.bo; Samples.ana] = Some m /\
    exists c1 c2, m !! "bo"%string = Some c1 /\ m !! "ana"%string = Some c2 /\ c1 <= c2.
Proof.
  assert (Hnd : NoDup (map username [Samples.bo; Samples.ana]))
    by (apply (bool_decide_unpack _); vm_compute; reflexivity).
  split; [exact Hnd|].
  assert (Hs : option_map (fun _ => true)
                 (Ranker.calculate_complexity_component [Samples.bo; Samples.ana]) = Some true)
    by (vm_compute; reflexivity).
  destruct (Ranker.calculate_complexity_component [Samples.bo; Samples.ana]) as [m|] eqn:H;
    [|discriminate Hs].
  exists m. split; [reflexivity|].
  assert (He1 : Samples.bo ∈ [Samples.bo; Samples.ana]) by left.
  assert (He2 : Samples.ana ∈ [Samples.bo; Samples.ana]) by (right; left).
  assert (Hu1 : username Samples.bo = Some "bo"%string) by (vm_compute; reflexivity).
  assert (Hu2 : username Samples.ana = Some "ana"%string) by (vm_compute; reflexivity).
  assert (Hs1 : get_num Samples.bo "total_complexity_score" = Some 4) by (vm_compute; reflexivity).
  assert (Hs2 : get_num Samples.ana "total_complexity_score" = Some 10) by (vm_compute; reflexivity).
  assert (Hle : 4 <= 10) by lra.
  exact (complexity_component_order _ m _ _ _ _ _ _ Hnd H He1 He2 Hu1 Hu2 Hs1 Hs2 Hle).
Defined.

Lemma composite_scores_domain_witness :
  exists cs, Ranker.calculate_composite_scores [Samples.ana; Samples.bo] = Some cs /\
    is_Some (cs !! "ana"%string).
Proof.
  assert (Hs : option_map (fun _ => true)
                 (Ranker.calculate_composite_scores [Samples.ana; Samples.bo]) = Some true)
    by (vm_compute; reflexivity).
  destruct (Ranker.calculate_composite_scores [Samples.ana; Samples.bo]) as [cs|] eqn:H;
    [|discriminate Hs].
  exists cs. split; [reflexivity|].
  apply (proj2 (composite_scores_domain _ cs _ H)).
  exists Samples.ana. split; [left|vm_compute; reflexivity].
Defined.

Lemma composite_scores_range_witness :
  (forall e, e ∈ [Samples.ana; Samples.bo] -> CompositeFacts.inputs_in_range e) /\
  exists cs s, Ranker.calculate_composite_scores [Samples.ana; Samples.bo] = Some cs /\
    cs !! "ana"%string = Some s /\ 0 <= Ranker.composite_score s <= 100.
Proof.
  assert (Hin : forall e, e ∈ [Samples.ana; Samples.bo] -> CompositeFacts.inputs_in_range e).
  { intros e He.
    assert (He' : e = Samples.ana \/ e = Samples.bo).
    { apply elem_of_cons in He as [->|He]; [by left|].
      apply elem_of_cons in He as [->|He]; [by right|by apply not_elem_of_nil in He]. }
    unfold CompositeFacts.inputs_in_range.
    destruct He' as [->| ->]; split; [|split| |split];
      intros; repeat match goal with H : _ = Some _ |- _ => vm_compute in H; injection H as <- end;
      lra. }
  split; [exact Hin|].
  assert (Hs : option_map (fun cs : gmap string Ranker.scores => bool_decide (is_Some (cs !! "ana"%string)))
                 (Ranker.calculate_composite_scores [Samples.ana; Samples.bo]) = Some true)
    by (vm_compute; reflexivity).
  destruct (Ranker.calculate_composite_scores [Samples.ana; Samples.bo]) as [cs|] eqn:H;
    [|discriminate Hs].
  injection Hs as Hs. apply bool_decide_eq_true in Hs.
  destruct (cs !! "ana"%string) as [s|] eqn:H2; [|by destruct Hs].
  exists cs, s. split; [reflexivity|]. split; [exact H2|].
  exact (proj2 (proj2 (composite_scores_range _ cs _ s Hin H H2))).
Defined.

Lemma get_rank_label_monotone_witness :
  (1 <= 2)%nat /\ (2 <= 5)%nat /\
  (Ranker.get_rank_label 5 10 <> Ranker.developing_label ->
   Ranker.get_rank_label 2 10 <> Ranker.developing_label).
Proof.
  assert (H1 : (1 <= 2)%nat) by lia. assert (H2 : (2 <= 5)%nat) by lia.
  split; [exact H1|]. split; [exact H2|].
  exact (proj2 (proj2 (get_rank_label_monotone 2 5 10 H1 H2))).
Defined.

Lemma rank_engineers_top_and_percentiles_witness :
  exists out r, Ranker.rank_engineers [Samples.ana; Samples.bo] = Some out /\
    out !! 1%nat = Some r /\ r !! "rank_label"%string <> Some (PStr Ranker.top_label).
Proof.
  assert (Hs : option_map length (Ranker.rank_engineers [Samples.ana; Samples.bo]) = Some 2%nat)
    by (vm_compute; reflexivity).
  destruct (Ranker.rank_engineers [Samples.ana; Samples.bo]) as [out|] eqn:H; [|discriminate Hs].
  injection Hs as Hs.
  destruct (out !! 1%nat) as [r|] eqn:Hr.
  2: { apply lookup_ge_None in Hr. lia. }
  exists out, r. split; [reflexivity|]. split; [exact Hr|].
  intros E. apply (proj1 (rank_engineers_top_and_percentiles _ _ H) 1%nat r Hr) in E.
  discriminate E.
Defined.

Lemma get_rank_summary_counts_witness :
  exists out s, Ranker.rank_engineers [Samples.ana; Samples.bo] = Some out /\
    Summary.get_rank_summary out = Some (Some s) /\
    (Summary.top_50_percent s + Summary.bottom_50_percent s = Summary.total_engineers s)%nat.
Proof.
  assert (Hs : option_map (fun out => option_map (fun o => bool_decide (is_Some o))
                                        (Summary.get_rank_summary out))
                 (Ranker.rank_engineers [Samples.ana; Samples.bo]) = Some (Some true))
    by (vm_compute; reflexivity).
  destruct (Ranker.rank_engineers [Samples.ana; Samples.bo]) as [out|] eqn:H; [|discriminate Hs].
  injection Hs as Hs.
  destruct (Summary.get_rank_summary out) as [[s|]|] eqn:H2; [|discriminate Hs|discriminate Hs].
  exists out, s. split; [reflexivity|]. split; [exact H2|].
  exact (proj1 (proj2 get_rank_summary_counts out s H2)).
Defined.

Lemma get_rank_summary_of_ranking_witness :
  [Samples.ana; Samples.bo] <> [] /\
  exists out s, Ranker.rank_engineers [Samples.ana; Samples.bo] = Some out /\
    Summary.get_rank_summary out = Some (Some s) /\
    Summary.top_performer_score s = Summary.max_composite_score s.
Proof.
  assert (Hne : [Samples.ana; Samples.bo] <> []) by discriminate.
  split; [exact Hne|].
  assert (Hs : option_map length (Ranker.rank_engineers [Samples.ana; Samples.bo]) = Some 2%nat)
    by (vm_compute; reflexivity).
  destruct (Ranker.rank_engineers [Samples.ana; Samples.bo]) as [out|] eqn:H; [|discriminate Hs].
  destruct (get_rank_summary_of_ranking _ out Hne H)
    as (s & r0 & u & H1 & _ & _ & _ & _ & _ & H2 & _).
  exists out, s. split; [reflexivity|]. split; [exact H1|exact H2].
Defined.

Lemma calculator_ratio_ranges_witness :
  (0 <= 3 <= 4)%Z /\ (0 <= 2)%Z /\ (0 <= 5)%Z /\
  0 <= Calc.calculate_commit_frequency [tt; tt; tt] 7 /\
  0 <= Calc.calculate_pr_merge_rate 4 3 <= 100 /\
  0 <= Calc.calculate_review_participation 2 5.
Proof.
  assert (H1 : (0 <= 3 <= 4)%Z) by lia. assert (H2 : (0 <= 2)%Z) by lia.
  assert (H3 : (0 <= 5)%Z) by lia.
  split; [exact H1|]. split; [exact H2|]. split; [exact H3|].
  exact (calculator_ratio_ranges [tt; tt; tt] 7 4 3 2 5 H1 H2 H3).
Defined.

Lemma derive_user_rates_witness :
  exists d', Derived.derive_user Samples2.tickets_sample = Some d' /\
    exists r, d' !! "ticket_closure_rate"%string = Some (PNum r) /\ 0 <= r <= 100.
Proof.
  assert (Hs : option_map (fun _ => true) (Derived.derive_user Samples2.tickets_sample) = Some true)
    by (vm_compute; reflexivity).
  destruct (Derived.derive_user Samples2.tickets_sample) as [d'|] eqn:H; [|discriminate Hs].
  exists d'. split; [reflexivity|].
  destruct (derive_user_rates _ d' H) as (tt' & tc & E1 & E2 & _ & R).
  vm_compute in E1, E2. injection E1 as <-. injection E2 as <-.
  apply R. lra.
Defined.

Lemma calculate_derived_metrics_idempotent_witness :
  exists h1, InPlace.calculate_derived_metrics Samples.heap_sample [1%positive]
               = Some (h1, [1%positive]) /\
    InPlace.calculate_derived_metrics h1 [1%positive] = Some (h1, [1%positive]).
Proof.
  assert (Hs : option_map snd (InPlace.calculate_derived_metrics Samples.heap_sample [1%positive])
               = Some [1%positive]) by (vm_compute; reflexivity).
  destruct (InPlace.calculate_derived_metrics Samples.heap_sample [1%positive])
    as [[h1 ls]|] eqn:H; [|discriminate Hs].
  injection Hs as ->. exists h1. split; [reflexivity|].
  exact (proj2 (calculate_derived_metrics_idempotent _ h1 _ _ H)).
Defined.

Lemma extract_complexity_score_sound_witness :
  Complexity.extract_complexity_score py_num Samples2.issue_sample = Some 5 /\
  exists field_value, ComplexityFacts.complexity_field py_num field_value 5.
Proof.
  assert (H : Complexity.extract_complexity_score py_num Samples2.issue_sample = Some 5)
    by (vm_compute; reflexivity).
  split; [exact H|].
  destruct (extract_complexity_score_sound py_num _ 5 H) as (p1 & p2 & p3 & p4 & p5 & p6 & p7 & fv & R).
  exists fv. destruct R as (_ & _ & _ & _ & _ & _ & _ & _ & Hc). exact Hc.
Defined.

Lemma aggregate_pr_counts_witness :
  exists um, PullRequests.process_prs Samples3.hours Samples3.pr_sample = Some um /\
    PullRequests.prs_created (PullRequests.metrics_of um "ana"%string) = 1%nat /\
    PullRequests.prs_merged (PullRequests.metrics_of um "ana"%string) = 1%nat.
Proof.
  assert (Hs : option_map (fun _ => tt) (PullRequests.process_prs Samples3.hours Samples3.pr_sample)
               = Some tt) by (vm_compute; reflexivity).
  destruct (PullRequests.process_prs Samples3.hours Samples3.pr_sample) as [um|] eqn:H;
    [|discriminate Hs].
  exists um. split; [reflexivity|].
  destruct (aggregate_pr_counts _ _ _ "ana"%string H) as (A & B & _).
  rewrite A, B. split; vm_compute; reflexivity.
Defined.

Lemma aggregate_review_lists_witness :
  exists um, PullRequests.process_prs Samples3.hours Samples3.pr_sample = Some um /\
    length (PullRequests.reviews_given (PullRequests.metrics_of um "ana"%string)) = 1%nat /\
    length (PullRequests.reviews_received (PullRequests.metrics_of um "ana"%string)) = 1%nat /\
    PullRequests.review_times (PullRequests.metrics_of um "ana"%string) = [5].
Proof.
  assert (Hs : option_map (fun _ => tt) (PullRequests.process_prs Samples3.hours Samples3.pr_sample)
               = Some tt) by (vm_compute; reflexivity).
  destruct (PullRequests.process_prs Samples3.hours Samples3.pr_sample) as [um|] eqn:H;
    [|discriminate Hs].
  exists um. split; [reflexivity|].
  destruct (aggregate_review_lists _ _ _ "ana"%string H) as (G & R & T).
  rewrite G, R, T. split; [|split]; vm_compute; reflexivity.
Defined.

Lemma aggregate_review_times_length_witness :
  exists um, PullRequests.process_prs Samples3.hours Samples3.pr_sample = Some um /\
    length (PullRequests.review_times (PullRequests.metrics_of um "bo"%string)) =
    length (PullRequests.reviews_given (PullRequests.metrics_of um "bo"%string)).
Proof.
  assert (Hs : option_map (fun _ => tt) (PullRequests.process_prs Samples3.hours Samples3.pr_sample)
               = Some tt) by (vm_compute; reflexivity).
  destruct (PullRequests.process_prs Samples3.hours Samples3.pr_sample) as [um|] eqn:H;
    [|discriminate Hs].
  exists um. split; [reflexivity|].
  exact (proj1 (aggregate_review_times_length _ _ _ "bo"%string H)).
Defined.

Lemma aggregate_pr_rates_witness :
  exists um, PullRequests.process_prs Samples3.hours Samples3.pr_sample = Some um /\
    0 <= PullRequests.pr_merge_rate (PullRequests.metrics_of um "ana"%string) <= 100.
Proof.
  assert (Hs : option_map (fun _ => tt) (PullRequests.process_prs Samples3.hours Samples3.pr_sample)
               = Some tt) by (vm_compute; reflexivity).
  destruct (PullRequests.process_prs Samples3.hours Samples3.pr_sample) as [um|] eqn:H;
    [|discriminate Hs].
  exists um. split; [reflexivity|].
  exact (proj1 (proj2 (aggregate_pr_rates _ _ _ "ana"%string H))).
Defined.

Lemma aggregate_commit_counts_witness :
  exists um, Commits.process_commits Samples4.commit_sample = Some um /\
    Commits.total_commits (Commits.metrics_of um "ana"%string) = 2%nat /\
    Commits.commit_additions (Commits.metrics_of um "ana"%string) = 7%Z.
Proof.
  assert (Hs : option_map (fun _ => tt) (Commits.process_commits Samples4.commit_sample) = Some tt)
    by (vm_compute; reflexivity).
  destruct (Commits.process_commits Samples4.commit_sample) as [um|] eqn:H; [|discriminate Hs].
  exists um. split; [reflexivity|].
  destruct (aggregate_commit_counts _ _ "ana"%string H) as (T & _ & A & _).
  rewrite T, A. split; vm_compute; reflexivity.
Defined.

Lemma aggregate_commit_frequency_witness :
  exists um, Commits.process_commits Samples4.commit_sample = Some um /\
    Commits.commit_frequency 0 (Commits.metrics_of um "ana"%string) ==
      inject_Z (Z.of_nat (Commits.total_commits (Commits.metrics_of um "ana"%string))).
Proof.
  assert (Hs : option_map (fun _ => tt) (Commits.process_commits Samples4.commit_sample) = Some tt)
    by (vm_compute; reflexivity).
  destruct (Commits.process_commits Samples4.commit_sample) as [um|] eqn:H; [|discriminate Hs].
  exists um. split; [reflexivity|].
  exact (proj1 (proj2 (aggregate_commit_frequency _ _ "ana"%string 0 H)) eq_refl).
Defined.
